(** * Multi-DEX arbitrage bot: contract, orchestrator and profit analyzer

    A shallow embedding of
    - [contracts/MultiDexArbitrageBot.sol]  (the atomic execution unit),
    - [arbitrage-manager.js]                (the off-chain orchestrator),
    - [profit-analyzer.js]                  (the risk and calibration module),
    followed by the properties of the specification stated over it.

    Conventions.
    - A Solidity [uint256] is a [Z]; every arithmetic operation of the
      contract is checked (pragma ^0.8.0) and reverts with a panic when
      the result leaves [0, 2^256).
    - A function of the contract that is not [payable] reverts, without
      reason data, on a call that carries value.
    - External contracts (routers, tokens, the lending pool) are an
      environment record of functions over an abstract world state; the
      pool hands the address of its own caller to the flash-loan callback
      as initiator.
    - A JavaScript number is a binary64 float ([PrimFloat.float]);
      millisecond clock readings and array lengths are integers. The
      statistics file holds what [JSON.stringify] writes.
    - The arrays of the orchestrator form a store in which the variable
      [tokenList] may name the array [CONFIG.baseTokens] itself. *)

From Stdlib Require Import ZArith QArith List Lia Bool String Floats Permutation Sorted.
From Stdlib Require Uint63.
Import ListNotations.

Set Warnings "-inexact-float".
Local Open Scope Z_scope.

(* ===================================================================== *)
(** ** Solidity execution model *)
(* ===================================================================== *)

Module Solidity.

Definition address := Z.

Definition uint256_limit : Z := 2 ^ 256.
Definition uint8_limit : Z := 2 ^ 8.

Inductive Event :=
| ArbitrageExecuted (tokenA tokenB : address) (amountIn amountOut profit timestamp : Z)
| ArbitrageFailed (tokenA tokenB : address) (reason : string) (timestamp : Z).

(** Ghost record of one [swapExactTokensForTokens] call made by the
    contract: the venue's quote for the hop, the floor handed to the
    venue, and the balance difference credited afterwards ([None] when the
    venue call reverted). It is bookkeeping for the proofs only and
    survives a revert. *)
Record SwapCall := mkSwapCall {
  sc_router   : address;
  sc_tokenIn  : address;
  sc_tokenOut : address;
  sc_amountIn : Z;
  sc_quoted   : Z;
  sc_minOut   : Z;
  sc_realized : option Z
}.

(** The state a transaction works on: the external world, the events
    emitted so far, and the ghost trace. *)
Record Exec (W : Type) := mkExec {
  world  : W;
  events : list Event;
  trace  : list SwapCall
}.
Arguments mkExec {W}.
Arguments world {W}.
Arguments events {W}.
Arguments trace {W}.

(** A call either returns, or reverts: the world and the events are then
    rolled back and only the reason (and the ghost trace) is left. *)
Inductive Outcome (W A : Type) :=
| Done (a : A) (s : Exec W)
| Reverted (reason : string) (tr : list SwapCall).
Arguments Done {W A}.
Arguments Reverted {W A}.

Definition M (W A : Type) := Exec W -> Outcome W A.

Definition ret {W A} (a : A) : M W A := fun s => Done a s.

Definition bind {W A B} (m : M W A) (f : A -> M W B) : M W B :=
  fun s => match m s with
           | Done a s' => f a s'
           | Reverted r tr => Reverted r tr
           end.

Definition revert {W A} (reason : string) : M W A :=
  fun s => Reverted reason (trace s).

Definition require {W} (cond : bool) (reason : string) : M W unit :=
  if cond then ret tt else revert reason.

(** Panic(0x11): arithmetic overflow or underflow; Panic(0x32): array
    index out of bounds. *)
Definition panic_arith {W A} : M W A := revert "Panic(0x11)".
Definition panic_index {W A} : M W A := revert "Panic(0x32)".

Definition get_world {W} : M W W := fun s => Done (world s) s.

Definition set_world {W} (w : W) : M W unit :=
  fun s => Done tt (mkExec w (events s) (trace s)).

Definition emit {W} (e : Event) : M W unit :=
  fun s => Done tt (mkExec (world s) (events s ++ [e]) (trace s)).

Definition ghost {W} (c : SwapCall) : M W unit :=
  fun s => Done tt (mkExec (world s) (events s) (trace s ++ [c])).

(** [try f(...) returns (r) { ... } catch { ... }] around a call whose
    effects are undone when it reverts. *)
Definition try_call {W A} (m : M W A) : M W (option A) :=
  fun s => match m s with
           | Done a s' => Done (Some a) s'
           | Reverted _ tr => Done None (mkExec (world s) (events s) tr)
           end.

(** A state-changing external call: [None] from the environment is a
    revert of the callee, which propagates. *)
Definition external {W} (step : W -> option W) (reason : string) : M W unit :=
  fun s => match step (world s) with
           | Some w => Done tt (mkExec w (events s) (trace s))
           | None => Reverted reason (trace s)
           end.

Definition checked_add {W} (a b : Z) : M W Z :=
  if a + b <? uint256_limit then ret (a + b) else panic_arith.

Definition checked_sub {W} (a b : Z) : M W Z :=
  if b <=? a then ret (a - b) else panic_arith.

Definition checked_mul {W} (a b : Z) : M W Z :=
  if a * b <? uint256_limit then ret (a * b) else panic_arith.

(** [arr[i]] on a memory or calldata array. *)
Definition index {W A} (l : list A) (i : nat) : M W A :=
  match nth_error l i with
  | Some a => ret a
  | None => panic_index
  end.

End Solidity.

Declare Scope sol_scope.
Delimit Scope sol_scope with sol.
Notation "x <- c ;; k" := (Solidity.bind c (fun x => k))
  (at level 61, c at next level, right associativity) : sol_scope.
Notation "c ;;; k" := (Solidity.bind c (fun _ => k))
  (at level 61, right associativity) : sol_scope.

(* ===================================================================== *)
(** ** contracts/MultiDexArbitrageBot.sol *)
(* ===================================================================== *)

Module MultiDexArbitrageBot.

Import Solidity.
Local Open Scope sol_scope.

Record DexRouter := mkDex {
  router  : address;
  factory : address;
  name    : string;
  active  : bool
}.

Record ArbitrageRoute := mkRoute {
  path           : list address;
  dexIndices     : list Z;          (* uint8[] *)
  expectedProfit : Z;
  timestamp      : Z
}.

(** Contract storage, with the inherited [Ownable] owner, the
    [ReentrancyGuard] status and the [POOL] immutable. *)
Record Storage := mkStorage {
  dexRouters       : list DexRouter;
  activePairs      : address -> address -> bool;
  minProfitPercent : Z;
  maxGasPrice      : Z;
  minReserveRatio  : Z;
  _paused          : bool;
  owner            : address;
  _entered         : bool;
  POOL             : address;
  this             : address
}.

(** [msg.sender], [msg.value], [tx.gasprice], [block.timestamp]. *)
Record Msg := mkMsg {
  sender          : address;
  value           : Z;
  gasprice        : Z;
  block_timestamp : Z
}.

(** The external contracts. Every function reads or steps the world;
    [None] is a revert of the callee. Balances and allowances are those
    of this contract. *)
Record Env (W : Type) := mkEnv {
  balanceOf : W -> address -> Z;
  approve   : W -> address -> address -> Z -> option W;
  transfer  : W -> address -> address -> Z -> option W;
  getAmountsOut : W -> address -> Z -> list address -> option (list Z);
  swapExactTokensForTokens :
    W -> address -> Z -> Z -> list address -> address -> Z -> option W;
  swapExactTokensForETH :
    W -> address -> Z -> Z -> list address -> address -> Z -> option W;
  WETH : W -> address -> address;
  weth_deposit  : W -> address -> Z -> option W;
  weth_withdraw : W -> address -> Z -> option W;
  send_value    : W -> address -> Z -> option W;
  (** [POOL.flashLoanSimple]: the pool first transfers the asset to the
      receiver and fixes the premium, calls [executeOperation], and then
      pulls [amount + premium] from the receiver's allowance. *)
  pool_lend    : W -> address -> Z -> option (W * Z);
  pool_collect : W -> address -> Z -> option W
}.
Arguments balanceOf {W}.
Arguments approve {W}.
Arguments transfer {W}.
Arguments getAmountsOut {W}.
Arguments swapExactTokensForTokens {W}.
Arguments swapExactTokensForETH {W}.
Arguments WETH {W}.
Arguments weth_deposit {W}.
Arguments weth_withdraw {W}.
Arguments send_value {W}.
Arguments pool_lend {W}.
Arguments pool_collect {W}.

Section Contract.

Variable W : Type.
Variable env : Env W.
Variable c : Storage.

Definition dex_count : Z := Z.of_nat (List.length (dexRouters c)).

Definition IERC20_balanceOf (token : address) : M W Z :=
  w <- get_world ;; ret (balanceOf env w token).

Definition IERC20_approve (token spender : address) (amount : Z) : M W unit :=
  external (fun w => approve env w token spender amount) "ERC20: approve failed".

Definition IERC20_transfer (token to : address) (amount : Z) : M W unit :=
  external (fun w => transfer env w token to amount) "ERC20: transfer failed".

Definition getPathForTokenToEth (weth : address) : list address := [weth; weth].

Definition getPathForTokenToToken (tokenA tokenB : address) : list address :=
  [tokenA; tokenB].

(** One pass of the body of the [for (uint8 i = 0; ...; i++)] loop of
    [getBestOutputForSwap], followed by the checked [i++]. *)
Fixpoint getBestOutputForSwap_loop (routers : list DexRouter) (i : Z)
    (fromToken toToken : address) (amount bestOutput : Z) : M W Z :=
  match routers with
  | [] => ret bestOutput
  | d :: rest =>
      best <- (if negb (active d) then ret bestOutput
               else
                 w <- get_world ;;
                 match getAmountsOut env w (router d) amount
                         (getPathForTokenToToken fromToken toToken) with
                 | Some amounts =>
                     last <- checked_sub (Z.of_nat (List.length amounts)) 1 ;;
                     out <- index amounts (Z.to_nat last) ;;
                     ret (if bestOutput <? out then out else bestOutput)
                 | None => ret bestOutput
                 end) ;;
      if i + 1 <? uint8_limit
      then getBestOutputForSwap_loop rest (i + 1) fromToken toToken amount best
      else panic_arith
  end.

Definition getBestOutputForSwap (fromToken toToken : address) (amount : Z) : M W Z :=
  getBestOutputForSwap_loop (dexRouters c) 0 fromToken toToken amount 0.

Fixpoint findBestDexForSwap_loop (routers : list DexRouter) (i : Z)
    (fromToken toToken : address) (amount : Z) (best : Z * Z) : M W (Z * Z) :=
  match routers with
  | [] => ret best
  | d :: rest =>
      best' <- (if negb (active d) then ret best
                else
                  w <- get_world ;;
                  match getAmountsOut env w (router d) amount
                          (getPathForTokenToToken fromToken toToken) with
                  | Some amounts =>
                      last <- checked_sub (Z.of_nat (List.length amounts)) 1 ;;
                      out <- index amounts (Z.to_nat last) ;;
                      ret (if fst best <? out then (out, i) else best)
                  | None => ret best
                  end) ;;
      if i + 1 <? uint8_limit
      then findBestDexForSwap_loop rest (i + 1) fromToken toToken amount best'
      else panic_arith
  end.

(** Returns [bestDexIndex]; the pair carried by the loop is
    [(bestOutput, bestDexIndex)]. *)
Definition findBestDexForSwap (fromToken toToken : address) (amount : Z) : M W Z :=
  best <- findBestDexForSwap_loop (dexRouters c) 0 fromToken toToken amount (0, 0) ;;
  require (0 <? fst best) "No valid DEX found" ;;;
  ret (snd best).

Definition swapTokensBack (m : Msg) (fromToken toToken : address) (amount : Z) : M W Z :=
  bestDexIndex <- findBestDexForSwap fromToken toToken amount ;;
  dex <- index (dexRouters c) (Z.to_nat bestDexIndex) ;;
  IERC20_approve fromToken (router dex) 0 ;;;
  IERC20_approve fromToken (router dex) amount ;;;
  let path := [fromToken; toToken] in
  preBalance <- IERC20_balanceOf toToken ;;
  w <- get_world ;;
  match getAmountsOut env w (router dex) amount path with
  | None => revert "getAmountsOut reverted"
  | Some expectedAmounts =>
      quoted <- index expectedAmounts 1 ;;
      scaled <- checked_mul quoted (10000 - 50) ;;
      let minOut := scaled / 10000 in
      match swapExactTokensForTokens env w (router dex) amount minOut path
              (this c) (block_timestamp m) with
      | None =>
          ghost (mkSwapCall (router dex) fromToken toToken amount quoted minOut None) ;;;
          revert "swapExactTokensForTokens reverted"
      | Some w' =>
          set_world w' ;;;
          postBalance <- IERC20_balanceOf toToken ;;
          delta <- checked_sub postBalance preBalance ;;
          ghost (mkSwapCall (router dex) fromToken toToken amount quoted minOut
                   (Some delta)) ;;;
          ret delta
      end
  end.

(** What one pass of the hop loop of [executeSwaps] leaves behind:
    either the next token and amount, or the [return false] of the
    [catch] clause. *)
Inductive Hop :=
| HopSwapped (currentToken : address) (currentAmount : Z)
| HopCaught.

Definition executeSwaps_hop (m : Msg) (route : ArbitrageRoute) (i : nat)
    (dexIndex : Z) (currentToken : address) (currentAmount : Z) : M W Hop :=
  require (dexIndex <? dex_count) "Invalid DEX index" ;;;
  dex <- index (dexRouters c) (Z.to_nat dexIndex) ;;
  require (active dex) "DEX not active" ;;;
  nextToken <- index (path route) (i + 1) ;;
  preBalance <- IERC20_balanceOf nextToken ;;
  IERC20_approve currentToken (router dex) 0 ;;;
  IERC20_approve currentToken (router dex) currentAmount ;;;
  let tempPath := [currentToken; nextToken] in
  w <- get_world ;;
  match getAmountsOut env w (router dex) currentAmount tempPath with
  | None => revert "getAmountsOut reverted"
  | Some amountsOut =>
      quoted <- index amountsOut 1 ;;
      scaled <- checked_mul quoted (10000 - 50) ;;
      let minAmountOut := scaled / 10000 in
      match swapExactTokensForTokens env w (router dex) currentAmount minAmountOut
              tempPath (this c) (block_timestamp m) with
      | Some w' =>
          set_world w' ;;;
          postBalance <- IERC20_balanceOf nextToken ;;
          swappedAmount <- checked_sub postBalance preBalance ;;
          ghost (mkSwapCall (router dex) currentToken nextToken currentAmount quoted
                   minAmountOut (Some swappedAmount)) ;;;
          require (0 <? swappedAmount) "Zero swap amount" ;;;
          ret (HopSwapped nextToken swappedAmount)
      | None =>
          ghost (mkSwapCall (router dex) currentToken nextToken currentAmount quoted
                   minAmountOut None) ;;;
          ret HopCaught
      end
  end.

(** [for (uint i = 0; i < route.dexIndices.length; i++)]; [None] is the
    early [return false]. *)
Fixpoint executeSwaps_loop (m : Msg) (route : ArbitrageRoute) (indices : list Z)
    (i : nat) (currentToken : address) (currentAmount : Z)
  : M W (option (address * Z)) :=
  match indices with
  | [] => ret (Some (currentToken, currentAmount))
  | dexIndex :: rest =>
      h <- executeSwaps_hop m route i dexIndex currentToken currentAmount ;;
      match h with
      | HopSwapped nextToken swappedAmount =>
          executeSwaps_loop m route rest (S i) nextToken swappedAmount
      | HopCaught => ret None
      end
  end.

Definition executeSwaps (m : Msg) (tokenA tokenB : address) (amountIn : Z)
    (route : ArbitrageRoute) : M W bool :=
  require (2 <=? Z.of_nat (List.length (path route))) "Invalid path length" ;;;
  require (Z.of_nat (List.length (path route))
           =? Z.of_nat (List.length (dexIndices route)) + 1)
          "Path/DEX indices mismatch" ;;;
  r <- executeSwaps_loop m route (dexIndices route) 0 tokenA amountIn ;;
  match r with
  | None => ret false
  | Some (currentToken, currentAmount) =>
      if tokenA =? tokenB
      then require (currentToken =? tokenA) "Path does not form a loop" ;;;
           ret true
      else
        back <- try_call (swapTokensBack m currentToken tokenA currentAmount) ;;
        match back with
        | Some finalAmount => ret true
        | None => ret false
        end
  end.

(** The hop loop of [simulateArbitrage]; [None] is an early
    [return false]. *)
Fixpoint simulateArbitrage_loop (route : ArbitrageRoute) (indices : list Z) (i : nat)
    (currentToken : address) (currentAmount : Z) : M W (option (address * Z)) :=
  match indices with
  | [] => ret (Some (currentToken, currentAmount))
  | dexIndex :: rest =>
      if dex_count <=? dexIndex then ret None
      else
        dex <- index (dexRouters c) (Z.to_nat dexIndex) ;;
        if negb (active dex) then ret None
        else
          nextToken <- index (path route) (i + 1) ;;
          let tempPath := [currentToken; nextToken] in
          w <- get_world ;;
          match getAmountsOut env w (router dex) currentAmount tempPath with
          | Some amounts =>
              out <- index amounts 1 ;;
              if out =? 0 then ret None
              else simulateArbitrage_loop route rest (S i) nextToken out
          | None => ret None
          end
  end.

Definition simulateArbitrage (m : Msg) (tokenA tokenB : address) (amountIn : Z)
    (route : ArbitrageRoute) : M W bool :=
  (* simulatedAmounts[0] = amountIn on an array of route.path.length slots *)
  (if (0 <? List.length (path route))%nat then ret tt else panic_index) ;;;
  r <- simulateArbitrage_loop route (dexIndices route) 0 tokenA amountIn ;;
  match r with
  | None => ret false
  | Some (currentToken, currentAmount) =>
      if tokenA =? tokenB
      then
        if amountIn <? currentAmount
        then scaled <- checked_mul amountIn (minProfitPercent c) ;;
             floor <- checked_add amountIn (scaled / 100000) ;;
             ret (floor <=? currentAmount)
        else ret false
      else
        best <- try_call (getBestOutputForSwap currentToken tokenA currentAmount) ;;
        match best with
        | Some finalAmount =>
            totalDebt <- (if sender m =? POOL c
                          then fee <- checked_mul amountIn 9 ;;
                               checked_add amountIn (fee / 10000)
                          else ret amountIn) ;;
            if totalDebt <? finalAmount
            then scaled <- checked_mul amountIn (minProfitPercent c) ;;
                 floor <- checked_add totalDebt (scaled / 100000) ;;
                 ret (floor <=? finalAmount)
            else ret false
        | None => ret false
        end
  end.

(** [abi.encode(tokenB, route, amountIn)] and its [abi.decode]. *)
Record Params := mkParams {
  p_tokenB   : address;
  p_route    : ArbitrageRoute;
  p_amountIn : Z
}.

(** A function that is not [payable]: the check the compiler puts at its
    entry reverts, without reason data, a call that carries value. *)
Definition nonpayable (m : Msg) : M W unit :=
  require (value m =? 0) EmptyString.

(** The flash-loan callback; [m] is the message of the call made by the
    pool. *)
Definition executeOperation (m : Msg) (asset : address) (amount premium : Z)
    (initiator : address) (params : Params) : M W bool :=
  nonpayable m ;;;
  require (sender m =? POOL c) "Caller is not POOL" ;;;
  require (initiator =? owner c) "Initiator is not owner" ;;;
  let tokenB := p_tokenB params in
  let route := p_route params in
  totalDebt <- checked_add amount premium ;;
  initialBalance <- IERC20_balanceOf asset ;;
  require (amount <=? initialBalance) "Insufficient loan received" ;;;
  profitable <- simulateArbitrage m asset tokenB amount route ;;
  require profitable "Simulation shows no profit" ;;;
  success <- executeSwaps m asset tokenB amount route ;;
  (if success : bool
   then
     finalBalance <- IERC20_balanceOf asset ;;
     require (totalDebt <=? finalBalance) "Insufficient funds to repay" ;;;
     profit <- checked_sub finalBalance totalDebt ;;
     scaled <- checked_mul amount (minProfitPercent c) ;;
     let minProfit := scaled / 100000 in
     require (minProfit <=? profit) "Profit below threshold" ;;;
     IERC20_approve asset (POOL c) totalDebt ;;;
     (if 0 <? profit then IERC20_transfer asset (owner c) profit else ret tt) ;;;
     emit (ArbitrageExecuted asset tokenB amount finalBalance profit (block_timestamp m))
   else
     emit (ArbitrageFailed asset tokenB "Swap execution failed" (block_timestamp m))) ;;;
  ret true.

(** [onlyOwner] then [nonReentrant]. *)
Definition onlyOwner_nonReentrant (m : Msg) : M W unit :=
  require (owner c =? sender m) "Ownable: caller is not the owner" ;;;
  require (negb (_entered c)) "ReentrancyGuard: reentrant call".

(** The [require] statements of [executeArbitrage], in source order. *)
Definition executeArbitrage_requires (m : Msg) (tokenA tokenB : address)
    (route : ArbitrageRoute) : M W unit :=
  age <- checked_sub (block_timestamp m) (timestamp route) ;;
  require (age <? 2 * 60) "Route too old, frontrunning risk" ;;;
  require (negb (_paused c)) "Contract is paused" ;;;
  require (negb (tokenA =? tokenB)) "Same tokens" ;;;
  require (activePairs c tokenA tokenB) "Pair not active" ;;;
  deadline <- checked_add (timestamp route) (5 * 60) ;;
  require (block_timestamp m <=? deadline) "Route expired" ;;;
  require (gasprice m <=? maxGasPrice c) "Gas price too high".

(** [POOL.flashLoanSimple(address(this), asset, amount, params, 0)] in a
    transaction with the gas price and block time of [m], called by
    [caller]: the pool hands its own [msg.sender] to the callback as
    [initiator]. *)
Definition flashLoanSimple (m : Msg) (caller : address) (asset : address) (amount : Z)
    (params : Params) : M W unit :=
  w <- get_world ;;
  match pool_lend env w asset amount with
  | None => revert "POOL: flashLoanSimple reverted"
  | Some (w', premium) =>
      set_world w' ;;;
      ok <- executeOperation (mkMsg (POOL c) 0 (gasprice m) (block_timestamp m))
              asset amount premium caller params ;;
      require ok "POOL: invalid executor return" ;;;
      debt <- checked_add amount premium ;;
      external (fun w => pool_collect env w asset debt) "POOL: repayment failed"
  end.

Definition executeArbitrage (m : Msg) (tokenA tokenB : address) (amountIn : Z)
    (route : ArbitrageRoute) : M W unit :=
  nonpayable m ;;;
  onlyOwner_nonReentrant m ;;;
  executeArbitrage_requires m tokenA tokenB route ;;;
  (* the pool is called by this contract *)
  flashLoanSimple m (this c) tokenA amountIn (mkParams tokenB route amountIn).

(** The [require] statements of [executeArbitrageWithNative] that come
    before the wrap, in source order; returns [dexRouters[0]]. *)
Definition executeArbitrageWithNative_requires (m : Msg) (tokenB : address)
    (route : ArbitrageRoute) : M W DexRouter :=
  require (negb (_paused c)) "Contract is paused" ;;;
  require (0 <? value m) "No ETH sent" ;;;
  dex0 <- index (dexRouters c) 0 ;;
  w <- get_world ;;
  require (activePairs c (WETH env w (router dex0)) tokenB) "Pair not active" ;;;
  deadline <- checked_add (timestamp route) (5 * 60) ;;
  require (block_timestamp m <=? deadline) "Route expired" ;;;
  require (gasprice m <=? maxGasPrice c) "Gas price too high" ;;;
  ret dex0.

Definition executeArbitrageWithNative (m : Msg) (tokenB : address)
    (route : ArbitrageRoute) : M W unit :=
  onlyOwner_nonReentrant m ;;;
  dex0 <- executeArbitrageWithNative_requires m tokenB route ;;
  w <- get_world ;;
  let tokenA := WETH env w (router dex0) in
  let amountIn := value m in
  let weth := tokenA in
  (* (bool success,) = weth.call{value: amountIn}("deposit()") *)
  (match weth_deposit env w weth amountIn with
   | Some w' => set_world w'
   | None => revert "ETH wrap failed"
   end) ;;;
  initialBalance <- IERC20_balanceOf tokenA ;;
  success <- executeSwaps m tokenA tokenB amountIn route ;;
  if success : bool
  then
    finalBalance <- IERC20_balanceOf tokenA ;;
    require (initialBalance <? finalBalance) "No profit generated" ;;;
    profit <- checked_sub finalBalance initialBalance ;;
    IERC20_approve weth (router dex0) finalBalance ;;;
    external (fun w => swapExactTokensForETH env w (router dex0) finalBalance 0
                         (getPathForTokenToEth weth) (sender m) (block_timestamp m))
             "swapExactTokensForETH reverted" ;;;
    emit (ArbitrageExecuted tokenA tokenB amountIn finalBalance profit (block_timestamp m))
  else
    w1 <- get_world ;;
    (match weth_withdraw env w1 weth amountIn with
     | Some w' => set_world w'
     | None => revert "ETH unwrap failed"
     end) ;;;
    external (fun w => send_value env w (sender m) amountIn) "transfer failed" ;;;
    emit (ArbitrageFailed tokenA tokenB "Swap execution failed" (block_timestamp m)).

(** [getTokenBalance] *)
Definition getTokenBalance (token : address) : M W Z :=
  IERC20_balanceOf token.

(** [rescueERC20] *)
Definition rescueERC20 (m : Msg) (token : address) : M W unit :=
  nonpayable m ;;;
  require (owner c =? sender m) "Ownable: caller is not the owner" ;;;
  balance <- IERC20_balanceOf token ;;
  IERC20_transfer token (owner c) balance.

End Contract.

(** *** Administration *)

(** The events of the administrative functions. *)
Inductive AdminEvent :=
| DexAdded (name : string) (router factory : address)
| DexStatusChanged (name : string) (active : bool).

(** An administrative call either is applied, leaving a new storage and
    its events, or reverts and leaves the storage as it was. None of the
    administrative functions is [payable]: a call that carries value
    reverts without reason data before the [onlyOwner] modifier runs. *)
Inductive Admin :=
| Applied (c' : Storage) (log : list AdminEvent)
| Refused (reason : string).

(** The state after deployment by [deployer]: no venue, no active pair,
    the initial parameters, not paused. *)
Definition constructor (deployer pool self : address) : Storage := {|
  dexRouters := [];
  activePairs := fun _ _ => false;
  minProfitPercent := 100;
  maxGasPrice := 100 * 10 ^ 9;
  minReserveRatio := 20;
  _paused := false;
  owner := deployer;
  _entered := false;
  POOL := pool;
  this := self
|}.

Definition with_dexRouters (c : Storage) (l : list DexRouter) : Storage :=
  mkStorage l (activePairs c) (minProfitPercent c) (maxGasPrice c) (minReserveRatio c)
    (_paused c) (owner c) (_entered c) (POOL c) (this c).

(** [arr[i] = x] on a storage array, for [i] inside it. *)
Fixpoint assign {A} (l : list A) (i : nat) (x : A) : list A :=
  match l, i with
  | [], _ => []
  | _ :: rest, O => x :: rest
  | y :: rest, S i' => y :: assign rest i' x
  end.

Definition addDex (c : Storage) (m : Msg) (name : string)
    (routerAddress factoryAddress : address) : Admin :=
  if negb (value m =? 0) then Refused EmptyString
  else if negb (owner c =? sender m) then Refused "Ownable: caller is not the owner"
  else Applied (with_dexRouters c
                  (dexRouters c ++ [mkDex routerAddress factoryAddress name true]))
               [DexAdded name routerAddress factoryAddress].

Definition setDexStatus (c : Storage) (m : Msg) (dexIndex : Z) (active_ : bool) : Admin :=
  if negb (value m =? 0) then Refused EmptyString
  else if negb (owner c =? sender m) then Refused "Ownable: caller is not the owner"
  else if negb (dexIndex <? dex_count c) then Refused "Invalid DEX index"
  else match nth_error (dexRouters c) (Z.to_nat dexIndex) with
       | Some d =>
           Applied (with_dexRouters c
                      (assign (dexRouters c) (Z.to_nat dexIndex)
                         (mkDex (router d) (factory d) (name d) active_)))
                   [DexStatusChanged (name d) active_]
       | None => Refused "Panic(0x32)"
       end.

Definition setActivePair (c : Storage) (m : Msg) (tokenA tokenB : address)
    (active_ : bool) : Admin :=
  if negb (value m =? 0) then Refused EmptyString
  else if negb (owner c =? sender m) then Refused "Ownable: caller is not the owner"
  else
    let first := fun x y =>
      if (x =? tokenA) && (y =? tokenB) then active_ else activePairs c x y in
    let second := fun x y =>
      if (x =? tokenB) && (y =? tokenA) then active_ else first x y in
    Applied (mkStorage (dexRouters c) second (minProfitPercent c) (maxGasPrice c)
               (minReserveRatio c) (_paused c) (owner c) (_entered c) (POOL c) (this c))
            [].

Definition updateParameters (c : Storage) (m : Msg)
    (_minProfitPercent _maxGasPrice _minReserveRatio : Z) : Admin :=
  if negb (value m =? 0) then Refused EmptyString
  else if negb (owner c =? sender m) then Refused "Ownable: caller is not the owner"
  else Applied (mkStorage (dexRouters c) (activePairs c) _minProfitPercent _maxGasPrice
                  _minReserveRatio (_paused c) (owner c) (_entered c) (POOL c) (this c))
               [].

Definition togglePause (c : Storage) (m : Msg) : Admin :=
  if negb (value m =? 0) then Refused EmptyString
  else if negb (owner c =? sender m) then Refused "Ownable: caller is not the owner"
  else Applied (mkStorage (dexRouters c) (activePairs c) (minProfitPercent c)
                  (maxGasPrice c) (minReserveRatio c) (negb (_paused c)) (owner c)
                  (_entered c) (POOL c) (this c))
               [].

Definition isPaused (c : Storage) : bool := _paused c.

(** One administrative transaction. *)
Inductive AdminCall :=
| AddDex (name : string) (routerAddress factoryAddress : address)
| SetDexStatus (dexIndex : Z) (active_ : bool)
| SetActivePair (tokenA tokenB : address) (active_ : bool)
| UpdateParameters (_minProfitPercent _maxGasPrice _minReserveRatio : Z)
| TogglePause.

Definition admin (c : Storage) (m : Msg) (call : AdminCall) : Admin :=
  match call with
  | AddDex n r f => addDex c m n r f
  | SetDexStatus i a => setDexStatus c m i a
  | SetActivePair a b v => setActivePair c m a b v
  | UpdateParameters p g r => updateParameters c m p g r
  | TogglePause => togglePause c m
  end.

(** A sequence of administrative transactions, each with its own
    message; a reverted one leaves the storage where it was. *)
Fixpoint administer (c : Storage) (txs : list (Msg * AdminCall)) : Storage :=
  match txs with
  | [] => c
  | (m, call) :: rest =>
      match admin c m call with
      | Applied c' _ => administer c' rest
      | Refused _ => administer c rest
      end
  end.

End MultiDexArbitrageBot.

(* ===================================================================== *)
(** ** profit-analyzer.js *)
(* ===================================================================== *)

Module ProfitAnalyzer.

Local Open Scope float_scope.

(** One element of [this.historicalData]. *)
Record ProfitSample := mkSample {
  timestamp  : Z;
  pair       : string;
  estimated  : float;
  actual     : float;
  errorRatio : float
}.

(** The argument of [analyzeEstimationAccuracy]; a field that is absent
    from the object reads as [undefined], here [None]. *)
Record TradeData := mkTrade {
  td_estimated : option float;
  td_actual    : option float;
  td_pair      : string;
  td_timestamp : Z
}.

(** A number as [JSON.stringify] writes it: [NaN] and the infinities
    become [null], here [None], and [-0] becomes [0]; every other number
    is written so that it reads back as itself. *)
Definition json_number (x : float) : option float :=
  if is_nan x || is_infinity x then None
  else if x =? 0 then Some 0
  else Some x.

(** One object of the array in [profit-statistics.json]. *)
Record StoredSample := mkStored {
  st_timestamp  : Z;
  st_pair       : string;
  st_estimated  : option float;
  st_actual     : option float;
  st_errorRatio : option float
}.

(** [JSON.stringify] on one element of the history. *)
Definition stringify (t : ProfitSample) : StoredSample :=
  mkStored (timestamp t) (pair t) (json_number (estimated t)) (json_number (actual t))
    (json_number (errorRatio t)).

(** The analyzer object: the in-memory history and the contents of
    [profit-statistics.json]. *)
Record Analyzer := mkAnalyzer {
  historicalData : list ProfitSample;
  statisticsFile : list StoredSample
}.

(** Fields assigned once, in the constructor. *)
Definition errorThreshold : float := 0.1.
Definition criticalErrorThreshold : float := 0.3.

(** JavaScript truthiness of a number-or-undefined: [undefined], [0],
    [-0] and [NaN] are falsy. *)
Definition truthy (v : option float) : bool :=
  match v with
  | None => false
  | Some x => negb (x =? 0) && negb (is_nan x)
  end.

(** [arr.slice(-n)]: the last [n] elements, the whole array when it is
    shorter. *)
Definition slice_last {A} (n : nat) (l : list A) : list A :=
  skipn (List.length l - n) l.

(** [arr.length] as a number. *)
Definition length_num {A} (l : list A) : float :=
  of_uint63 (Uint63.of_Z (Z.of_nat (List.length l))).

(** [saveHistoricalData]: the write may throw; the exception is caught
    and logged, the file then keeps its contents. *)
Definition saveHistoricalData (write_ok : bool) (a : Analyzer) : Analyzer :=
  if write_ok then mkAnalyzer (historicalData a) (map stringify (historicalData a)) else a.

Inductive AccuracyResult :=
| AccuracyError (accurate : bool) (error : string)
| AccuracyReport (accurate critical : bool) (ratio percent : float).

Definition analyzeEstimationAccuracy (write_ok : bool) (a : Analyzer)
    (tradeData : TradeData) : AccuracyResult * Analyzer :=
  if negb (truthy (td_estimated tradeData)) || negb (truthy (td_actual tradeData))
  then (AccuracyError false "Missing data", a)
  else
    match td_estimated tradeData, td_actual tradeData with
    | Some est, Some act =>
        let ratio := abs (est - act) / est in
        let percent := ratio * 100 in
        let pushed := historicalData a ++
          [mkSample (td_timestamp tradeData) (td_pair tradeData) est act ratio] in
        let kept :=
          if (100 <? List.length pushed)%nat then slice_last 100 pushed else pushed in
        let a' := saveHistoricalData write_ok (mkAnalyzer kept (statisticsFile a)) in
        (AccuracyReport (ratio <=? errorThreshold)
                        (criticalErrorThreshold <? ratio) ratio percent, a')
    | _, _ => (AccuracyError false "Missing data", a)
    end.

Inductive RiskLevel := unknown | low | medium | high.

Definition level_name (l : RiskLevel) : string :=
  match l with
  | unknown => "unknown" | low => "low" | medium => "medium" | high => "high"
  end.

Record RiskAssessment := mkRisk {
  level   : RiskLevel;
  message : string
}.

(** [recentTrades.reduce((sum, trade) => sum + trade.errorRatio, 0) /
    recentTrades.length] *)
Definition avgError_of (recentTrades : list ProfitSample) : float :=
  fold_left (fun sum trade => sum + errorRatio trade) recentTrades 0
  / length_num recentTrades.

(** [Math.pow(d, 2)] is [d * d]. *)
Definition variance_of (recentTrades : list ProfitSample) : float :=
  let avgError := avgError_of recentTrades in
  fold_left (fun sum trade =>
               sum + (errorRatio trade - avgError) * (errorRatio trade - avgError))
            recentTrades 0
  / length_num recentTrades.

Definition assessRisk (a : Analyzer) : RiskAssessment :=
  if (List.length (historicalData a) <? 5)%nat
  then mkRisk unknown "Not enough historical data"
  else
    let recentTrades := slice_last 10 (historicalData a) in
    let avgError := avgError_of recentTrades in
    let variance := variance_of recentTrades in
    let stdDev := PrimFloat.sqrt variance in
    if criticalErrorThreshold <? avgError
    then mkRisk high "High risk: Large average estimation error"
    else if errorThreshold <? avgError
    then mkRisk medium "Medium risk: Significant estimation error"
    else if 0.2 <? stdDev
    then mkRisk medium "Medium risk: Volatile estimation accuracy"
    else mkRisk low "Low risk: Consistent estimation accuracy".

(** The fields of [this.config] that [recommendStrategy] reads. *)
Record Config := mkConfig {
  minProfitPercent : float;
  useFlashbots     : bool
}.

(** What [recommendStrategy] returns, the message apart. *)
Record Strategy := mkStrategy {
  recommendedSlippage  : float;
  recommendedMinProfit : float;
  useMEVProtection     : bool
}.

(** [switch (risk.level)]: ['unknown'] falls under [default]. *)
Definition recommendStrategy (config : Config) (a : Analyzer) : Strategy :=
  let risk := assessRisk a in
  match level risk with
  | high => mkStrategy 0.2 (minProfitPercent config * 2) true
  | medium => mkStrategy 0.5 (minProfitPercent config * 1.5) true
  | low | unknown => mkStrategy 1.0 (minProfitPercent config) (useFlashbots config)
  end.

End ProfitAnalyzer.

(* ===================================================================== *)
(** ** A mock chain: one ledger of this contract's balances, venues that
       quote and deliver by given functions *)
(* ===================================================================== *)

Module Mock.

Import Solidity MultiDexArbitrageBot.

(** Balances of the contract per token, and its allowances per
    (token, spender). *)
Record World := mkWorld {
  bal   : list (address * Z);
  allow : list (address * address * Z)
}.

Fixpoint lookup (l : list (address * Z)) (k : address) : Z :=
  match l with
  | [] => 0
  | (k', v) :: rest => if k' =? k then v else lookup rest k
  end.

Fixpoint update (l : list (address * Z)) (k : address) (v : Z) : list (address * Z) :=
  match l with
  | [] => [(k, v)]
  | (k', v') :: rest => if k' =? k then (k, v) :: rest else (k', v') :: update rest k v
  end.

Fixpoint allowance (l : list (address * address * Z)) (t s : address) : Z :=
  match l with
  | [] => 0
  | (t', s', v) :: rest => if (t' =? t) && (s' =? s) then v else allowance rest t s
  end.

Definition credit (w : World) (t : address) (v : Z) : World :=
  mkWorld (update (bal w) t (lookup (bal w) t + v)) (allow w).

Definition debit (w : World) (t : address) (v : Z) : option World :=
  if v <=? lookup (bal w) t
  then Some (mkWorld (update (bal w) t (lookup (bal w) t - v)) (allow w))
  else None.

Definition weth_address : address := 100.

Section Venues.

(** [quote r a b x]: what router [r] answers to [getAmountsOut] for [x]
    of [a] into [b]; [deliver r a b x]: what it would pay out in a swap;
    [premium x]: the pool's premium on a loan of [x]. *)
Variable quote   : address -> address -> address -> Z -> Z.
Variable deliver : address -> address -> address -> Z -> Z.
Variable premium : Z -> Z.

Definition mock_swap (w : World) (r : address) (amountIn amountOutMin : Z)
    (path : list address) (to : address) (deadline : Z) : option World :=
  match path with
  | [a; b] =>
      let d := deliver r a b amountIn in
      if (a =? b) || (d <? amountOutMin) then None
      else match debit w a amountIn with
           | Some w' => Some (credit w' b d)
           | None => None
           end
  | _ => None
  end.

Definition mock_env : Env World := {|
  balanceOf := fun w t => lookup (bal w) t;
  approve := fun w t s v => Some (mkWorld (bal w) ((t, s, v) :: allow w));
  transfer := fun w t _ v => debit w t v;
  getAmountsOut := fun w r x path =>
    match path with
    | [a; b] => if a =? b then None else Some [x; quote r a b x]
    | _ => None
    end;
  swapExactTokensForTokens := mock_swap;
  (* takes the wrapped balance whatever the path *)
  swapExactTokensForETH := fun w r x _ _ _ _ => debit w weth_address x;
  WETH := fun _ _ => weth_address;
  weth_deposit := fun w t v => Some (credit w t v);
  weth_withdraw := fun w t v => debit w t v;
  send_value := fun w _ _ => Some w;
  pool_lend := fun w t x => Some (credit w t x, premium x);
  pool_collect := fun w t debt =>
    if debt <=? allowance (allow w) t 900 then debit w t debt else None
|}.

End Venues.

(** A deployment with two active venues (routers 10 and 11), owner 1,
    pool 900, and the token pair (1000, 2000) and (WETH, 2000) active. *)
Definition storage (minProfitPercent : Z) : Storage := {|
  dexRouters := [mkDex 10 20 "DexA" true; mkDex 11 21 "DexB" true];
  activePairs := fun a b =>
    ((a =? 1000) && (b =? 2000)) || ((a =? 2000) && (b =? 1000))
    || ((a =? weth_address) && (b =? 2000)) || ((a =? 2000) && (b =? weth_address));
  minProfitPercent := minProfitPercent;
  maxGasPrice := 100000000000;
  minReserveRatio := 20;
  _paused := false;
  owner := 1;
  _entered := false;
  POOL := 900;
  this := 7
|}.

Definition start (w : World) : Exec World := mkExec w [] [].

End Mock.

(* ===================================================================== *)
(** ** arbitrage-manager.js *)
(* ===================================================================== *)

Module ArbitrageManager.

Local Open Scope float_scope.

Record Token := mkToken {
  symbol    : string;
  t_address : string;
  decimals  : Z
}.

(** The fields of [CONFIG] the modelled functions read; [dexes] holds,
    per venue, whether its [router] contract object has been set. *)
Record Config := mkConfig {
  dexes                : list bool;
  maxHops              : Z;
  minProfitUSD         : float;
  minProfitPercent     : float;
  maxExecutionsPerHour : Z;
  executionCooldown    : Z
}.

(** One element of [executionHistory]. *)
Record ExecutionRecord := mkRecord {
  timestamp : Z;
  txHash    : string;
  profit    : float;
  route     : string
}.

(** What [findBestArbitrageRoute] hands to [executeArbitrage]. The
    object it builds has no [tokenA] or [tokenB] property; a caller that
    adds them is covered by [Some]. *)
Record Opportunity := mkOpportunity {
  o_tokenA           : option Token;
  o_tokenB           : option Token;
  amountIn           : Z;
  path               : list string;
  dexIndices         : list nat;
  o_profit           : Z;
  profitPercent      : float;
  estimatedProfitUSD : float;
  routeDescription   : string;
  profitable         : bool
}.

(** The transaction handed to [contract.executeArbitrage]. *)
Record Submission := mkSubmission {
  s_tokenA         : string;
  s_tokenB         : string;
  s_amountIn       : Z;
  s_path           : list string;
  s_dexIndices     : list nat;
  s_expectedProfit : Z;
  s_timestamp      : Z
}.

(** How the chain answers one submission: any of the three awaited calls
    may reject, otherwise there is a receipt, read at clock [minedAt]. *)
Inductive TxOutcome :=
| GasPriceThrows
| SendThrows
| WaitThrows (hash : string)
| Receipt (hash : string) (status : Z) (minedAt : Z).

Record Attempt := mkAttempt {
  result    : bool;
  history   : list ExecutionRecord;
  submitted : option Submission
}.

(** [executionHistory.filter(e => e.timestamp > oneHourAgo)] *)
Definition recentExecutions (executionHistory : list ExecutionRecord) (now : Z)
  : list ExecutionRecord :=
  let oneHourAgo := (now - 60 * 60 * 1000)%Z in
  filter (fun e => (oneHourAgo <? timestamp e)%Z) executionHistory.

Definition len {A} (l : list A) : Z := Z.of_nat (List.length l).

(** [executeArbitrage(opportunity)]. [now] is the clock at the safety
    check, [now_route] the one read for the route timestamp. Every throw
    inside the [try] ends in the [catch], which returns [false]. *)
Definition executeArbitrage (cfg : Config) (executionHistory : list ExecutionRecord)
    (now now_route : Z) (opportunity : Opportunity) (tx : TxOutcome) : Attempt :=
  if (maxExecutionsPerHour cfg <=? len executionHistory)%Z
     && (maxExecutionsPerHour cfg <=? len (recentExecutions executionHistory now))%Z
  then mkAttempt false executionHistory None
  else
    match o_tokenA opportunity, o_tokenB opportunity with
    | Some tokenA, Some tokenB =>
        let sub := mkSubmission (t_address tokenA) (t_address tokenB)
                     (amountIn opportunity) (path opportunity) (dexIndices opportunity)
                     (o_profit opportunity) (now_route / 1000)%Z in
        match tx with
        | GasPriceThrows => mkAttempt false executionHistory None
        | SendThrows => mkAttempt false executionHistory None
        | WaitThrows _ => mkAttempt false executionHistory (Some sub)
        | Receipt hash status minedAt =>
            if (status =? 1)%Z
            then mkAttempt true
                   (executionHistory ++
                      [mkRecord minedAt hash (estimatedProfitUSD opportunity)
                         (routeDescription opportunity)])
                   (Some sub)
            else mkAttempt false executionHistory (Some sub)
        end
    | _, _ =>
        (* tokenA.symbol on undefined: TypeError, caught *)
        mkAttempt false executionHistory None
    end.

Record WatchedPair := mkPair {
  tokenA       : Token;
  tokenB       : Token;
  active       : bool;
  lastChecked  : Z;
  lastProfit   : float;
  successCount : Z
}.

(** The guard at the head of the scan loop body:
    [if (now - pair.lastChecked < 5000) continue]. *)
Definition skipped (now : Z) (pair : WatchedPair) : bool :=
  (now - lastChecked pair <? 5000)%Z.

(** One pass of the body of [for (const pair of pairsToCheck)] in
    [checkArbitrageOpportunities]: [found] is what
    [findBestArbitrageRoute] returned, [now_exec], [now_route] and [tx]
    are consumed by [executeArbitrage] when it is called. *)
Definition checkPair (cfg : Config) (executionHistory : list ExecutionRecord)
    (now : Z) (pair : WatchedPair) (found : option Opportunity)
    (now_exec now_route : Z) (tx : TxOutcome)
  : WatchedPair * list ExecutionRecord :=
  if skipped now pair then (pair, executionHistory)
  else
    let pair1 := mkPair (tokenA pair) (tokenB pair) (active pair) now
                   (lastProfit pair) (successCount pair) in
    match found with
    | Some res =>
        if profitable res
        then
          let pair2 := mkPair (tokenA pair1) (tokenB pair1) (active pair1)
                         (lastChecked pair1) (estimatedProfitUSD res)
                         (successCount pair1) in
          if (minProfitUSD cfg <=? estimatedProfitUSD res)
             && (minProfitPercent cfg <=? profitPercent res)
          then
            let a := executeArbitrage cfg executionHistory now_exec now_route res tx in
            if result a
            then (mkPair (tokenA pair2) (tokenB pair2) (active pair2)
                    (now + executionCooldown cfg * 1000)%Z
                    (lastProfit pair2) (successCount pair2 + 1)%Z,
                  history a)
            else (pair2, history a)
          else (pair2, executionHistory)
        else (pair1, executionHistory)
    | None => (pair1, executionHistory)
    end.

(** *** Route enumeration of [findBestArbitrageRoute] *)

(** A candidate pushed on [routes]; the description strings and the
    float [profitPercent] derived from [profit] are left out. *)
Record Route := mkRoute {
  r_type       : string;
  r_path       : list string;
  r_dexIndices : list nat;
  r_amountIn   : Z;
  r_expectedOut : Z;
  r_profit     : Z
}.

(** What the enumeration part of [findBestArbitrageRoute] comes to:
    [return null], a non-empty candidate list handed to the ranking, or
    no answer within the given number of loop iterations. *)
Inductive Search :=
| OutOfFuel
| ReturnsNull
| Candidates (routes : list Route).

Section Enumeration.

Local Open Scope Z_scope.

Variable cfg : Config.
Variable tokenList : list Token.
(** [getAmountsOut(amountIn, [from, to])[1]] on the router of venue
    [i]; [None] when the call throws. *)
Variable getAmountsOut : nat -> Z -> string -> string -> option Z.
Variable tokA tokB : Token.

(** [ethers.utils.parseUnits('1', decimals)] *)
Definition parseUnits_one (d : Z) : Z := 10 ^ d.

(** [CONFIG.dexes[i].router.getAmountsOut(...)]: an index past the end
    reads [undefined], and [.router] on it (or a call on an unset router)
    throws a TypeError. *)
Definition quote_at (i : nat) (amount : Z) (from to : string) : option Z :=
  match nth_error (dexes cfg) i with
  | Some true => getAmountsOut i amount from to
  | _ => None
  end.

(** The first loop: the venues on which both unit quotes succeed. *)
Fixpoint collectPrices (ds : list bool) (dexIndex : nat) : list nat :=
  match ds with
  | [] => []
  | hasRouter :: rest =>
      if hasRouter
      then match getAmountsOut dexIndex (parseUnits_one (decimals tokA))
                   (t_address tokA) (t_address tokB),
                 getAmountsOut dexIndex (parseUnits_one (decimals tokB))
                   (t_address tokB) (t_address tokA) with
           | Some _, Some _ => dexIndex :: collectPrices rest (S dexIndex)
           | _, _ => collectPrices rest (S dexIndex)
           end
      else collectPrices rest (S dexIndex)
  end.

(** Body of the 2-hop double loop; its quotes are not guarded, so a
    throw ([None]) leaves the function through the outer [catch]. *)
Definition twoHop_body (sell buy : nat) (routes : list Route) : option (list Route) :=
  let amountIn := parseUnits_one (decimals tokA) in
  match quote_at sell amountIn (t_address tokA) (t_address tokB) with
  | None => None
  | Some intermediateAmount =>
      match quote_at buy intermediateAmount (t_address tokB) (t_address tokA) with
      | None => None
      | Some finalAmount =>
          let profit := finalAmount - amountIn in
          Some (if 0 <? profit
                then routes ++ [mkRoute "2-hop"
                                  [t_address tokA; t_address tokB; t_address tokA]
                                  [sell; buy] amountIn finalAmount profit]
                else routes)
      end
  end.

Fixpoint twoHop_j (i : nat) (sell : nat) (buys : list nat) (j : nat)
    (routes : list Route) : option (list Route) :=
  match buys with
  | [] => Some routes
  | buy :: rest =>
      if (i =? j)%nat then twoHop_j i sell rest (S j) routes
      else match twoHop_body sell buy routes with
           | None => None
           | Some routes' => twoHop_j i sell rest (S j) routes'
           end
  end.

Fixpoint twoHop_i (prices : list nat) (sells : list nat) (i : nat)
    (routes : list Route) : option (list Route) :=
  match sells with
  | [] => Some routes
  | sell :: rest =>
      match twoHop_j i sell prices 0 routes with
      | None => None
      | Some routes' => twoHop_i prices rest (S i) routes'
      end
  end.

(** Body of the 3-hop triple loop; everything is inside [try], a throw
    is a [continue]. *)
Definition threeHop_body (tokenC : Token) (i j k : nat) (routes : list Route)
  : list Route :=
  let amountIn := parseUnits_one (decimals tokA) in
  match quote_at i amountIn (t_address tokA) (t_address tokenC) with
  | None => routes
  | Some amountC =>
      match quote_at j amountC (t_address tokenC) (t_address tokB) with
      | None => routes
      | Some amountB =>
          match quote_at k amountB (t_address tokB) (t_address tokA) with
          | None => routes
          | Some finalAmount =>
              let profit := finalAmount - amountIn in
              if 0 <? profit
              then routes ++ [mkRoute "3-hop"
                                [t_address tokA; t_address tokenC; t_address tokB;
                                 t_address tokA]
                                [i; j; k] amountIn finalAmount profit]
              else routes
          end
      end
  end.

Definition dexes_length : nat := List.length (dexes cfg).

(** [for (let k = 0; i < CONFIG.dexes.length; k++)]: one unit of fuel
    per test of the loop condition. *)
Fixpoint threeHop_k (fuel : nat) (tokenC : Token) (i j k : nat) (routes : list Route)
  : option (list Route) :=
  match fuel with
  | O => None
  | S fuel' =>
      if (i <? dexes_length)%nat
      then threeHop_k fuel' tokenC i j (S k) (threeHop_body tokenC i j k routes)
      else Some routes
  end.

(** [for (let j = 0; i < CONFIG.dexes.length; j++)] *)
Fixpoint threeHop_j (fuel : nat) (tokenC : Token) (i j : nat) (routes : list Route)
  : option (list Route) :=
  match fuel with
  | O => None
  | S fuel' =>
      if (i <? dexes_length)%nat
      then match threeHop_k fuel' tokenC i j 0 routes with
           | None => None
           | Some routes' => threeHop_j fuel' tokenC i (S j) routes'
           end
      else Some routes
  end.

(** [for (let i = 0; i < CONFIG.dexes.length; i++)] *)
Fixpoint threeHop_i (fuel : nat) (tokenC : Token) (i : nat) (routes : list Route)
  : option (list Route) :=
  match fuel with
  | O => None
  | S fuel' =>
      if (i <? dexes_length)%nat
      then match threeHop_j fuel' tokenC i 0 routes with
           | None => None
           | Some routes' => threeHop_i fuel' tokenC (S i) routes'
           end
      else Some routes
  end.

(** [for (const tokenC of tokenList)] *)
Fixpoint threeHop_tokens (fuel : nat) (tokens : list Token) (routes : list Route)
  : option (list Route) :=
  match tokens with
  | [] => Some routes
  | tokenC :: rest =>
      if String.eqb (t_address tokenC) (t_address tokA)
         || String.eqb (t_address tokenC) (t_address tokB)
      then threeHop_tokens fuel rest routes
      else match threeHop_i fuel tokenC 0 routes with
           | None => None
           | Some routes' => threeHop_tokens fuel rest routes'
           end
  end.

(** [findBestArbitrageRoute] up to the test [routes.length === 0]. *)
Definition findBestArbitrageRoute_routes (fuel : nat) : Search :=
  let prices := collectPrices (dexes cfg) 0 in
  if (List.length prices <? 2)%nat then ReturnsNull
  else
    match twoHop_i prices prices 0 [] with
    | None => ReturnsNull
    | Some routes2 =>
        let searched :=
          if 3 <=? maxHops cfg
          then threeHop_tokens fuel tokenList routes2
          else Some routes2 in
        match searched with
        | None => OutOfFuel
        | Some [] => ReturnsNull
        | Some routes => Candidates routes
        end
    end.

End Enumeration.

(** *** The token registry: [initWatchedPairs], [addNewTokenIfNotExists]
        and [discoverNewTokens] *)

(** What the module-level variable [tokenList] names: the array
    [CONFIG.baseTokens] itself, or an array of its own. *)
Inductive TokenListRef :=
| ConfigBaseTokens
| OwnArray (tokens : list Token).

(** The arrays of the module: the contents of [CONFIG.baseTokens], the
    variable [tokenList], and [watchedPairs]. *)
Record Registry := mkRegistry {
  baseTokens   : list Token;
  tokenListRef : TokenListRef;
  watchedPairs : list WatchedPair
}.

(** The elements of [tokenList]. *)
Definition tokenList (r : Registry) : list Token :=
  match tokenListRef r with
  | ConfigBaseTokens => baseTokens r
  | OwnArray tokens => tokens
  end.

(** [tokenList.push(t)]: a push on the shared array extends
    [CONFIG.baseTokens]. *)
Definition tokenList_push (r : Registry) (t : Token) : Registry :=
  match tokenListRef r with
  | ConfigBaseTokens => mkRegistry (baseTokens r ++ [t]) ConfigBaseTokens (watchedPairs r)
  | OwnArray tokens => mkRegistry (baseTokens r) (OwnArray (tokens ++ [t])) (watchedPairs r)
  end.

(** [loadTokenList]; [file] holds the tokens of [token-list.json] when
    the file exists, parses, and a contract instance could be made for
    each of its tokens. In every other case, also when an exception is
    caught, [tokenList = CONFIG.baseTokens]. *)
Definition loadTokenList (file : option (list Token)) (r : Registry) : Registry :=
  match file with
  | Some tokens => mkRegistry (baseTokens r) (OwnArray tokens) (watchedPairs r)
  | None => mkRegistry (baseTokens r) ConfigBaseTokens (watchedPairs r)
  end.

Section Registry.

(** [String.prototype.toLowerCase] and [String.prototype.length]. *)
Variable toLowerCase : string -> string.
Variable js_length : string -> nat.
(** [CONFIG.dexes[i].factory.getPair(a, b)]; [None] when the call
    throws. *)
Variable getPair : nat -> string -> string -> option string.
(** [symbol()], [decimals()] and [name()] of the token contract at an
    address; [None] when one of the three calls throws. *)
Variable tokenInfo : string -> option (string * Z * string).
(** [token0()] and [token1()] of the pair [factory.allPairs(i)]; [None]
    when one of the three calls throws. *)
Variable pairTokens : Z -> option (string * string).

(** [ethers.constants.AddressZero] *)
Definition AddressZero : string := "0x0000000000000000000000000000000000000000".

(** [a.toLowerCase() === b.toLowerCase()] *)
Definition same_address (a b : string) : bool :=
  String.eqb (toLowerCase a) (toLowerCase b).

(** The object pushed on [watchedPairs]. *)
Definition fresh_pair (a b : Token) : WatchedPair := mkPair a b true 0 0%float 0.

(** The loop [for (const dex of CONFIG.dexes)] of [initWatchedPairs],
    over the venue indices: a throwing venue is skipped, the first
    venue that knows the pair ends the loop. *)
Fixpoint pairExists (venues : list nat) (a b : string) : bool :=
  match venues with
  | [] => false
  | i :: rest =>
      match getPair i a b with
      | Some pairAddress =>
          if negb (String.eqb pairAddress AddressZero) then true
          else pairExists rest a b
      | None => pairExists rest a b
      end
  end.

(** One pass of the body of [for (const token of tokenList)]. *)
Definition initWatchedPairs_body (venues : list nat) (baseToken : Token)
    (watched : list WatchedPair) (token : Token) : list WatchedPair :=
  if same_address (t_address baseToken) (t_address token) then watched
  else if pairExists venues (t_address baseToken) (t_address token)
       then watched ++ [fresh_pair baseToken token]
       else watched.

(** [initWatchedPairs] pushes on [watchedPairs] only: the two arrays it
    walks stay as they are. *)
Definition initWatchedPairs (venues : list nat) (r : Registry) : Registry :=
  mkRegistry (baseTokens r) (tokenListRef r)
    (fold_left (fun watched baseToken =>
                  fold_left (initWatchedPairs_body venues baseToken) (tokenList r) watched)
               (baseTokens r) (watchedPairs r)).

(** [addNewTokenIfNotExists]; the [name] of the new token, read only by
    the spam filter and [saveTokenList], is not kept in [Token], and the
    file written by [saveTokenList] is left out. The loop over
    [CONFIG.baseTokens] runs after the push. *)
Definition addNewTokenIfNotExists (r : Registry) (tokenAddress : string) : Registry :=
  if existsb (fun t => same_address (t_address t) tokenAddress) (tokenList r) then r
  else
    match tokenInfo tokenAddress with
    | None => r
    | Some (symbol, decimals, name) =>
        if ((30 <? js_length symbol) || (50 <? js_length name))%nat then r
        else
          let newToken := mkToken symbol tokenAddress decimals in
          let pushed := tokenList_push r newToken in
          mkRegistry (baseTokens pushed) (tokenListRef pushed)
            (watchedPairs pushed
             ++ map (fun baseToken => fresh_pair baseToken newToken) (baseTokens pushed))
    end.

(** One pass of the body of the loop of [discoverNewTokens]. *)
Definition discoverNewTokens_body (r : Registry) (i : Z) : Registry :=
  match pairTokens i with
  | Some (token0, token1) =>
      addNewTokenIfNotExists (addNewTokenIfNotExists r token0) token1
  | None => r
  end.

(** [discoverNewTokens]; [allPairsLength] is what
    [factory.allPairsLength()] answers, [None] when reading it throws.
    [toNumber] throws on a number of more than 53 bits, and the
    exception is caught at the end of the function. *)
Definition discoverNewTokens (allPairsLength : option Z) (r : Registry) : Registry :=
  match allPairsLength with
  | None => r
  | Some n =>
      if (2 ^ 53 <=? n)%Z then r
      else
        let startIndex := Z.max 0 (n - 100) in
        let endIndex := n in
        fold_left discoverNewTokens_body
          (map (fun k => (startIndex + Z.of_nat k)%Z)
               (seq 0 (Z.to_nat (endIndex - startIndex))))
          r
  end.

End Registry.

(** *** One cycle of [checkArbitrageOpportunities] *)

(** The two module-level arrays a cycle works on. *)
Record BotState := mkBot {
  bs_watchedPairs     : list WatchedPair;
  bs_executionHistory : list ExecutionRecord
}.

(** What one pass of the loop body meets: whether [isRunning] still
    holds when the pass begins, the clock, what [findBestArbitrageRoute]
    returned, and what [executeArbitrage] is given. *)
Record ScanInput := mkScanInput {
  si_running   : bool;
  si_now       : Z;
  si_found     : option Opportunity;
  si_now_exec  : Z;
  si_now_route : Z;
  si_tx        : TxOutcome
}.

(** The pair objects are shared between [watchedPairs] and the shuffled
    copy: a write to [pair] is a write to the element of
    [watchedPairs]. *)
Fixpoint update_pair (watched : list WatchedPair) (i : nat) (pair : WatchedPair)
  : list WatchedPair :=
  match watched, i with
  | [], _ => []
  | _ :: rest, O => pair :: rest
  | p :: rest, S i' => p :: update_pair rest i' pair
  end.

(** [for (const pair of pairsToCheck)], the pairs given by their
    positions in [watchedPairs]; [k] counts the passes. *)
Fixpoint scanPairs (cfg : Config) (pairsToCheck : list nat) (inputs : nat -> ScanInput)
    (k : nat) (st : BotState) : BotState :=
  match pairsToCheck with
  | [] => st
  | i :: rest =>
      let input := inputs k in
      if negb (si_running input) then st
      else
        match nth_error (bs_watchedPairs st) i with
        | Some p =>
            let r := checkPair cfg (bs_executionHistory st) (si_now input) p
                       (si_found input) (si_now_exec input) (si_now_route input)
                       (si_tx input) in
            scanPairs cfg rest inputs (S k)
              (mkBot (update_pair (bs_watchedPairs st) i (fst r)) (snd r))
        | None => st
        end
  end.

(** [checkArbitrageOpportunities]. [gasPrice] is what
    [provider.getGasPrice()] answers in wei ([None] when it throws, which
    the [catch] logs), [maxGasPriceWei] is
    [parseUnits(CONFIG.maxGasPrice.toString(), 'gwei')], and [shuffled]
    is the order [sort(() => 0.5 - Math.random())] leaves the positions
    in. *)
Definition checkArbitrageOpportunities (cfg : Config) (maxGasPriceWei : Z)
    (isRunning : bool) (gasPrice : option Z) (shuffled : list nat)
    (inputs : nat -> ScanInput) (st : BotState) : BotState :=
  if negb isRunning then st
  else
    match gasPrice with
    | None => st
    | Some g =>
        if (maxGasPriceWei <? g)%Z then st
        else scanPairs cfg (firstn 10 shuffled) inputs 0 st
    end.

(** *** [generateProfitReport] *)

(** One element of [pairPerformance]. *)
Record PairPerformance := mkPerformance {
  pp_pair         : string;
  pp_successCount : Z;
  pp_lastProfit   : float
}.

(** What is logged as the 24-hour report (the CSV file is left out). *)
Record ProfitReport := mkReport {
  totalExecutions : Z;
  totalProfitUSD  : float;
  averageProfitUSD : float;
  topPairs        : list PairPerformance
}.

(** [arr.sort((a, b) => b.successCount - a.successCount)].
    [Array.prototype.sort] is stable, and with this comparator on
    integers its result is the stable descending order, which insertion
    from the right computes: an element goes in front of the first one
    that does not beat it. *)
Fixpoint insert_by_successCount (x : PairPerformance) (sorted : list PairPerformance)
  : list PairPerformance :=
  match sorted with
  | [] => [x]
  | y :: rest =>
      if (pp_successCount x <? pp_successCount y)%Z
      then y :: insert_by_successCount x rest
      else x :: y :: rest
  end.

Definition sort_by_successCount (l : list PairPerformance) : list PairPerformance :=
  fold_right insert_by_successCount [] l.

Definition performance (p : WatchedPair) : PairPerformance :=
  mkPerformance (symbol (tokenA p) ++ "-" ++ symbol (tokenB p))
    (successCount p) (lastProfit p).

Definition generateProfitReport (executionHistory : list ExecutionRecord)
    (watchedPairs_ : list WatchedPair) (now : Z) : ProfitReport :=
  let oneDayAgo := (now - 24 * 60 * 60 * 1000)%Z in
  let recentExecutions := filter (fun e => (oneDayAgo <? timestamp e)%Z) executionHistory in
  let totalProfit := fold_left (fun sum e => sum + profit e) recentExecutions 0 in
  let averageProfit :=
    if (0 <? List.length recentExecutions)%nat
    then totalProfit / ProfitAnalyzer.length_num recentExecutions
    else 0 in
  let pairPerformance :=
    sort_by_successCount
      (map performance (filter (fun p => (0 <? successCount p)%Z) watchedPairs_)) in
  mkReport (len recentExecutions) totalProfit averageProfit (firstn 5 pairPerformance).

End ArbitrageManager.

(* ===================================================================== *)
(** ** The risk table of the specification *)
(* ===================================================================== *)

Module RiskSpec.

Import ProfitAnalyzer.

(** The rolling risk level as the specification words it, over the bare
    error ratios of the stored samples: the mean and the standard
    deviation of the most recent [K] samples, looked up in a table whose
    first matching row wins. The mean and the deviation are those of the
    samples, as rational numbers. *)

Definition K : nat := 10.
Definition required_samples : nat := 5.
Definition critical_bound : Q := 3 # 10.
Definition tolerance_bound : Q := 1 # 10.
Definition volatility_bound : Q := 2 # 10.

Definition most_recent {A} (k : nat) (xs : list A) : list A :=
  rev (firstn k (rev xs)).

(** The value of a binary64 number; [NaN] and the infinities have none. *)
Definition value_of (x : spec_float) : option Q :=
  match x with
  | S754_zero _ => Some 0%Q
  | S754_finite s m e =>
      Some ((if s then -1 else 1) * inject_Z (Z.pos m) * Qpower 2 e)%Q
  | S754_infinity _ | S754_nan => None
  end.

Fixpoint values (xs : list spec_float) : option (list Q) :=
  match xs with
  | [] => Some []
  | x :: rest =>
      match value_of x, values rest with
      | Some q, Some qs => Some (q :: qs)
      | _, _ => None
      end
  end.

Definition total (xs : list Q) : Q := fold_right Qplus 0%Q xs.

Definition mean (xs : list Q) : Q :=
  (total xs / inject_Z (Z.of_nat (List.length xs)))%Q.

Definition variance (xs : list Q) : Q :=
  let mu := mean xs in
  mean (map (fun x => ((x - mu) * (x - mu))%Q) xs).

Definition exceeds (x bound : Q) : bool := negb (Qle_bool x bound).

(** The standard deviation is the root of the variance that is not
    negative: it exceeds a bound that is not negative exactly when the
    variance exceeds the square of the bound. *)
Definition standard_deviation_exceeds (xs : list Q) (bound : Q) : bool :=
  exceeds (variance xs) (bound * bound)%Q.

Definition risk_table (window : list Q) : list (bool * RiskLevel) :=
  [ (exceeds (mean window) critical_bound,  high);
    (exceeds (mean window) tolerance_bound, medium);
    (standard_deviation_exceeds window volatility_bound, medium) ].

Fixpoint first_row (rows : list (bool * RiskLevel)) (otherwise : RiskLevel)
  : RiskLevel :=
  match rows with
  | [] => otherwise
  | (true, l) :: _ => l
  | (false, _) :: rest => first_row rest otherwise
  end.

Definition risk_level (stored : list Q) : RiskLevel :=
  if (List.length stored <? required_samples)%nat then unknown
  else first_row (risk_table (most_recent K stored)) low.

(** The same table on binary64 numbers, in the arithmetic of IEEE 754
    ([SpecFloat]): every bound is the binary64 number nearest to its
    fraction, the sum is taken from the left, starting from zero, and
    every sum, difference, product, quotient and root is rounded to the
    nearest binary64 number. *)

Definition of_count (n : nat) : spec_float :=
  binary_normalize prec emax (Z.of_nat n) 0 false.

Definition nearest (p q : nat) : spec_float := SF64div (of_count p) (of_count q).

Definition rounded_total (xs : list spec_float) : spec_float :=
  fold_left SF64add xs (S754_zero false).

Definition rounded_mean (xs : list spec_float) : spec_float :=
  SF64div (rounded_total xs) (of_count (List.length xs)).

Definition rounded_standard_deviation (xs : list spec_float) : spec_float :=
  let mu := rounded_mean xs in
  SF64sqrt (rounded_mean (map (fun x => SF64mul (SF64sub x mu) (SF64sub x mu)) xs)).

Definition rounded_risk_table (window : list spec_float) : list (bool * RiskLevel) :=
  [ (SFltb (nearest 3 10) (rounded_mean window), high);
    (SFltb (nearest 1 10) (rounded_mean window), medium);
    (SFltb (nearest 2 10) (rounded_standard_deviation window), medium) ].

Definition rounded_risk_level (stored : list spec_float) : RiskLevel :=
  if (List.length stored <? required_samples)%nat then unknown
  else first_row (rounded_risk_table (most_recent K stored)) low.

(** The order [low < medium < high] on computed levels ([unknown] below
    all of them). *)
Definition rank (l : RiskLevel) : nat :=
  match l with unknown => 0 | low => 1 | medium => 2 | high => 3 end.

(** A field that reads [0] or is missing. *)
Definition zero_or_missing (v : option float) : Prop :=
  match v with
  | None => True
  | Some x => (x =? 0)%float = true
  end.

End RiskSpec.

(* ===================================================================== *)
(** * Vocabulary of the properties *)
(* ===================================================================== *)

(** ** Observations of a run *)

(** The events a call added to those of the state it started from. *)
Definition new_events {W} (before after : Solidity.Exec W) : list Solidity.Event :=
  skipn (List.length (Solidity.events before)) (Solidity.events after).

(** The events of a transaction that an observer of the chain sees: those
    it added when it returned, none when it reverted. *)
Definition terminal_events {W A} (s : Solidity.Exec W) (o : Solidity.Outcome W A)
  : list Solidity.Event :=
  match o with
  | Solidity.Done _ s' => new_events s s'
  | Solidity.Reverted _ _ => []
  end.

Definition returned {W A} (o : Solidity.Outcome W A) : bool :=
  match o with
  | Solidity.Done _ _ => true
  | Solidity.Reverted _ _ => false
  end.

(** The trace a call leaves behind, whether it returned or reverted. *)
Definition outcome_trace {W A} (o : Solidity.Outcome W A) : list Solidity.SwapCall :=
  match o with
  | Solidity.Done _ s' => Solidity.trace s'
  | Solidity.Reverted _ tr => tr
  end.

(** The swap calls a run added to the trace it started from. *)
Definition new_hops {W A} (s : Solidity.Exec W) (o : Solidity.Outcome W A)
  : list Solidity.SwapCall :=
  skipn (List.length (Solidity.trace s)) (outcome_trace o).

(** ** Assumptions on venues and the slippage floor *)

(** A venue honours the floor it is handed: a swap that returns has
    raised the contract's balance of the output token by at least
    [amountOutMin]. *)
Definition venues_enforce_floor {W} (env : MultiDexArbitrageBot.Env W) : Prop :=
  forall w r amountIn amountOutMin tokenIn tokenOut to deadline w',
    MultiDexArbitrageBot.swapExactTokensForTokens env w r amountIn amountOutMin
      [tokenIn; tokenOut] to deadline = Some w' ->
    MultiDexArbitrageBot.balanceOf env w tokenOut + amountOutMin
    <= MultiDexArbitrageBot.balanceOf env w' tokenOut.

(** An approval moves no token. *)
Definition approve_keeps_balances {W} (env : MultiDexArbitrageBot.Env W) : Prop :=
  forall w token spender amount w' t,
    MultiDexArbitrageBot.approve env w token spender amount = Some w' ->
    MultiDexArbitrageBot.balanceOf env w' t = MultiDexArbitrageBot.balanceOf env w t.

(** The floor was derived from the quote with the contract's 0.5%
    tolerance, and what was credited is not below it. *)
Definition above_floor (h : Solidity.SwapCall) : Prop :=
  Solidity.sc_minOut h = Solidity.sc_quoted h * (10000 - 50) / 10000
  /\ forall d, Solidity.sc_realized h = Some d -> Solidity.sc_minOut h <= d.

Definition answered (h : Solidity.SwapCall) : Prop :=
  Solidity.sc_realized h <> None.

(** *** Predicates on computations of the execution monad *)

(** A computation that emits no event. *)
Definition silent {W A} (m : Solidity.M W A) : Prop :=
  forall s a s', m s = Solidity.Done a s' -> Solidity.events s' = Solidity.events s.

(** A computation that leaves the whole state alone ([view] functions
    and checks). *)
Definition view {W A} (m : Solidity.M W A) : Prop :=
  forall s, match m s with
            | Solidity.Done _ s' => s' = s
            | Solidity.Reverted _ tr => tr = Solidity.trace s
            end.

(** [extends P t0 t1]: [t1] is [t0] followed by calls that satisfy [P]. *)
Definition extends (P : Solidity.SwapCall -> Prop) (t0 t1 : list Solidity.SwapCall)
  : Prop :=
  exists new, t1 = t0 ++ new /\ Forall P new.

(** Outcome of one hop: on every outcome the recorded call is above the
    floor, and a hop that swapped recorded an answered call. *)
Definition hop_outcome {W} (t0 : list Solidity.SwapCall)
    (o : Solidity.Outcome W MultiDexArbitrageBot.Hop) : Prop :=
  match o with
  | Solidity.Done (MultiDexArbitrageBot.HopSwapped _ _) s' =>
      extends (fun h => above_floor h /\ answered h) t0 (Solidity.trace s')
  | Solidity.Done MultiDexArbitrageBot.HopCaught s' =>
      extends above_floor t0 (Solidity.trace s')
  | Solidity.Reverted _ tr => extends above_floor t0 tr
  end.

(** ** Scenarios on the mock chain *)

(** Venues trading token 2000 one for one and paying 2001 of token 1000
    for whatever they are given. *)
Definition generous_quote (r a b x : Z) : Z := if b =? 1000 then 2001 else x.

Definition generous_env : MultiDexArbitrageBot.Env Mock.World :=
  Mock.mock_env generous_quote generous_quote (fun _ => 1).

Definition small_loan_params : MultiDexArbitrageBot.Params :=
  MultiDexArbitrageBot.mkParams 2000
    (MultiDexArbitrageBot.mkRoute [1000; 2000] [0] 0 999990) 1999.

Definition pool_call : MultiDexArbitrageBot.Msg :=
  MultiDexArbitrageBot.mkMsg 900 0 5 1000000.

(** The callback for a loan of 1999 with premium 1, threshold 100: the
    contract holds 1999 of token 1000 when it is called. *)
Definition small_loan_run : Solidity.Outcome Mock.World bool :=
  MultiDexArbitrageBot.executeOperation Mock.World generous_env (Mock.storage 100)
    pool_call 1000 1999 1 1 small_loan_params
    (Mock.start (Mock.mkWorld [(1000, 1999)] [])).

(** Venues that trade every pair one for one: no route is profitable. *)
Definition flat_quote (r a b x : Z) : Z := x.

Definition flat_env : MultiDexArbitrageBot.Env Mock.World :=
  Mock.mock_env flat_quote flat_quote (fun _ => 1).

Definition owner_call : MultiDexArbitrageBot.Msg :=
  MultiDexArbitrageBot.mkMsg 1 0 5 1000000.

Definition owner_call_with_value : MultiDexArbitrageBot.Msg :=
  MultiDexArbitrageBot.mkMsg 1 1000 5 1000000.

Definition fresh_route : MultiDexArbitrageBot.ArbitrageRoute :=
  MultiDexArbitrageBot.mkRoute [1000; 2000] [0] 0 999990.

(** Routes stamped 400 and 200 seconds before the block of the calls
    above. *)
Definition route_400s_old : MultiDexArbitrageBot.ArbitrageRoute :=
  MultiDexArbitrageBot.mkRoute [1000; 2000] [0] 0 999600.

Definition route_200s_old : MultiDexArbitrageBot.ArbitrageRoute :=
  MultiDexArbitrageBot.mkRoute [1000; 2000] [0] 0 999800.

(** A venue that quotes one for one and pays out [bps] basis points
    less than it quoted. *)
Definition short_deliver (bps : Z) (r a b x : Z) : Z := x - x * bps / 10000.

Definition short_env (bps : Z) : MultiDexArbitrageBot.Env Mock.World :=
  Mock.mock_env flat_quote (short_deliver bps) (fun _ => 0).

(** [executeSwaps] from token 1000 over venue 0 into token 2000 and
    back by the best venue, starting with [amount] of token 1000. *)
Definition round_trip (bps amount : Z) : Solidity.Outcome Mock.World bool :=
  MultiDexArbitrageBot.executeSwaps Mock.World (short_env bps) (Mock.storage 100)
    owner_call 1000 2000 amount fresh_route
    (Mock.start (Mock.mkWorld [(1000, amount)] [])).

(** Venues that pay one unit more than they are given when the output
    is WETH, and trade one for one otherwise. *)
Definition one_more_weth (r a b x : Z) : Z :=
  if b =? Mock.weth_address then x + 1 else x.

Definition native_route : MultiDexArbitrageBot.ArbitrageRoute :=
  MultiDexArbitrageBot.mkRoute [Mock.weth_address; 2000] [0] 0 999990.

(** The owner sends 1000000 wei to [executeArbitrageWithNative]. *)
Definition native_run : Solidity.Outcome Mock.World unit :=
  MultiDexArbitrageBot.executeArbitrageWithNative Mock.World
    (Mock.mock_env one_more_weth one_more_weth (fun _ => 0)) (Mock.storage 100)
    (MultiDexArbitrageBot.mkMsg 1 1000000 5 1000000) 2000 native_route
    (Mock.start (Mock.mkWorld [] [])).

(** Venues whose quotes promise a profit and whose first leg then pays
    0.6% less than quoted. *)
Definition promising_env : MultiDexArbitrageBot.Env Mock.World :=
  Mock.mock_env generous_quote (short_deliver 60) (fun _ => 1).

(** ** Scenarios of the orchestrator and the analyzer *)

Definition WETH_token : ArbitrageManager.Token :=
  ArbitrageManager.mkToken "WETH" "0xC02a" 18.

Definition USDC_token : ArbitrageManager.Token :=
  ArbitrageManager.mkToken "USDC" "0xA0b8" 6.

Definition DAI_token : ArbitrageManager.Token :=
  ArbitrageManager.mkToken "DAI" "0x6B17" 18.

Definition sample_config : ArbitrageManager.Config :=
  ArbitrageManager.mkConfig [true; true] 3 5%float 0.5%float 2 30.

Definition sample_opportunity : ArbitrageManager.Opportunity :=
  ArbitrageManager.mkOpportunity (Some WETH_token) (Some USDC_token)
    1000000000000000000 ["0xC02a"%string; "0xA0b8"%string] [0%nat] 20000000000000000
    2%float 40%float "Buy USDC on UniswapV2" true.

Definition record_at (t : Z) : ArbitrageManager.ExecutionRecord :=
  ArbitrageManager.mkRecord t "0xbeef" 40%float "Buy USDC on UniswapV2".

Definition WETH_USDC_pair : ArbitrageManager.WatchedPair :=
  ArbitrageManager.mkPair WETH_token USDC_token true 0 0%float 0.

(** Every venue quotes one for one. *)
Definition flat_quotes (i : nat) (amount : Z) (from to : string) : option Z :=
  Some amount.

Definition history_around_quarter : ProfitAnalyzer.Analyzer :=
  ProfitAnalyzer.mkAnalyzer
    (map (ProfitAnalyzer.mkSample 0 "WETH-USDC" 1 1) [0; 0.5; 0; 0.5; 0.25]%float) [].

Definition history_around_half : ProfitAnalyzer.Analyzer :=
  ProfitAnalyzer.mkAnalyzer
    (map (ProfitAnalyzer.mkSample 0 "WETH-USDC" 1 1) [0.25; 0.75; 0.25; 0.75; 0.5]%float) [].

(** ** The claims read with exact proportions *)

(** The profit floor read with exact proportions: the profit of every
    success event of [executeOperation] is at least
    [amount * minProfitPercent / 100000] as a rational number. *)
Definition exact_profit_floor : Prop :=
  forall W (env : MultiDexArbitrageBot.Env W) c m asset amount premium initiator params
         s b s' tA tB aIn aOut profit ts,
    MultiDexArbitrageBot.executeOperation W env c m asset amount premium initiator
      params s = Solidity.Done b s' ->
    In (Solidity.ArbitrageExecuted tA tB aIn aOut profit ts) (new_events s s') ->
    amount * MultiDexArbitrageBot.minProfitPercent c <= 100000 * profit.

(** The slippage floor read with exact proportions: on a run that
    returns [true], what a hop credited, times 10000, is at least the
    quote times 9950. *)
Definition exact_slippage_floor : Prop :=
  forall W (env : MultiDexArbitrageBot.Env W) c m tokenA tokenB amountIn route s s' h d,
    venues_enforce_floor env -> approve_keeps_balances env ->
    MultiDexArbitrageBot.executeSwaps W env c m tokenA tokenB amountIn route s
      = Solidity.Done true s' ->
    In h (new_hops s (MultiDexArbitrageBot.executeSwaps W env c m tokenA tokenB amountIn
                        route s)) ->
    Solidity.sc_realized h = Some d ->
    Solidity.sc_quoted h * 9950 <= 10000 * d.

(** ** Vocabulary of the further properties *)

(** The pair policy reads the same in both directions. *)
Definition symmetric_pairs (c : MultiDexArbitrageBot.Storage) : Prop :=
  forall a b, MultiDexArbitrageBot.activePairs c a b = MultiDexArbitrageBot.activePairs c b a.

(** Two registry entries describe the same venue (the active flag
    apart). *)
Definition same_venue (d d' : MultiDexArbitrageBot.DexRouter) : Prop :=
  MultiDexArbitrageBot.router d' = MultiDexArbitrageBot.router d
  /\ MultiDexArbitrageBot.factory d' = MultiDexArbitrageBot.factory d
  /\ MultiDexArbitrageBot.name d' = MultiDexArbitrageBot.name d.

(** A deployment with venues 10 and 11 registered by the owner 1, for
    the scenarios of the administrative functions. *)
Definition registry_setup : list (MultiDexArbitrageBot.Msg * MultiDexArbitrageBot.AdminCall) :=
  [ (owner_call, MultiDexArbitrageBot.AddDex "DexA" 10 20);
    (owner_call, MultiDexArbitrageBot.AddDex "DexB" 11 21);
    (owner_call, MultiDexArbitrageBot.SetActivePair 1000 2000 true) ].

Definition stranger_call : MultiDexArbitrageBot.Msg :=
  MultiDexArbitrageBot.mkMsg 666 0 5 1000000.

Definition stranger_call_with_value : MultiDexArbitrageBot.Msg :=
  MultiDexArbitrageBot.mkMsg 666 1000 5 1000000.

(** *** Venue selection *)

(** The quote an active venue gives for a direct swap: the last entry
    of what its [getAmountsOut] answers; none from a disabled venue or
    from a call that reverts. *)
Definition venue_quote {W} (env : MultiDexArbitrageBot.Env W) (w : W)
    (fromToken toToken : Solidity.address) (amount : Z)
    (d : MultiDexArbitrageBot.DexRouter) : option Z :=
  if MultiDexArbitrageBot.active d then
    match MultiDexArbitrageBot.getAmountsOut env w (MultiDexArbitrageBot.router d) amount
            (MultiDexArbitrageBot.getPathForTokenToToken fromToken toToken) with
    | Some amounts => nth_error amounts (List.length amounts - 1)
    | None => None
    end
  else None.

(** What the scan of [findBestDexForSwap] has established after the
    venues [seen]: [fst best] bounds every quote seen, and once it is
    positive [snd best] is the first venue that quotes it. *)
Definition best_so_far (quote : MultiDexArbitrageBot.DexRouter -> option Z)
    (seen : list MultiDexArbitrageBot.DexRouter) (best : Z * Z) : Prop :=
  0 <= fst best
  /\ (forall j d out, nth_error seen j = Some d -> quote d = Some out -> out <= fst best)
  /\ (0 < fst best ->
      0 <= snd best
      /\ (exists d, nth_error seen (Z.to_nat (snd best)) = Some d
                    /\ quote d = Some (fst best))
      /\ (forall j d out, (j < Z.to_nat (snd best))%nat ->
            nth_error seen j = Some d -> quote d = Some out -> out < fst best)).


(** The debt [simulateArbitrage] counts against a route: the loan with
    the 0.09% fee when the pool is the caller, the bare amount
    otherwise. *)
Definition simulated_debt (c : MultiDexArbitrageBot.Storage) (m : MultiDexArbitrageBot.Msg)
    (amountIn : Z) : Z :=
  if MultiDexArbitrageBot.sender m =? MultiDexArbitrageBot.POOL c
  then amountIn + amountIn * 9 / 10000
  else amountIn.

(** A deployment like [Mock.storage] with 256 venues registered. *)
Definition crowded_storage : MultiDexArbitrageBot.Storage :=
  MultiDexArbitrageBot.with_dexRouters (Mock.storage 100)
    (repeat (MultiDexArbitrageBot.mkDex 10 20 "DexA" true) 256).


(** *** The chain of swap calls *)

(** [chained token amount hops]: the swap calls spend, one after the
    other, exactly what the call before them credited, starting with
    [amount] of [token]; a call the venue refused is the last one. *)
Fixpoint chained (token : Solidity.address) (amount : Z) (hops : list Solidity.SwapCall)
  : Prop :=
  match hops with
  | [] => True
  | h :: rest =>
      Solidity.sc_tokenIn h = token /\ Solidity.sc_amountIn h = amount
      /\ match Solidity.sc_realized h with
         | Some d => chained (Solidity.sc_tokenOut h) d rest
         | None => rest = []
         end
  end.

(** [leads token amount hops token' amount']: a chain of answered calls
    that turns [amount] of [token] into [amount'] of [token']. *)
Fixpoint leads (token : Solidity.address) (amount : Z) (hops : list Solidity.SwapCall)
    (token' : Solidity.address) (amount' : Z) : Prop :=
  match hops with
  | [] => token' = token /\ amount' = amount
  | h :: rest =>
      Solidity.sc_tokenIn h = token /\ Solidity.sc_amountIn h = amount
      /\ exists d, Solidity.sc_realized h = Some d
                   /\ leads (Solidity.sc_tokenOut h) d rest token' amount'
  end.

(** What one swap attempt with [amount] of [token] adds to the record
    [t0]: on a swap, one answered call into the next token; on a caught
    venue failure, one refused call; on a revert, at most one call. *)
Definition hop_chain {W} (t0 : list Solidity.SwapCall) (token : Solidity.address)
    (amount : Z) (o : Solidity.Outcome W MultiDexArbitrageBot.Hop) : Prop :=
  match o with
  | Solidity.Done (MultiDexArbitrageBot.HopSwapped nextToken swapped) s' =>
      exists h, Solidity.trace s' = t0 ++ [h]
                /\ leads token amount [h] nextToken swapped
  | Solidity.Done MultiDexArbitrageBot.HopCaught s' =>
      exists h, Solidity.trace s' = t0 ++ [h] /\ chained token amount [h]
  | Solidity.Reverted _ tr =>
      exists new, tr = t0 ++ new /\ chained token amount new /\ (List.length new <= 1)%nat
  end.

(** The same for the swap back into [toToken]. *)
Definition back_chain {W} (t0 : list Solidity.SwapCall) (token toToken : Solidity.address)
    (amount : Z) (o : Solidity.Outcome W Z) : Prop :=
  match o with
  | Solidity.Done final s' =>
      exists h, Solidity.trace s' = t0 ++ [h] /\ leads token amount [h] toToken final
  | Solidity.Reverted _ tr =>
      exists new, tr = t0 ++ new /\ chained token amount new /\ (List.length new <= 1)%nat
  end.

(** The record of the hop loop over [n] venues from [amount] of
    [token]: a loop that ran to its end recorded [n] answered calls that
    lead to the token and amount it hands on; otherwise at most [n]
    calls. *)
Definition loop_chain {W} (t0 : list Solidity.SwapCall) (token : Solidity.address)
    (amount : Z) (n : nat) (o : Solidity.Outcome W (option (Solidity.address * Z)))
  : Prop :=
  match o with
  | Solidity.Done (Some (token', amount')) s' =>
      exists new, Solidity.trace s' = t0 ++ new
                  /\ leads token amount new token' amount' /\ List.length new = n
  | Solidity.Done None s' =>
      exists new, Solidity.trace s' = t0 ++ new
                  /\ chained token amount new /\ (List.length new <= n)%nat
  | Solidity.Reverted _ tr =>
      exists new, tr = t0 ++ new /\ chained token amount new /\ (List.length new <= n)%nat
  end.

(** The record of [executeSwaps] over [n] hops: a run that returns
    [true] recorded answered calls that lead from [amountIn] of [tokenA]
    back to [tokenA], [n] of them on a loop route and [n + 1] with the
    swap back. *)
Definition swaps_chain {W} (t0 : list Solidity.SwapCall) (tokenA tokenB : Solidity.address)
    (amountIn : Z) (n : nat) (o : Solidity.Outcome W bool) : Prop :=
  match o with
  | Solidity.Done true s' =>
      exists new final,
        Solidity.trace s' = t0 ++ new
        /\ leads tokenA amountIn new tokenA final
        /\ List.length new = (n + if (tokenA =? tokenB)%Z then 0 else 1)%nat
  | Solidity.Done false s' =>
      exists new, Solidity.trace s' = t0 ++ new
                  /\ chained tokenA amountIn new /\ (List.length new <= n + 1)%nat
  | Solidity.Reverted _ tr =>
      exists new, tr = t0 ++ new
                  /\ chained tokenA amountIn new /\ (List.length new <= n + 1)%nat
  end.

(** *** Candidates of the 2-hop enumeration *)

(** What every candidate of the 2-hop loops is: a round trip from
    [tokA] over [tokB] back to [tokA] on two different venues, priced by
    the two quotes the loop body asked for, with a positive profit. *)
Definition two_hop_candidate (cfg : ArbitrageManager.Config)
    (getAmountsOut : nat -> Z -> string -> string -> option Z)
    (tokA tokB : ArbitrageManager.Token) (r : ArbitrageManager.Route) : Prop :=
  ArbitrageManager.r_type r = "2-hop"%string
  /\ ArbitrageManager.r_path r
     = [ArbitrageManager.t_address tokA; ArbitrageManager.t_address tokB;
        ArbitrageManager.t_address tokA]
  /\ nth_error (ArbitrageManager.r_path r) (List.length (ArbitrageManager.r_dexIndices r))
     = Some (ArbitrageManager.t_address tokA)
  /\ ArbitrageManager.r_amountIn r = 10 ^ ArbitrageManager.decimals tokA
  /\ ArbitrageManager.r_profit r
     = ArbitrageManager.r_expectedOut r - ArbitrageManager.r_amountIn r
  /\ 0 < ArbitrageManager.r_profit r
  /\ exists sell buy mid,
       ArbitrageManager.r_dexIndices r = [sell; buy]
       /\ sell <> buy
       /\ ArbitrageManager.quote_at cfg getAmountsOut sell (ArbitrageManager.r_amountIn r)
            (ArbitrageManager.t_address tokA) (ArbitrageManager.t_address tokB) = Some mid
       /\ ArbitrageManager.quote_at cfg getAmountsOut buy mid
            (ArbitrageManager.t_address tokB) (ArbitrageManager.t_address tokA)
          = Some (ArbitrageManager.r_expectedOut r).

(** Venue 0 pays two units for one of token 0xC02a and every other
    trade is one for one: selling on venue 0 and buying back on venue 1
    doubles the stake. *)
Definition spread_quotes (i : nat) (amount : Z) (from to : string) : option Z :=
  Some (if (i =? 0)%nat && String.eqb from "0xC02a" then 2 * amount else amount).

Definition two_hop_config : ArbitrageManager.Config :=
  ArbitrageManager.mkConfig [true; true] 2 5%float 0.5%float 2 30.

(** *** The token registry *)

(** No two listed tokens have the same address up to letter case. *)
Definition distinct_tokens (toLowerCase : string -> string)
    (r : ArbitrageManager.Registry) : Prop :=
  NoDup (map (fun t => toLowerCase (ArbitrageManager.t_address t))
             (ArbitrageManager.tokenList r)).

(** [tokenList] is the array [CONFIG.baseTokens]. *)
Definition shares_the_base_tokens (r : ArbitrageManager.Registry) : bool :=
  match ArbitrageManager.tokenListRef r with
  | ArbitrageManager.ConfigBaseTokens => true
  | ArbitrageManager.OwnArray _ => false
  end.

(** The watched pairs that go with newly listed tokens: for each token,
    in order, one fresh pair per base token; on the shared array the
    new token has become a base token by then, and so have the tokens
    added before it. *)
Fixpoint pairs_of_new_tokens (shared : bool) (bases added : list ArbitrageManager.Token)
  : list ArbitrageManager.WatchedPair :=
  match added with
  | [] => []
  | t :: rest =>
      let bases' := if shared then bases ++ [t] else bases in
      map (fun b => ArbitrageManager.fresh_pair b t) bases'
      ++ pairs_of_new_tokens shared bases' rest
  end.

(** [r'] is [r] with the tokens [added] appended to the token list,
    each satisfying [Q], and with their pairs appended to the watched
    pairs; the base tokens are those of [r], followed by [added] when the
    token list is the array of the base tokens. *)
Definition registry_grows (Q : ArbitrageManager.Token -> Prop)
    (r r' : ArbitrageManager.Registry) : Prop :=
  exists added,
    ArbitrageManager.tokenList r' = ArbitrageManager.tokenList r ++ added
    /\ shares_the_base_tokens r' = shares_the_base_tokens r
    /\ ArbitrageManager.baseTokens r'
       = (if shares_the_base_tokens r then ArbitrageManager.baseTokens r ++ added
          else ArbitrageManager.baseTokens r)
    /\ ArbitrageManager.watchedPairs r'
       = ArbitrageManager.watchedPairs r
         ++ pairs_of_new_tokens (shares_the_base_tokens r) (ArbitrageManager.baseTokens r)
              added
    /\ Forall Q added.

(** A token that passed the spam filter of [addNewTokenIfNotExists]:
    its contract answered, with a symbol of at most 30 and a name of at
    most 50 characters. *)
Definition passed_the_filter (js_length : string -> nat)
    (tokenInfo : string -> option (string * Z * string))
    (t : ArbitrageManager.Token) : Prop :=
  exists name,
    tokenInfo (ArbitrageManager.t_address t)
    = Some (ArbitrageManager.symbol t, ArbitrageManager.decimals t, name)
    /\ (js_length (ArbitrageManager.symbol t) <= 30)%nat
    /\ (js_length name <= 50)%nat.

(** Every base token is in the token list, up to letter case. *)
Definition base_tokens_listed (toLowerCase : string -> string)
    (r : ArbitrageManager.Registry) : Prop :=
  forall b, In b (ArbitrageManager.baseTokens r) ->
    exists t, In t (ArbitrageManager.tokenList r)
              /\ ArbitrageManager.same_address toLowerCase
                   (ArbitrageManager.t_address b) (ArbitrageManager.t_address t) = true.

(** No watched pair pairs a token with itself. *)
Definition no_self_pairs (toLowerCase : string -> string)
    (watched : list ArbitrageManager.WatchedPair) : Prop :=
  Forall (fun p =>
            ArbitrageManager.same_address toLowerCase
              (ArbitrageManager.t_address (ArbitrageManager.tokenA p))
              (ArbitrageManager.t_address (ArbitrageManager.tokenB p)) = false)
         watched.

Definition registry_sound (toLowerCase : string -> string)
    (r : ArbitrageManager.Registry) : Prop :=
  base_tokens_listed toLowerCase r
  /\ no_self_pairs toLowerCase (ArbitrageManager.watchedPairs r).

(** Lower case on the letters A to Z, for the scenarios. *)
Definition lower_ascii (ch : Ascii.ascii) : Ascii.ascii :=
  let n := Ascii.nat_of_ascii ch in
  if ((65 <=? n) && (n <=? 90))%nat then Ascii.ascii_of_nat (n + 32) else ch.

Fixpoint lower (s : string) : string :=
  match s with
  | EmptyString => EmptyString
  | String ch rest => String (lower_ascii ch) (lower rest)
  end.

(** The two base tokens WETH and USDC; the module as it is loaded
    ([let tokenList = []], [let watchedPairs = []]); the registry after
    [loadTokenList] when there is no [token-list.json], and after it has
    read these two tokens from the file; one pair on the factory, whose
    two tokens are USDC in capitals and an unlisted token with a short
    symbol. *)
Definition two_base_tokens : list ArbitrageManager.Token := [WETH_token; USDC_token].

Definition module_loaded : ArbitrageManager.Registry :=
  ArbitrageManager.mkRegistry two_base_tokens (ArbitrageManager.OwnArray []) [].

Definition startup_registry : ArbitrageManager.Registry :=
  ArbitrageManager.loadTokenList None module_loaded.

Definition registry_from_file : ArbitrageManager.Registry :=
  ArbitrageManager.loadTokenList (Some two_base_tokens) module_loaded.

Definition sample_tokenInfo (a : string) : option (string * Z * string) :=
  if String.eqb a "0x6B17" then Some ("DAI", 18, "Dai Stablecoin")%string else None.

Definition sample_pairTokens (i : Z) : option (string * string) :=
  if i =? 0 then Some ("0xA0B8", "0x6B17")%string else None.

Definition sample_getPair (i : nat) (a b : string) : option string :=
  if (i =? 0)%nat then Some "0x00000000000000000000000000000000000000aa"%string else None.

(** *** The risk level on exact numbers *)

(** The error ratios of the stored samples, as binary64 numbers. *)
Definition error_ratios (a : ProfitAnalyzer.Analyzer) : list spec_float :=
  map (fun t => Prim2SF (ProfitAnalyzer.errorRatio t)) (ProfitAnalyzer.historicalData a).

(** The risk level is the level of the table on the mean and the
    standard deviation of the samples. *)
Definition exact_risk_table : Prop :=
  forall (a : ProfitAnalyzer.Analyzer) (qs : list Q),
    RiskSpec.values (error_ratios a) = Some qs ->
    ProfitAnalyzer.level (ProfitAnalyzer.assessRisk a) = RiskSpec.risk_level qs.

(** Between two histories of the same size with the same variance, a
    mean that is not smaller gives a level that is not lower. *)
Definition exact_monotonicity : Prop :=
  forall (a1 a2 : ProfitAnalyzer.Analyzer) (q1 q2 : list Q),
    List.length (ProfitAnalyzer.historicalData a1)
      = List.length (ProfitAnalyzer.historicalData a2) ->
    (5 <= List.length (ProfitAnalyzer.historicalData a1))%nat ->
    RiskSpec.values (error_ratios a1) = Some q1 ->
    RiskSpec.values (error_ratios a2) = Some q2 ->
    (RiskSpec.variance (RiskSpec.most_recent RiskSpec.K q1)
     == RiskSpec.variance (RiskSpec.most_recent RiskSpec.K q2))%Q ->
    (RiskSpec.mean (RiskSpec.most_recent RiskSpec.K q1)
     <= RiskSpec.mean (RiskSpec.most_recent RiskSpec.K q2))%Q ->
    (RiskSpec.rank (ProfitAnalyzer.level (ProfitAnalyzer.assessRisk a1))
     <= RiskSpec.rank (ProfitAnalyzer.level (ProfitAnalyzer.assessRisk a2)))%nat.

(** A history with the given error ratios, oldest first. *)
Definition history_of (ratios : list float) : ProfitAnalyzer.Analyzer :=
  ProfitAnalyzer.mkAnalyzer (map (ProfitAnalyzer.mkSample 0 "WETH-USDC" 1 1) ratios) [].

(** Ten samples of the binary64 number next above 0.3. *)
Definition just_above_critical : ProfitAnalyzer.Analyzer :=
  history_of (repeat 0.30000000000000004%float 10).

(** The same five error ratios in two orders. *)
Definition shuffled_history : ProfitAnalyzer.Analyzer :=
  history_of [0.1; 0.5; 0.2; 0.4; 0.3]%float.

Definition sorted_history : ProfitAnalyzer.Analyzer :=
  history_of [0.1; 0.2; 0.3; 0.4; 0.5]%float.

(** *** Scenarios of the analyzer's history *)

(** A number that the statistics file repeats as it is: finite, and not
    the negative zero. *)
Definition plain_number (x : float) : bool :=
  is_finite x && negb (is_zero x && get_sign x).

Definition plain_sample (t : ProfitAnalyzer.ProfitSample) : bool :=
  plain_number (ProfitAnalyzer.estimated t) && plain_number (ProfitAnalyzer.actual t)
  && plain_number (ProfitAnalyzer.errorRatio t).

(** A sample with every figure as it is. *)
Definition verbatim (t : ProfitAnalyzer.ProfitSample) : ProfitAnalyzer.StoredSample :=
  ProfitAnalyzer.mkStored (ProfitAnalyzer.timestamp t) (ProfitAnalyzer.pair t)
    (Some (ProfitAnalyzer.estimated t)) (Some (ProfitAnalyzer.actual t))
    (Some (ProfitAnalyzer.errorRatio t)).

(** A trade whose estimate and outcome are both infinite: the error
    ratio cannot be measured. *)
Definition unmeasurable_trade : ProfitAnalyzer.TradeData :=
  ProfitAnalyzer.mkTrade (Some infinity) (Some infinity) "WETH-USDC" 1000.

Definition fair_trade : ProfitAnalyzer.TradeData :=
  ProfitAnalyzer.mkTrade (Some 100%float) (Some 95%float) "WETH-USDC" 1000.

(** A history of 120 samples, as [loadHistoricalData] may read one from
    an old statistics file. *)
Definition long_history : ProfitAnalyzer.Analyzer :=
  ProfitAnalyzer.mkAnalyzer
    (repeat (ProfitAnalyzer.mkSample 0 "WETH-USDC" 1 1 0) 120) [].

Definition cautious_config : ProfitAnalyzer.Config :=
  ProfitAnalyzer.mkConfig 0.5%float false.

(** *** The native run *)

(** Venue [r] refuses every [swapExactTokensForETH] on a path of two
    equal tokens, as a Uniswap V2 router does (its library rejects
    identical addresses). *)
Definition refuses_equal_tokens {W} (env : MultiDexArbitrageBot.Env W)
    (r : Solidity.address) : Prop :=
  forall w x minOut a to deadline,
    MultiDexArbitrageBot.swapExactTokensForETH env w r x minOut [a; a] to deadline = None.

(** The environment [e] with routers that refuse such a path. *)
Definition refusing_equal_tokens {W} (e : MultiDexArbitrageBot.Env W)
  : MultiDexArbitrageBot.Env W := {|
  MultiDexArbitrageBot.balanceOf := MultiDexArbitrageBot.balanceOf e;
  MultiDexArbitrageBot.approve := MultiDexArbitrageBot.approve e;
  MultiDexArbitrageBot.transfer := MultiDexArbitrageBot.transfer e;
  MultiDexArbitrageBot.getAmountsOut := MultiDexArbitrageBot.getAmountsOut e;
  MultiDexArbitrageBot.swapExactTokensForTokens :=
    MultiDexArbitrageBot.swapExactTokensForTokens e;
  MultiDexArbitrageBot.swapExactTokensForETH := fun w r x minOut path to deadline =>
    match path with
    | [a; b] =>
        if a =? b then None
        else MultiDexArbitrageBot.swapExactTokensForETH e w r x minOut path to deadline
    | _ => MultiDexArbitrageBot.swapExactTokensForETH e w r x minOut path to deadline
    end;
  MultiDexArbitrageBot.WETH := MultiDexArbitrageBot.WETH e;
  MultiDexArbitrageBot.weth_deposit := MultiDexArbitrageBot.weth_deposit e;
  MultiDexArbitrageBot.weth_withdraw := MultiDexArbitrageBot.weth_withdraw e;
  MultiDexArbitrageBot.send_value := MultiDexArbitrageBot.send_value e;
  MultiDexArbitrageBot.pool_lend := MultiDexArbitrageBot.pool_lend e;
  MultiDexArbitrageBot.pool_collect := MultiDexArbitrageBot.pool_collect e
|}.

(** Such routers that quote one for one and pay out [bps] basis points
    less than quoted. *)
Definition strict_env (bps : Z) : MultiDexArbitrageBot.Env Mock.World :=
  refusing_equal_tokens (short_env bps).

(** The owner sends 1000000 wei. *)
Definition native_call : MultiDexArbitrageBot.Msg :=
  MultiDexArbitrageBot.mkMsg 1 1000000 5 1000000.

(** [executeArbitrageWithNative] on routers whose first leg pays 0.6%
    less than quoted, and the state it ends in. *)
Definition refund_run : Solidity.Outcome Mock.World unit :=
  MultiDexArbitrageBot.executeArbitrageWithNative Mock.World (strict_env 60)
    (Mock.storage 100) native_call 2000 native_route (Mock.start (Mock.mkWorld [] [])).

Definition refund_final : Solidity.Exec Mock.World :=
  match refund_run with
  | Solidity.Done _ s' => s'
  | Solidity.Reverted _ _ => Mock.start (Mock.mkWorld [] [])
  end.

(** *** The callback of a loan *)

(** The state [small_loan_run] ends in. *)
Definition small_loan_final : Solidity.Exec Mock.World :=
  match small_loan_run with
  | Solidity.Done _ s' => s'
  | Solidity.Reverted _ _ => Mock.start (Mock.mkWorld [] [])
  end.

(** *** What a simulation has priced *)

(** [priced_hops env w c path indices i token amount token' amount']:
    hop by hop, starting at position [i] of the path with [amount] of
    [token], the venue named by the route is registered and active,
    quotes the hop into the next token of the path on the world [w], and
    the quote, which is not zero, is the amount of the next hop; the
    hops end with [amount'] of [token']. *)
Fixpoint priced_hops {W} (env : MultiDexArbitrageBot.Env W) (w : W)
    (c : MultiDexArbitrageBot.Storage) (path : list Solidity.address) (indices : list Z)
    (i : nat) (token : Solidity.address) (amount : Z)
    (token' : Solidity.address) (amount' : Z) : Prop :=
  match indices with
  | [] => token' = token /\ amount' = amount
  | dexIndex :: rest =>
      exists dex nextToken amounts out,
        dexIndex < MultiDexArbitrageBot.dex_count c
        /\ nth_error (MultiDexArbitrageBot.dexRouters c) (Z.to_nat dexIndex) = Some dex
        /\ MultiDexArbitrageBot.active dex = true
        /\ nth_error path (i + 1) = Some nextToken
        /\ MultiDexArbitrageBot.getAmountsOut env w (MultiDexArbitrageBot.router dex) amount
             [token; nextToken] = Some amounts
        /\ nth_error amounts 1 = Some out
        /\ out <> 0
        /\ priced_hops env w c path rest (S i) nextToken out token' amount'
  end.

(** A message from a stranger to the flash-loan callback. *)
Definition stranger_callback : Solidity.Outcome Mock.World bool :=
  MultiDexArbitrageBot.executeOperation Mock.World generous_env (Mock.storage 100)
    stranger_call 1000 1999 1 1 small_loan_params
    (Mock.start (Mock.mkWorld [(1000, 1999)] [])).

(** *** A scan cycle and the profit report *)

(** The executions counted on the watched pairs. *)
Definition total_successes (watched : list ArbitrageManager.WatchedPair) : Z :=
  fold_right (fun p acc => ArbitrageManager.successCount p + acc) 0 watched.

(** What a scan over the pairs at the positions [selected] may change:
    no pair is added or dropped, pairs outside the selection are as they
    were, the history has grown by at most [limit] records, and the
    executions counted on the pairs have grown by the number of records
    appended. *)
Definition scan_changes (selected : list nat) (limit : nat)
    (st st' : ArbitrageManager.BotState) : Prop :=
  List.length (ArbitrageManager.bs_watchedPairs st')
  = List.length (ArbitrageManager.bs_watchedPairs st)
  /\ (forall j, ~ In j selected ->
        nth_error (ArbitrageManager.bs_watchedPairs st') j
        = nth_error (ArbitrageManager.bs_watchedPairs st) j)
  /\ exists new,
       ArbitrageManager.bs_executionHistory st'
       = ArbitrageManager.bs_executionHistory st ++ new
       /\ (List.length new <= limit)%nat
       /\ total_successes (ArbitrageManager.bs_watchedPairs st')
          = total_successes (ArbitrageManager.bs_watchedPairs st) + ArbitrageManager.len new.

(** The order of the report: no later entry has more successes. *)
Definition not_beaten_by (p q : ArbitrageManager.PairPerformance) : Prop :=
  ArbitrageManager.pp_successCount q <= ArbitrageManager.pp_successCount p.

(** *** Routes stamped by a clock ahead of the chain, and disabled venues *)

(** The route of a submission the orchestrator stamped at clock reading
    1000002000 ms, two seconds after the block of [owner_call]. *)
Definition route_from_the_future : MultiDexArbitrageBot.ArbitrageRoute :=
  MultiDexArbitrageBot.mkRoute [1000; 2000] [0] 0 1000002.

(** [Mock.storage] after the owner has disabled venue 0. *)
Definition storage_without_venue_0 : MultiDexArbitrageBot.Storage :=
  MultiDexArbitrageBot.with_dexRouters (Mock.storage 100)
    (MultiDexArbitrageBot.assign (MultiDexArbitrageBot.dexRouters (Mock.storage 100)) 0
       (MultiDexArbitrageBot.mkDex 10 20 "DexA" false)).

(** Two watched pairs, and a cycle whose every pass finds the sample
    opportunity and has its transaction mined with status 1. *)
Definition two_pair_state : ArbitrageManager.BotState :=
  ArbitrageManager.mkBot
    [WETH_USDC_pair; ArbitrageManager.mkPair WETH_token DAI_token true 0 0%float 0] [].

Definition lucky_inputs (k : nat) : ArbitrageManager.ScanInput :=
  ArbitrageManager.mkScanInput true 1000000000 (Some sample_opportunity)
    1000000100 1000000100 (ArbitrageManager.Receipt "0xfeed" 1 1000000200).

(* ===================================================================== *)
(** * Properties *)
(* ===================================================================== *)

(** ** Risk and calibration module *)

Section AnalyzerFacts.

Import ProfitAnalyzer.
Local Open Scope float_scope.

Lemma slice_last_most_recent {A} (k : nat) (xs : list A) :
  RiskSpec.most_recent k xs = slice_last k xs.
Proof.
  unfold RiskSpec.most_recent, slice_last.
  rewrite firstn_rev, rev_involutive. reflexivity.
Qed.

Lemma slice_last_map {A B} (f : A -> B) (k : nat) (l : list A) :
  slice_last k (map f l) = map f (slice_last k l).
Proof.
  unfold slice_last. rewrite length_map, skipn_map. reflexivity.
Qed.

Lemma slice_last_length {A} (n : nat) (l : list A) :
  List.length (slice_last n l) = Nat.min (List.length l) n.
Proof. unfold slice_last. rewrite length_skipn. lia. Qed.

(** The machine operations against the arithmetic of IEEE 754. *)

Lemma Prim2SF_reduce_sum {A} (f : A -> float) (l : list A) (start : float) :
  Prim2SF (fold_left (fun sum x => sum + f x) l start)
  = fold_left SF64add (map (fun x => Prim2SF (f x)) l) (Prim2SF start).
Proof.
  revert start. induction l as [|x l IH]; intros start; cbn [fold_left map].
  - reflexivity.
  - rewrite IH, add_spec. reflexivity.
Qed.

Lemma Prim2SF_length_num {A} (l : list A) :
  (List.length l <= 10)%nat ->
  Prim2SF (length_num l) = RiskSpec.of_count (List.length l).
Proof.
  intros Hshort. unfold length_num, RiskSpec.of_count.
  rewrite of_uint63_spec, Uint63.of_Z_spec.
  assert (Hwide : (10 < Uint63Axioms.wB)%Z) by reflexivity.
  rewrite Z.mod_small by lia. reflexivity.
Qed.

Lemma Prim2SF_avgError_of (l : list ProfitSample) :
  (List.length l <= 10)%nat ->
  Prim2SF (avgError_of l)
  = RiskSpec.rounded_mean (map (fun t => Prim2SF (errorRatio t)) l).
Proof.
  intros Hshort. unfold avgError_of, RiskSpec.rounded_mean, RiskSpec.rounded_total.
  rewrite div_spec, Prim2SF_reduce_sum, (Prim2SF_length_num l Hshort), length_map.
  reflexivity.
Qed.

Lemma Prim2SF_stdDev (l : list ProfitSample) :
  (List.length l <= 10)%nat ->
  Prim2SF (PrimFloat.sqrt (variance_of l))
  = RiskSpec.rounded_standard_deviation (map (fun t => Prim2SF (errorRatio t)) l).
Proof.
  intros Hshort.
  unfold variance_of, RiskSpec.rounded_standard_deviation, RiskSpec.rounded_mean at 1,
    RiskSpec.rounded_total.
  cbv zeta. rewrite <- (Prim2SF_avgError_of l Hshort).
  rewrite sqrt_spec, div_spec, (Prim2SF_length_num l Hshort), !length_map.
  rewrite (Prim2SF_reduce_sum
             (fun t => (errorRatio t - avgError_of l) * (errorRatio t - avgError_of l))).
  rewrite map_map. do 3 f_equal.
  apply map_ext. intros t. rewrite mul_spec, sub_spec. reflexivity.
Qed.

(** Comparison of binary64 values: [x < y <= z] gives [x < z]. *)
Lemma SFltb_SFleb_trans (x y z : spec_float) :
  SFltb x y = true -> SFleb y z = true -> SFltb x z = true.
Proof.
  unfold SFltb, SFleb, SFcompare.
  destruct x as [sx | sx | | sx mx ex], y as [sy | sy | | sy my ey],
           z as [sz | sz | | sz mz ez];
    try discriminate; try reflexivity;
    repeat match goal with b : bool |- _ => destruct b end;
    try discriminate; try reflexivity; intros Hxy Hyz.
  all: change (Pos.compare_cont Eq ?a ?b) with (Pos.compare a b) in *.
  all: repeat match goal with
       | H : context [Z.compare ?a ?b] |- _ =>
           destruct (Z.compare_spec a b); try discriminate
       | |- context [Z.compare ?a ?b] => destruct (Z.compare_spec a b)
       | H : context [Pos.compare ?a ?b] |- _ =>
           destruct (Pos.compare_spec a b); simpl in H; try discriminate
       | |- context [Pos.compare ?a ?b] => destruct (Pos.compare_spec a b); simpl
       end; subst; try reflexivity; try discriminate; try lia.
Qed.

Lemma ltb_leb_trans (x y z : float) :
  (x <? y) = true -> (y <=? z) = true -> (x <? z) = true.
Proof. rewrite !ltb_spec, leb_spec. apply SFltb_SFleb_trans. Qed.

End AnalyzerFacts.

(** C6. [assessRisk] computes the level of the specification's table on
    binary64 numbers: [unknown] below five stored samples; otherwise,
    over the last ten samples, [high] when the rounded mean error ratio
    exceeds the binary64 number nearest to 0.3, else [medium] when it
    exceeds the one nearest to 0.1, else [medium] when the rounded
    standard deviation exceeds the one nearest to 0.2, else [low]. The
    rounded mean is the sum taken from the left, rounded at every step,
    divided by the count; the rounded deviation is the rounded root of
    the rounded mean of the rounded squares of the rounded differences
    from that mean. *)
Theorem assessRisk_refines_binary64_risk_table (a : ProfitAnalyzer.Analyzer) :
  ProfitAnalyzer.level (ProfitAnalyzer.assessRisk a)
  = RiskSpec.rounded_risk_level (error_ratios a).
Proof.
  unfold ProfitAnalyzer.assessRisk, RiskSpec.rounded_risk_level, RiskSpec.required_samples,
    RiskSpec.K, error_ratios.
  rewrite length_map.
  destruct (List.length (ProfitAnalyzer.historicalData a) <? 5)%nat; [reflexivity|].
  rewrite slice_last_most_recent, slice_last_map.
  assert (Hshort : (List.length (ProfitAnalyzer.slice_last 10
                                   (ProfitAnalyzer.historicalData a)) <= 10)%nat)
    by (rewrite slice_last_length; lia).
  unfold RiskSpec.rounded_risk_table, RiskSpec.first_row.
  rewrite <- (Prim2SF_avgError_of _ Hshort), <- (Prim2SF_stdDev _ Hshort).
  cbv zeta.
  change (RiskSpec.nearest 3 10) with (Prim2SF ProfitAnalyzer.criticalErrorThreshold).
  change (RiskSpec.nearest 1 10) with (Prim2SF ProfitAnalyzer.errorThreshold).
  change (RiskSpec.nearest 2 10) with (Prim2SF 0.2%float).
  rewrite <- !ltb_spec.
  destruct (PrimFloat.ltb ProfitAnalyzer.criticalErrorThreshold _); [reflexivity|].
  destruct (PrimFloat.ltb ProfitAnalyzer.errorThreshold _); [reflexivity|].
  destruct (PrimFloat.ltb 0.2 _); reflexivity.
Qed.

(** The levels of three histories: ten samples of the binary64 number
    next above 0.3 are rated [medium], nine of them [high]; the same five
    samples are rated [high] in one order and [medium] in another. *)
Example assessRisk_depends_on_rounding :
  ProfitAnalyzer.level (ProfitAnalyzer.assessRisk just_above_critical) = ProfitAnalyzer.medium
  /\ ProfitAnalyzer.level
       (ProfitAnalyzer.assessRisk (history_of (repeat 0.30000000000000004%float 9)))
     = ProfitAnalyzer.high
  /\ ProfitAnalyzer.level (ProfitAnalyzer.assessRisk shuffled_history) = ProfitAnalyzer.high
  /\ ProfitAnalyzer.level (ProfitAnalyzer.assessRisk sorted_history) = ProfitAnalyzer.medium.
Proof. repeat split; vm_compute; reflexivity. Qed.

(** C6, as the specification words it, fails: every one of the ten
    samples exceeds 0.3, so does their mean, and [assessRisk] answers
    [medium] where the table says [high]. *)
Lemma exact_risk_table_fails : ~ exact_risk_table.
Proof.
  intros Hclaim.
  pose proof (Hclaim just_above_critical _ eq_refl) as H.
  vm_compute in H. discriminate H.
Qed.

(** C7. Two histories of the same size, at least five, whose recent
    windows have the same variance of error ratios: when the mean error
    ratio of the second is at least that of the first, its risk level is
    at least that of the first in the order low < medium < high. *)
Theorem assessRisk_monotone_in_mean (a1 a2 : ProfitAnalyzer.Analyzer) :
  List.length (ProfitAnalyzer.historicalData a1)
    = List.length (ProfitAnalyzer.historicalData a2) ->
  (5 <= List.length (ProfitAnalyzer.historicalData a1))%nat ->
  ProfitAnalyzer.variance_of
      (ProfitAnalyzer.slice_last 10 (ProfitAnalyzer.historicalData a1))
    = ProfitAnalyzer.variance_of
        (ProfitAnalyzer.slice_last 10 (ProfitAnalyzer.historicalData a2)) ->
  PrimFloat.leb
      (ProfitAnalyzer.avgError_of
         (ProfitAnalyzer.slice_last 10 (ProfitAnalyzer.historicalData a1)))
      (ProfitAnalyzer.avgError_of
         (ProfitAnalyzer.slice_last 10 (ProfitAnalyzer.historicalData a2))) = true ->
  (RiskSpec.rank (ProfitAnalyzer.level (ProfitAnalyzer.assessRisk a1))
   <= RiskSpec.rank (ProfitAnalyzer.level (ProfitAnalyzer.assessRisk a2)))%nat.
Proof.
  intros Hlen Hfive Hvar Hmean.
  unfold ProfitAnalyzer.assessRisk.
  rewrite <- Hlen.
  replace (List.length (ProfitAnalyzer.historicalData a1) <? 5)%nat with false
    by (symmetry; apply Nat.ltb_ge; exact Hfive).
  cbv zeta. rewrite <- Hvar.
  set (m1 := ProfitAnalyzer.avgError_of
               (ProfitAnalyzer.slice_last 10 (ProfitAnalyzer.historicalData a1))) in *.
  set (m2 := ProfitAnalyzer.avgError_of
               (ProfitAnalyzer.slice_last 10 (ProfitAnalyzer.historicalData a2))) in *.
  set (sd := PrimFloat.sqrt _).
  destruct (PrimFloat.ltb ProfitAnalyzer.criticalErrorThreshold m1) eqn:Hc1.
  - rewrite (ltb_leb_trans _ _ _ Hc1 Hmean). simpl. lia.
  - destruct (PrimFloat.ltb ProfitAnalyzer.errorThreshold m1) eqn:He1.
    + rewrite (ltb_leb_trans _ _ _ He1 Hmean).
      destruct (PrimFloat.ltb ProfitAnalyzer.criticalErrorThreshold m2); simpl; lia.
    + destruct (PrimFloat.ltb ProfitAnalyzer.criticalErrorThreshold m2);
        [destruct (PrimFloat.ltb 0.2 sd); simpl; lia|].
      destruct (PrimFloat.ltb ProfitAnalyzer.errorThreshold m2);
        [destruct (PrimFloat.ltb 0.2 sd); simpl; lia|].
      destruct (PrimFloat.ltb 0.2 sd); simpl; lia.
Qed.

Lemma assessRisk_monotone_in_mean_witness :
  (RiskSpec.rank (ProfitAnalyzer.level (ProfitAnalyzer.assessRisk history_around_quarter))
   <= RiskSpec.rank (ProfitAnalyzer.level (ProfitAnalyzer.assessRisk history_around_half)))%nat.
Proof.
  apply (assessRisk_monotone_in_mean history_around_quarter history_around_half).
  - reflexivity.
  - simpl. lia.
  - vm_compute. reflexivity.
  - vm_compute. reflexivity.
Defined.

(** C7, as the specification words it, fails: the same five samples in
    two orders have the same mean and the same variance, and [assessRisk]
    rates the first order [high] and the second [medium]. *)
Lemma exact_monotonicity_fails : ~ exact_monotonicity.
Proof.
  intros Hclaim.
  pose proof (Hclaim shuffled_history sorted_history _ _ eq_refl (le_n 5) eq_refl eq_refl)
    as H.
  assert (Hrank : (3 <= 2)%nat); [|lia].
  apply H.
  - apply Qeq_bool_iff. vm_compute. reflexivity.
  - apply Qle_bool_iff. vm_compute. reflexivity.
Qed.

Example assessRisk_levels_of_the_two_histories :
  ProfitAnalyzer.level (ProfitAnalyzer.assessRisk history_around_quarter)
    = ProfitAnalyzer.medium
  /\ ProfitAnalyzer.level (ProfitAnalyzer.assessRisk history_around_half)
    = ProfitAnalyzer.high.
Proof. split; vm_compute; reflexivity. Qed.

(** The volatility row is reached only when both mean rows fail. *)
Example assessRisk_volatile_history :
  ProfitAnalyzer.level
    (ProfitAnalyzer.assessRisk
       (ProfitAnalyzer.mkAnalyzer
          (map (ProfitAnalyzer.mkSample 0 "WETH-USDC" 1 1)
               [0; 0; 0; 0; 0; 0; 0; 0; 0; 1]%float) []))
  = ProfitAnalyzer.medium.
Proof. vm_compute. reflexivity. Qed.

(** C10. A trade whose [estimated] or [actual] field is zero or missing
    gets the answer [{accurate: false, error: 'Missing data'}]; no sample
    is pushed and neither the history nor the statistics file changes. *)
Theorem analyzeEstimationAccuracy_missing_data
    (write_ok : bool) (a : ProfitAnalyzer.Analyzer) (tradeData : ProfitAnalyzer.TradeData) :
  RiskSpec.zero_or_missing (ProfitAnalyzer.td_estimated tradeData)
  \/ RiskSpec.zero_or_missing (ProfitAnalyzer.td_actual tradeData) ->
  ProfitAnalyzer.analyzeEstimationAccuracy write_ok a tradeData
  = (ProfitAnalyzer.AccuracyError false "Missing data", a).
Proof.
  intros H. unfold ProfitAnalyzer.analyzeEstimationAccuracy.
  assert (Hfalsy : forall v, RiskSpec.zero_or_missing v -> ProfitAnalyzer.truthy v = false).
  { intros [x|] Hv; simpl in *; [rewrite Hv|]; reflexivity. }
  destruct H as [H | H]; apply Hfalsy in H; rewrite H; simpl.
  - reflexivity.
  - rewrite orb_true_r. reflexivity.
Qed.

Lemma analyzeEstimationAccuracy_missing_data_witness :
  ProfitAnalyzer.analyzeEstimationAccuracy true history_around_half
    (ProfitAnalyzer.mkTrade (Some 10%float) (Some 0%float) "WETH-USDC" 1700000000000)
  = (ProfitAnalyzer.AccuracyError false "Missing data", history_around_half).
Proof.
  apply analyzeEstimationAccuracy_missing_data.
  right. simpl. reflexivity.
Defined.

(** A trade with both fields non-zero is recorded. *)
Example analyzeEstimationAccuracy_records_sample :
  List.length
    (ProfitAnalyzer.historicalData
       (snd (ProfitAnalyzer.analyzeEstimationAccuracy true history_around_half
               (ProfitAnalyzer.mkTrade (Some 10%float) (Some 9%float) "WETH-USDC" 1))))
  = 6%nat.
Proof. vm_compute. reflexivity. Qed.

(** ** The execution monad *)

Section MonadFacts.

Import Solidity.
Local Open Scope sol_scope.
Local Open Scope Z_scope.

Context {W : Type}.

Lemma bind_Done {A B} (m : M W A) (f : A -> M W B) s b s' :
  bind m f s = Done b s' ->
  exists a s1, m s = Done a s1 /\ f a s1 = Done b s'.
Proof.
  unfold bind. destruct (m s) as [a s1 | r tr]; [|discriminate].
  intros H. exists a, s1. split; [reflexivity | exact H].
Qed.

Lemma require_Done (cond : bool) reason (s s' : Exec W) u :
  require cond reason s = Done u s' -> cond = true /\ s' = s.
Proof.
  unfold require, ret, revert. destruct cond; [|discriminate].
  intros H. injection H as _ H. auto.
Qed.

Lemma checked_add_Done a b (s s' : Exec W) r :
  checked_add a b s = Done r s' -> r = a + b /\ s' = s /\ a + b < uint256_limit.
Proof.
  unfold checked_add, ret, panic_arith, revert.
  destruct (a + b <? uint256_limit) eqn:E; [|discriminate].
  intros H. injection H as <- <-. apply Z.ltb_lt in E. auto.
Qed.

Lemma checked_sub_Done a b (s s' : Exec W) r :
  checked_sub a b s = Done r s' -> r = a - b /\ s' = s /\ b <= a.
Proof.
  unfold checked_sub, ret, panic_arith, revert.
  destruct (b <=? a) eqn:E; [|discriminate].
  intros H. injection H as <- <-. apply Z.leb_le in E. auto.
Qed.

Lemma checked_mul_Done a b (s s' : Exec W) r :
  checked_mul a b s = Done r s' -> r = a * b /\ s' = s /\ a * b < uint256_limit.
Proof.
  unfold checked_mul, ret, panic_arith, revert.
  destruct (a * b <? uint256_limit) eqn:E; [|discriminate].
  intros H. injection H as <- <-. apply Z.ltb_lt in E. auto.
Qed.

Lemma emit_Done e (s s' : Exec W) u :
  emit e s = Done u s' -> s' = mkExec (world s) (events s ++ [e]) (trace s).
Proof. unfold emit. intros H. injection H as _ <-. reflexivity. Qed.

Lemma ret_Done {A} (a b : A) (s s' : Exec W) :
  ret a s = Done b s' -> b = a /\ s' = s.
Proof. unfold ret. intros H. injection H as <- <-. auto. Qed.

(** *** Computations that emit no event *)

Lemma silent_ret {A} (a : A) : silent (@ret W A a).
Proof. intros s a' s' H. injection H as _ H. subst. reflexivity. Qed.

Lemma silent_bind {A B} (m : M W A) (f : A -> M W B) :
  silent m -> (forall a, silent (f a)) -> silent (bind m f).
Proof.
  intros Hm Hf s b s' H. apply bind_Done in H. destruct H as (a & s1 & H1 & H2).
  rewrite (Hf a _ _ _ H2). exact (Hm _ _ _ H1).
Qed.

Lemma silent_revert {A} reason : silent (@revert W A reason).
Proof. intros s a s' H. discriminate. Qed.

Lemma silent_panic_arith {A} : silent (@panic_arith W A).
Proof. apply silent_revert. Qed.

Lemma silent_panic_index {A} : silent (@panic_index W A).
Proof. apply silent_revert. Qed.

Lemma silent_require cond reason : silent (@require W cond reason).
Proof. destruct cond; [apply silent_ret | apply silent_revert]. Qed.

Lemma silent_get_world : silent (@get_world W).
Proof. intros s a s' H. injection H as _ H. subst. reflexivity. Qed.

Lemma silent_set_world w : silent (@set_world W w).
Proof. intros s a s' H. injection H as _ H. subst. reflexivity. Qed.

Lemma silent_ghost sc : silent (@ghost W sc).
Proof. intros s a s' H. injection H as _ H. subst. reflexivity. Qed.

Lemma silent_external step reason : silent (@external W step reason).
Proof.
  intros s a s' H. unfold external in H.
  destruct (step (world s)); [|discriminate]. injection H as _ H. subst. reflexivity.
Qed.

Lemma silent_try_call {A} (m : M W A) : silent m -> silent (try_call m).
Proof.
  intros Hm s a s' H. unfold try_call in H.
  destruct (m s) as [x s1 | r tr] eqn:E.
  - injection H as _ H. subst. exact (Hm _ _ _ E).
  - injection H as _ H. subst. reflexivity.
Qed.

Lemma silent_checked_add a b : silent (@checked_add W a b).
Proof. unfold checked_add. destruct (a + b <? _); [apply silent_ret | apply silent_revert]. Qed.

Lemma silent_checked_sub a b : silent (@checked_sub W a b).
Proof. unfold checked_sub. destruct (b <=? a); [apply silent_ret | apply silent_revert]. Qed.

Lemma silent_checked_mul a b : silent (@checked_mul W a b).
Proof. unfold checked_mul. destruct (a * b <? _); [apply silent_ret | apply silent_revert]. Qed.

Lemma silent_index {A} (l : list A) i : silent (@index W A l i).
Proof. unfold index. destruct (nth_error l i); [apply silent_ret | apply silent_revert]. Qed.

End MonadFacts.

Create HintDb silent.

#[local] Hint Resolve silent_ret silent_revert silent_panic_arith silent_panic_index silent_require silent_get_world
  silent_set_world silent_ghost silent_external silent_checked_add silent_checked_sub
  silent_checked_mul silent_index : silent.

(** Walks through a monadic term, splitting binds and the branches of
    the [if]s and [match]es it meets. *)
Ltac silent_step :=
  match goal with
  | |- silent (Solidity.bind _ _) => apply silent_bind; [|intros]
  | |- silent (Solidity.try_call _) => apply silent_try_call
  | |- silent (if ?b then _ else _) => destruct b
  | |- silent (match ?x with _ => _ end) => destruct x
  | |- silent _ => solve [auto with silent]
  end.

Ltac silent_walk := repeat silent_step.

(** Splits a returning bind into its two halves. *)
Tactic Notation "bind_inv" hyp(H) "as" ident(a) ident(s1) ident(Hm) :=
  apply bind_Done in H; destruct H as (a & s1 & Hm & H).

(** ** Atomic execution unit *)

Section ContractFacts.

Import Solidity MultiDexArbitrageBot.
Local Open Scope sol_scope.
Local Open Scope Z_scope.

Variable W : Type.
Variable env : Env W.
Variable c : Storage.

Lemma silent_IERC20_balanceOf token : silent (IERC20_balanceOf W env token).
Proof. unfold IERC20_balanceOf. silent_walk. Qed.

Lemma silent_IERC20_approve token spender amount :
  silent (IERC20_approve W env token spender amount).
Proof. unfold IERC20_approve. silent_walk. Qed.

Lemma silent_IERC20_transfer token to amount :
  silent (IERC20_transfer W env token to amount).
Proof. unfold IERC20_transfer. silent_walk. Qed.

Hint Resolve silent_IERC20_balanceOf silent_IERC20_approve silent_IERC20_transfer
  : silent.

Lemma silent_getBestOutputForSwap_loop routers : forall i fromToken toToken amount best,
  silent (getBestOutputForSwap_loop W env routers i fromToken toToken amount best).
Proof.
  induction routers as [|d rest IH]; intros; simpl.
  - silent_walk.
  - apply silent_bind; [silent_walk | intros].
    destruct (i + 1 <? uint8_limit); [apply IH | auto with silent].
Qed.

Lemma silent_getBestOutputForSwap fromToken toToken amount :
  silent (getBestOutputForSwap W env c fromToken toToken amount).
Proof. apply silent_getBestOutputForSwap_loop. Qed.

Lemma silent_findBestDexForSwap_loop routers : forall i fromToken toToken amount best,
  silent (findBestDexForSwap_loop W env routers i fromToken toToken amount best).
Proof.
  induction routers as [|d rest IH]; intros; simpl.
  - silent_walk.
  - apply silent_bind; [silent_walk | intros].
    destruct (i + 1 <? uint8_limit); [apply IH | auto with silent].
Qed.

Lemma silent_findBestDexForSwap fromToken toToken amount :
  silent (findBestDexForSwap W env c fromToken toToken amount).
Proof.
  unfold findBestDexForSwap. apply silent_bind; [apply silent_findBestDexForSwap_loop|].
  intros. silent_walk.
Qed.

Hint Resolve silent_getBestOutputForSwap silent_findBestDexForSwap : silent.

Lemma silent_swapTokensBack m fromToken toToken amount :
  silent (swapTokensBack W env c m fromToken toToken amount).
Proof. unfold swapTokensBack. silent_walk. Qed.

Lemma silent_executeSwaps_hop m route i dexIndex currentToken currentAmount :
  silent (executeSwaps_hop W env c m route i dexIndex currentToken currentAmount).
Proof. unfold executeSwaps_hop. silent_walk. Qed.

Hint Resolve silent_swapTokensBack silent_executeSwaps_hop : silent.

Lemma silent_executeSwaps_loop m route indices : forall i currentToken currentAmount,
  silent (executeSwaps_loop W env c m route indices i currentToken currentAmount).
Proof.
  induction indices as [|dexIndex rest IH]; intros; simpl.
  - silent_walk.
  - apply silent_bind; [auto with silent | intros h].
    destruct h; [apply IH | silent_walk].
Qed.

Hint Resolve silent_executeSwaps_loop : silent.

Lemma silent_executeSwaps m tokenA tokenB amountIn route :
  silent (executeSwaps W env c m tokenA tokenB amountIn route).
Proof. unfold executeSwaps. silent_walk. Qed.

Lemma silent_simulateArbitrage_loop route indices : forall i currentToken currentAmount,
  silent (simulateArbitrage_loop W env c route indices i currentToken currentAmount).
Proof.
  induction indices as [|dexIndex rest IH]; intros; simpl.
  - silent_walk.
  - destruct (dex_count c <=? dexIndex); [silent_walk|].
    apply silent_bind; [auto with silent | intros dex].
    destruct (negb (active dex)); [silent_walk|].
    apply silent_bind; [auto with silent | intros nextToken].
    apply silent_bind; [auto with silent | intros w].
    destruct (getAmountsOut env w (router dex) currentAmount [currentToken; nextToken]);
      [|silent_walk].
    apply silent_bind; [auto with silent | intros out].
    destruct (out =? 0); [silent_walk | apply IH].
Qed.

Hint Resolve silent_simulateArbitrage_loop : silent.

Lemma silent_simulateArbitrage m tokenA tokenB amountIn route :
  silent (simulateArbitrage W env c m tokenA tokenB amountIn route).
Proof. unfold simulateArbitrage. silent_walk. Qed.

Hint Resolve silent_executeSwaps silent_simulateArbitrage : silent.

(** What a returning [executeOperation] has done: it returned [true]
    and emitted one event, either the success event, whose profit is the
    final balance less the debt and passed the threshold test, or the
    failure event. *)
Lemma executeOperation_returns m asset amount premium initiator params s b s' :
  executeOperation W env c m asset amount premium initiator params s = Done b s' ->
  b = true /\
  ((exists finalBalance profit,
       events s' = events s ++
         [ArbitrageExecuted asset (p_tokenB params) amount finalBalance profit
            (block_timestamp m)]
       /\ amount + premium <= finalBalance
       /\ profit = finalBalance - (amount + premium)
       /\ amount * minProfitPercent c / 100000 <= profit)
   \/ events s' = events s ++
         [ArbitrageFailed asset (p_tokenB params) "Swap execution failed"
            (block_timestamp m)]).
Proof.
  intros H. unfold executeOperation, nonpayable in H.
  bind_inv H as u0 s0 H0. apply require_Done in H0 as [_ ->].
  bind_inv H as u1 s1 H1. apply require_Done in H1 as [_ ->].
  bind_inv H as u2 s2 H2. apply require_Done in H2 as [_ ->].
  bind_inv H as totalDebt s3 H3. apply checked_add_Done in H3 as (-> & -> & _).
  bind_inv H as initialBalance s4 H4.
  apply silent_IERC20_balanceOf in H4.
  bind_inv H as u5 s5 H5. apply require_Done in H5 as [_ ->].
  bind_inv H as profitable s6 H6. apply silent_simulateArbitrage in H6.
  bind_inv H as u7 s7 H7. apply require_Done in H7 as [_ ->].
  bind_inv H as success s8 H8. apply silent_executeSwaps in H8.
  bind_inv H as u9 s9 H9.
  apply ret_Done in H as [-> ->]. split; [reflexivity|].
  assert (Hev : events s8 = events s) by congruence.
  destruct success.
  - left.
    bind_inv H9 as finalBalance s10 H10. apply silent_IERC20_balanceOf in H10.
    bind_inv H9 as u11 s11 H11. apply require_Done in H11 as [Hdebt ->].
    bind_inv H9 as profit s12 H12. apply checked_sub_Done in H12 as (-> & -> & _).
    bind_inv H9 as scaled s13 H13. apply checked_mul_Done in H13 as (-> & -> & _).
    bind_inv H9 as u14 s14 H14. apply require_Done in H14 as [Hfloor ->].
    bind_inv H9 as u15 s15 H15. apply silent_IERC20_approve in H15.
    bind_inv H9 as u16 s16 H16.
    assert (Hev16 : events s16 = events s15).
    { destruct (0 <? finalBalance - (amount + premium)).
      - apply silent_IERC20_transfer in H16. exact H16.
      - apply ret_Done in H16 as [_ ->]. reflexivity. }
    apply emit_Done in H9. subst s9. simpl.
    exists finalBalance, (finalBalance - (amount + premium)).
    apply Z.leb_le in Hdebt, Hfloor.
    repeat split; try assumption. congruence.
  - right. apply emit_Done in H9. subst s9. simpl. congruence.
Qed.

Lemma silent_onlyOwner_nonReentrant m : silent (onlyOwner_nonReentrant W c m).
Proof. unfold onlyOwner_nonReentrant. silent_walk. Qed.

Lemma silent_nonpayable m : silent (nonpayable W m).
Proof. unfold nonpayable. silent_walk. Qed.

Lemma silent_executeArbitrage_requires m tokenA tokenB route :
  silent (executeArbitrage_requires W c m tokenA tokenB route).
Proof. unfold executeArbitrage_requires. silent_walk. Qed.

Lemma silent_executeArbitrageWithNative_requires m tokenB route :
  silent (executeArbitrageWithNative_requires W env c m tokenB route).
Proof. unfold executeArbitrageWithNative_requires. silent_walk. Qed.

(** A flash loan that goes through leaves exactly one event. *)
Lemma flashLoanSimple_returns m caller asset amount params s u s' :
  flashLoanSimple W env c m caller asset amount params s = Done u s' ->
  exists e, events s' = events s ++ [e].
Proof.
  intros H. unfold flashLoanSimple in H.
  bind_inv H as w s1 H1. apply silent_get_world in H1.
  destruct (pool_lend env w asset amount) as [[w' premium]|]; [|discriminate].
  bind_inv H as u2 s2 H2. apply silent_set_world in H2.
  bind_inv H as ok s3 H3. apply executeOperation_returns in H3 as [_ H3].
  bind_inv H as u4 s4 H4. apply require_Done in H4 as [_ ->].
  bind_inv H as debt s5 H5. apply checked_add_Done in H5 as (_ & -> & _).
  apply silent_external in H.
  destruct H3 as [(fb & p & H3 & _) | H3]; eexists; rewrite H, H3, H2, H1; reflexivity.
Qed.

Lemma executeArbitrage_returns m tokenA tokenB amountIn route s u s' :
  executeArbitrage W env c m tokenA tokenB amountIn route s = Done u s' ->
  exists e, events s' = events s ++ [e].
Proof.
  intros H. unfold executeArbitrage in H.
  bind_inv H as u0 s0 H0. apply silent_nonpayable in H0.
  bind_inv H as u1 s1 H1. apply silent_onlyOwner_nonReentrant in H1.
  bind_inv H as u2 s2 H2. apply silent_executeArbitrage_requires in H2.
  apply flashLoanSimple_returns in H as [e H]. exists e. congruence.
Qed.

Lemma executeArbitrageWithNative_returns m tokenB route s u s' :
  executeArbitrageWithNative W env c m tokenB route s = Done u s' ->
  exists e, events s' = events s ++ [e].
Proof.
  intros H. unfold executeArbitrageWithNative in H.
  bind_inv H as u1 s1 H1. apply silent_onlyOwner_nonReentrant in H1.
  bind_inv H as dex0 s2 H2. apply silent_executeArbitrageWithNative_requires in H2.
  bind_inv H as w s3 H3. apply silent_get_world in H3.
  bind_inv H as u4 s4 H4.
  assert (E4 : events s4 = events s3).
  { destruct (weth_deposit env w (WETH env w (router dex0)) (value m)).
    - apply silent_set_world in H4. exact H4.
    - discriminate. }
  bind_inv H as initialBalance s5 H5. apply silent_IERC20_balanceOf in H5.
  bind_inv H as success s6 H6. apply silent_executeSwaps in H6.
  assert (E6 : events s6 = events s) by congruence.
  destruct success.
  - bind_inv H as finalBalance s7 H7. apply silent_IERC20_balanceOf in H7.
    bind_inv H as u8 s8 H8. apply require_Done in H8 as [_ ->].
    bind_inv H as profit s9 H9. apply checked_sub_Done in H9 as (_ & -> & _).
    bind_inv H as u10 s10 H10. apply silent_IERC20_approve in H10.
    bind_inv H as u11 s11 H11. apply silent_external in H11.
    apply emit_Done in H. subst s'. simpl. eexists. f_equal. congruence.
  - bind_inv H as w1 s7 H7. apply silent_get_world in H7.
    bind_inv H as u8 s8 H8.
    assert (E8 : events s8 = events s7).
    { destruct (weth_withdraw env w1 (WETH env w (router dex0)) (value m)).
      - apply silent_set_world in H8. exact H8.
      - discriminate. }
    bind_inv H as u9 s9 H9. apply silent_external in H9.
    apply emit_Done in H. subst s'. simpl. eexists. f_equal. congruence.
Qed.

End ContractFacts.

Lemma new_events_app {W} (s s' : Solidity.Exec W) l :
  Solidity.events s' = Solidity.events s ++ l -> new_events s s' = l.
Proof.
  unfold new_events. intros ->.
  rewrite skipn_app, skipn_all, Nat.sub_diag. reflexivity.
Qed.

Example small_loan_run_events :
  match small_loan_run with
  | Solidity.Done b s' =>
      b = true /\ Solidity.events s' = [Solidity.ArbitrageExecuted 1000 2000 1999 2001 1 1000000]
  | Solidity.Reverted _ _ => False
  end.
Proof. vm_compute. split; reflexivity. Qed.

(** C1. Every success event of the flash-loan callback reports the
    borrowed amount, a profit equal to the final balance less
    [amount + premium], and that profit is at least the integer quotient
    [amount * minProfitPercent / 100000] computed by the contract, hence
    less than one unit below the exact proportion. *)
Theorem executeOperation_profit_floor
    W (env : MultiDexArbitrageBot.Env W) c m asset amount premium initiator params
    s b s' tA tB aIn aOut profit ts :
  MultiDexArbitrageBot.executeOperation W env c m asset amount premium initiator
    params s = Solidity.Done b s' ->
  In (Solidity.ArbitrageExecuted tA tB aIn aOut profit ts) (new_events s s') ->
  aIn = amount
  /\ profit = aOut - (amount + premium)
  /\ amount * MultiDexArbitrageBot.minProfitPercent c / 100000 <= profit
  /\ amount * MultiDexArbitrageBot.minProfitPercent c < 100000 * (profit + 1).
Proof.
  intros Hrun Hin.
  apply executeOperation_returns in Hrun as [_ [(fb & p & Hev & Hdebt & Hp & Hfloor) | Hev]];
    rewrite (new_events_app _ _ _ Hev) in Hin; destruct Hin as [Hin | []];
    [|discriminate].
  injection Hin as <- <- <- <- <- <-.
  repeat split; try assumption.
  set (x := amount * MultiDexArbitrageBot.minProfitPercent c) in *.
  pose proof (Z.mul_succ_div_gt x 100000 ltac:(lia)). lia.
Qed.

Lemma executeOperation_profit_floor_witness :
  1999 = 1999 /\ 1 = 2001 - (1999 + 1) /\ 1999 * 100 / 100000 <= 1
  /\ 1999 * 100 < 100000 * (1 + 1).
Proof.
  refine (match small_loan_run as o return small_loan_run = o -> _ with
          | Solidity.Done b s' => fun Hrun => _
          | Solidity.Reverted r tr => fun Hrun => _
          end eq_refl).
  - apply (executeOperation_profit_floor Mock.World generous_env (Mock.storage 100)
             pool_call 1000 1999 1 1 small_loan_params
             (Mock.start (Mock.mkWorld [(1000, 1999)] [])) b s'
             1000 2000 1999 2001 1 1000000 Hrun).
    vm_compute in Hrun. injection Hrun as _ <-. vm_compute. left. reflexivity.
  - vm_compute in Hrun. discriminate Hrun.
Defined.

(** C1, as the specification words it, fails: the run above succeeds
    with profit 1 on a loan of 1999 at threshold 100, and 1 is below
    1999 * 100 / 100000 = 1.999. *)
Lemma exact_profit_floor_fails : ~ exact_profit_floor.
Proof.
  intros Hclaim.
  assert (H : 1999 * 100 <= 100000 * 1); [|lia].
  refine (match small_loan_run as o return small_loan_run = o -> _ with
          | Solidity.Done b s' => fun Hrun => _
          | Solidity.Reverted r tr => fun Hrun => _
          end eq_refl).
  - apply (Hclaim Mock.World generous_env (Mock.storage 100)
             pool_call 1000 1999 1 1 small_loan_params
             (Mock.start (Mock.mkWorld [(1000, 1999)] [])) b s'
             1000 2000 1999 2001 1 1000000 Hrun).
    vm_compute in Hrun. injection Hrun as _ <-. vm_compute. left. reflexivity.
  - vm_compute in Hrun. discriminate Hrun.
Qed.

(** C2. A transaction of either entry point that returns has added
    exactly one event and one that reverts shows none; the orchestrator
    appends exactly one record when [executeArbitrage] answers [true],
    which happens exactly for a sent transaction whose receipt has status
    1, and leaves the history as it was otherwise. *)
Theorem one_event_per_returning_call_one_record_per_success
    W (env : MultiDexArbitrageBot.Env W) c m tokenA tokenB amountIn route s
    cfg h now now_route opp tx :
  let flash := MultiDexArbitrageBot.executeArbitrage W env c m tokenA tokenB amountIn
                 route s in
  let native := MultiDexArbitrageBot.executeArbitrageWithNative W env c m tokenB route s in
  let attempt := ArbitrageManager.executeArbitrage cfg h now now_route opp tx in
  List.length (terminal_events s flash) = (if returned flash then 1 else 0)%nat
  /\ List.length (terminal_events s native) = (if returned native then 1 else 0)%nat
  /\ List.length (ArbitrageManager.history attempt)
     = (List.length h + if ArbitrageManager.result attempt then 1 else 0)%nat
  /\ firstn (List.length h) (ArbitrageManager.history attempt) = h
  /\ (ArbitrageManager.result attempt = true <->
      ArbitrageManager.submitted attempt <> None
      /\ exists hash minedAt, tx = ArbitrageManager.Receipt hash 1 minedAt).
Proof.
  cbv zeta. split; [|split; [|split; [|split]]].
  - destruct (MultiDexArbitrageBot.executeArbitrage _ _ _ _ _ _ _ _ _) as [u s'|r tr] eqn:E;
      simpl; [|reflexivity].
    apply executeArbitrage_returns in E as [e E].
    rewrite (new_events_app _ _ _ E). reflexivity.
  - destruct (MultiDexArbitrageBot.executeArbitrageWithNative _ _ _ _ _ _ _) as [u s'|r tr]
      eqn:E; simpl; [|reflexivity].
    apply executeArbitrageWithNative_returns in E as [e E].
    rewrite (new_events_app _ _ _ E). reflexivity.
  - unfold ArbitrageManager.executeArbitrage.
    destruct (_ && _); simpl; [lia|].
    destruct (ArbitrageManager.o_tokenA opp), (ArbitrageManager.o_tokenB opp);
      simpl; try lia.
    destruct tx as [| | hash | hash status minedAt]; simpl; try lia.
    destruct (status =? 1); simpl; [rewrite length_app; simpl; lia | lia].
  - unfold ArbitrageManager.executeArbitrage.
    destruct (_ && _); simpl; [apply firstn_all|].
    destruct (ArbitrageManager.o_tokenA opp), (ArbitrageManager.o_tokenB opp);
      simpl; try apply firstn_all.
    destruct tx as [| | hash | hash status minedAt]; simpl; try apply firstn_all.
    destruct (status =? 1); simpl; [|apply firstn_all].
    rewrite firstn_app, firstn_all, Nat.sub_diag. simpl. apply app_nil_r.
  - assert (Hno : forall (sub : option ArbitrageManager.Submission) (t : ArbitrageManager.TxOutcome),
               sub = None \/ (forall hash minedAt, t <> ArbitrageManager.Receipt hash 1 minedAt) ->
               false = true <->
               sub <> None /\ exists hash minedAt, t = ArbitrageManager.Receipt hash 1 minedAt).
    { intros sub t Hor. split; [discriminate|].
      intros [Hsub (hash & minedAt & Ht)]. destruct Hor as [Hnone | Hne].
      - contradiction.
      - exfalso. exact (Hne hash minedAt Ht). }
    unfold ArbitrageManager.executeArbitrage.
    destruct (_ && _); simpl; [apply Hno; left; reflexivity|].
    destruct (ArbitrageManager.o_tokenA opp), (ArbitrageManager.o_tokenB opp); simpl;
      try (apply Hno; left; reflexivity).
    destruct tx as [| | hash | hash status minedAt]; simpl;
      try (apply Hno; right; intros; discriminate).
    destruct (status =? 1) eqn:E; simpl.
    + apply Z.eqb_eq in E. subst. split; [|reflexivity].
      intros _. split; [discriminate | eauto].
    + apply Hno. right. intros hash' minedAt' H. injection H as _ -> _. discriminate.
Qed.

(** C2, as the specification words it, fails: an attempt was sent, the
    transaction reverted in the callback, no event is observable and the
    history got no record. *)
Lemma failed_attempt_has_no_event_and_no_record :
  let chain := MultiDexArbitrageBot.executeArbitrage Mock.World flat_env
                 (Mock.storage 100) owner_call 1000 2000 1999 fresh_route
                 (Mock.start (Mock.mkWorld [] [])) in
  let attempt := ArbitrageManager.executeArbitrage sample_config [] 1000000000 1000000000
                   sample_opportunity (ArbitrageManager.Receipt "0xdead" 0 1000012000) in
  chain = Solidity.Reverted "Initiator is not owner" []
  /\ terminal_events (Mock.start (Mock.mkWorld [] [])) chain = []
  /\ ArbitrageManager.submitted attempt <> None
  /\ ArbitrageManager.result attempt = false
  /\ ArbitrageManager.history attempt = [].
Proof.
  cbv zeta. repeat split; try (vm_compute; reflexivity).
  vm_compute. discriminate.
Qed.

(** A hop caught inside a flash loan that the owner takes from the pool
    for this contract: the callback emits the failure event and returns
    [true], nothing was approved for the pool, the repayment fails and
    the transaction reverts with no event left. *)
Example caught_hop_in_a_flash_loan_reverts_at_repayment :
  match MultiDexArbitrageBot.executeOperation Mock.World promising_env (Mock.storage 100)
          pool_call 1000 1999 1 1 small_loan_params
          (Mock.start (Mock.mkWorld [(1000, 1999)] [])) with
  | Solidity.Done b s' =>
      b = true
      /\ Solidity.events s' = [Solidity.ArbitrageFailed 1000 2000 "Swap execution failed" 1000000]
  | Solidity.Reverted _ _ => False
  end
  /\ MultiDexArbitrageBot.flashLoanSimple Mock.World promising_env (Mock.storage 100)
       owner_call 1 1000 1999 small_loan_params (Mock.start (Mock.mkWorld [] []))
     = Solidity.Reverted "POOL: repayment failed"
         [Solidity.mkSwapCall 10 1000 2000 1999 1999 1989 None].
Proof. split; [split|]; vm_compute; reflexivity. Qed.

(** The native-asset entry point takes no loan and has no threshold
    test: on a venue that accepts the path [[weth; weth]] of its last
    call, it emits the success event for a profit of 1 wei on 1000000 wei
    at threshold 100, where [amount * minProfitPercent / 100000] is 1000. *)
Example native_path_requires_positive_profit_only :
  match native_run with
  | Solidity.Done _ s' =>
      Solidity.events s' = [Solidity.ArbitrageExecuted 100 2000 1000000 1000001 1 1000000]
  | Solidity.Reverted _ _ => False
  end
  /\ 1000000 * MultiDexArbitrageBot.minProfitPercent (Mock.storage 100) / 100000 = 1000.
Proof. split; vm_compute; reflexivity. Qed.

Section FreshnessFacts.

Import Solidity MultiDexArbitrageBot.
Local Open Scope sol_scope.
Local Open Scope Z_scope.

Variable W : Type.
Variable env : Env W.
Variable c : Storage.

Lemma onlyOwner_nonReentrant_passes m s :
  owner c = sender m -> _entered c = false ->
  onlyOwner_nonReentrant W c m s = Done tt s.
Proof.
  intros Ho He. unfold onlyOwner_nonReentrant, bind.
  rewrite Ho, Z.eqb_refl, He. reflexivity.
Qed.

(** The first statement of [executeArbitrage] rejects every route of
    age two minutes or more. *)
Lemma executeArbitrage_requires_too_old m tokenA tokenB route s :
  timestamp route <= block_timestamp m ->
  2 * 60 <= block_timestamp m - timestamp route ->
  executeArbitrage_requires W c m tokenA tokenB route s
  = Reverted "Route too old, frontrunning risk" (trace s).
Proof.
  intros Hpast Hage. unfold executeArbitrage_requires, bind, checked_sub.
  replace (timestamp route <=? block_timestamp m) with true
    by (symmetry; apply Z.leb_le; exact Hpast).
  unfold ret.
  replace (block_timestamp m - timestamp route <? 2 * 60) with false
    by (symmetry; apply Z.ltb_ge; exact Hage).
  reflexivity.
Qed.

(** A route younger than two minutes gets past both freshness
    statements of [executeArbitrage]: whatever reverts, it is neither of
    them. *)
Lemma executeArbitrage_requires_fresh m tokenA tokenB route s r tr :
  timestamp route <= block_timestamp m ->
  timestamp route + 5 * 60 < uint256_limit ->
  block_timestamp m - timestamp route < 2 * 60 ->
  executeArbitrage_requires W c m tokenA tokenB route s = Reverted r tr ->
  r <> "Route too old, frontrunning risk"%string /\ r <> "Route expired"%string.
Proof.
  intros Hpast Hrange Hage. unfold executeArbitrage_requires, bind, checked_sub, checked_add.
  replace (timestamp route <=? block_timestamp m) with true
    by (symmetry; apply Z.leb_le; exact Hpast).
  unfold ret.
  replace (block_timestamp m - timestamp route <? 2 * 60) with true
    by (symmetry; apply Z.ltb_lt; exact Hage).
  replace (timestamp route + 5 * 60 <? uint256_limit) with true
    by (symmetry; apply Z.ltb_lt; exact Hrange).
  replace (block_timestamp m <=? timestamp route + 5 * 60) with true
    by (symmetry; apply Z.leb_le; lia).
  simpl.
  destruct (_paused c); simpl; [intros H; injection H as <- _; split; discriminate|].
  destruct (tokenA =? tokenB); simpl; [intros H; injection H as <- _; split; discriminate|].
  destruct (activePairs c tokenA tokenB); simpl;
    [|intros H; injection H as <- _; split; discriminate].
  destruct (gasprice m <=? maxGasPrice c); simpl;
    [discriminate | intros H; injection H as <- _; split; discriminate].
Qed.

(** [executeArbitrageWithNative] never gets past its [require]s with a
    route older than five minutes, and it is the freshness statement that
    stops it once the earlier ones pass. *)
Lemma executeArbitrageWithNative_requires_expired m tokenB route s :
  timestamp route + 5 * 60 < block_timestamp m ->
  exists r,
    executeArbitrageWithNative_requires W env c m tokenB route s = Reverted r (trace s)
    /\ (_paused c = false -> 0 < value m ->
        timestamp route + 5 * 60 < uint256_limit ->
        (forall dex0, nth_error (dexRouters c) 0 = Some dex0 ->
                      activePairs c (WETH env (world s) (router dex0)) tokenB = true) ->
        dexRouters c <> [] ->
        r = "Route expired"%string).
Proof.
  intros Hage. unfold executeArbitrageWithNative_requires, bind.
  change (5 * 60) with 300 in *.
  destruct (_paused c); simpl.
  { eexists. split; [reflexivity | intros; discriminate]. }
  destruct (0 <? value m) eqn:Hv; simpl.
  2:{ eexists. split; [reflexivity|]. intros _ H. apply Z.ltb_lt in H. congruence. }
  unfold index. destruct (nth_error (dexRouters c) 0) as [dex0|] eqn:Hd; simpl.
  2:{ eexists. split; [reflexivity|]. intros _ _ _ _ H.
      destruct (dexRouters c); [contradiction | discriminate]. }
  destruct (activePairs c (WETH env (world s) (router dex0)) tokenB) eqn:Ha; simpl.
  2:{ eexists. split; [reflexivity|]. intros _ _ _ H. pose proof (H dex0 Hd) as H'.
      congruence. }
  unfold checked_add.
  destruct (timestamp route + 300 <? uint256_limit) eqn:Hr; simpl.
  2:{ eexists. split; [reflexivity|]. intros _ _ H. apply Z.ltb_lt in H. congruence. }
  replace (block_timestamp m <=? timestamp route + 300) with false
    by (symmetry; apply Z.leb_gt; exact Hage).
  simpl. eexists. split; [reflexivity|]. intros. reflexivity.
Qed.

(** A route of age at most five minutes is not stopped by the freshness
    statement of [executeArbitrageWithNative]. *)
Lemma executeArbitrageWithNative_requires_fresh m tokenB route s r tr :
  timestamp route + 5 * 60 < uint256_limit ->
  block_timestamp m <= timestamp route + 5 * 60 ->
  executeArbitrageWithNative_requires W env c m tokenB route s = Reverted r tr ->
  r <> "Route expired"%string.
Proof.
  intros Hrange Hage. unfold executeArbitrageWithNative_requires, bind, checked_add.
  change (5 * 60) with 300 in *.
  destruct (_paused c); simpl; [intros H; injection H as <- _; discriminate|].
  destruct (0 <? value m); simpl; [|intros H; injection H as <- _; discriminate].
  unfold index. destruct (nth_error (dexRouters c) 0) as [dex0|]; simpl;
    [|intros H; injection H as <- _; discriminate].
  destruct (activePairs c _ tokenB); simpl; [|intros H; injection H as <- _; discriminate].
  replace (timestamp route + 300 <? uint256_limit) with true
    by (symmetry; apply Z.ltb_lt; exact Hrange).
  simpl.
  replace (block_timestamp m <=? timestamp route + 300) with true
    by (symmetry; apply Z.leb_le; exact Hage).
  simpl.
  destruct (gasprice m <=? maxGasPrice c); simpl;
    [discriminate | intros H; injection H as <- _; discriminate].
Qed.

End FreshnessFacts.

(** C3. For calls by the owner with a route stamped in the past, one
    without value to [executeArbitrage] (which is not payable) and one to
    [executeArbitrageWithNative]: [executeArbitrage] reverts with "Route
    too old, frontrunning risk", before any swap call, as soon as the
    route is 120 seconds old, and a younger route gets past both of its
    freshness statements; [executeArbitrageWithNative] reverts before any
    swap call when the route is more than 300 seconds old, with "Route
    expired" once its earlier statements pass, and a route of at most 300
    seconds gets past its freshness statement. *)
Theorem stale_routes_rejected_before_any_swap
    W (env : MultiDexArbitrageBot.Env W) c m mn tokenA tokenB amountIn route s :
  MultiDexArbitrageBot.value m = 0 ->
  MultiDexArbitrageBot.owner c = MultiDexArbitrageBot.sender m ->
  MultiDexArbitrageBot.owner c = MultiDexArbitrageBot.sender mn ->
  MultiDexArbitrageBot._entered c = false ->
  MultiDexArbitrageBot.timestamp route <= MultiDexArbitrageBot.block_timestamp m ->
  MultiDexArbitrageBot.timestamp route <= MultiDexArbitrageBot.block_timestamp mn ->
  MultiDexArbitrageBot.timestamp route + 5 * 60 < Solidity.uint256_limit ->
  let age := MultiDexArbitrageBot.block_timestamp m - MultiDexArbitrageBot.timestamp route in
  let age_native :=
    MultiDexArbitrageBot.block_timestamp mn - MultiDexArbitrageBot.timestamp route in
  (2 * 60 <= age ->
     MultiDexArbitrageBot.executeArbitrage W env c m tokenA tokenB amountIn route s
     = Solidity.Reverted "Route too old, frontrunning risk" (Solidity.trace s))
  /\ (age < 2 * 60 ->
      forall r tr,
        MultiDexArbitrageBot.executeArbitrage_requires W c m tokenA tokenB route s
        = Solidity.Reverted r tr ->
        r <> "Route too old, frontrunning risk"%string /\ r <> "Route expired"%string)
  /\ (5 * 60 < age_native ->
      exists r,
        MultiDexArbitrageBot.executeArbitrageWithNative W env c mn tokenB route s
        = Solidity.Reverted r (Solidity.trace s)
        /\ (MultiDexArbitrageBot._paused c = false ->
            0 < MultiDexArbitrageBot.value mn ->
            (forall dex0, nth_error (MultiDexArbitrageBot.dexRouters c) 0 = Some dex0 ->
               MultiDexArbitrageBot.activePairs c
                 (MultiDexArbitrageBot.WETH env (Solidity.world s)
                    (MultiDexArbitrageBot.router dex0)) tokenB = true) ->
            MultiDexArbitrageBot.dexRouters c <> [] ->
            r = "Route expired"%string))
  /\ (age_native <= 5 * 60 ->
      forall r tr,
        MultiDexArbitrageBot.executeArbitrageWithNative_requires W env c mn tokenB route s
        = Solidity.Reverted r tr ->
        r <> "Route expired"%string).
Proof.
  intros Hv Ho Hon He Hpast Hpastn Hrange age age_native. subst age age_native.
  repeat split.
  - intros Hage.
    unfold MultiDexArbitrageBot.executeArbitrage, MultiDexArbitrageBot.nonpayable,
      Solidity.bind.
    rewrite Hv. cbn [Z.eqb Solidity.require Solidity.ret].
    rewrite (onlyOwner_nonReentrant_passes W c m s Ho He).
    rewrite (executeArbitrage_requires_too_old W c m tokenA tokenB route s Hpast Hage).
    reflexivity.
  - eapply (executeArbitrage_requires_fresh W c m); eauto.
  - eapply (executeArbitrage_requires_fresh W c m); eauto.
  - intros Hage.
    destruct (executeArbitrageWithNative_requires_expired W env c mn tokenB route s
                ltac:(lia)) as (r & Hr & Hreason).
    exists r. split.
    + unfold MultiDexArbitrageBot.executeArbitrageWithNative, Solidity.bind.
      rewrite (onlyOwner_nonReentrant_passes W c mn s Hon He), Hr. reflexivity.
    + intros Hp Hvn Ha Hd. apply Hreason; assumption.
  - intros Hage r tr. apply executeArbitrageWithNative_requires_fresh; [assumption | lia].
Qed.

Lemma stale_routes_rejected_before_any_swap_witness :
  MultiDexArbitrageBot.executeArbitrage Mock.World generous_env (Mock.storage 100)
    owner_call 1000 2000 1999 route_400s_old
    (Mock.start (Mock.mkWorld [] []))
  = Solidity.Reverted "Route too old, frontrunning risk" []
  /\ MultiDexArbitrageBot.executeArbitrageWithNative Mock.World generous_env
       (Mock.storage 100) owner_call_with_value 2000 route_400s_old
       (Mock.start (Mock.mkWorld [] []))
     = Solidity.Reverted "Route expired" [].
Proof.
  destruct (stale_routes_rejected_before_any_swap Mock.World generous_env
              (Mock.storage 100) owner_call owner_call_with_value 1000 2000 1999
              route_400s_old (Mock.start (Mock.mkWorld [] [])))
    as (Hflash & _ & Hnative & _).
  - reflexivity.
  - reflexivity.
  - reflexivity.
  - reflexivity.
  - simpl. lia.
  - simpl. lia.
  - vm_compute. reflexivity.
  - split.
    + apply Hflash. simpl. lia.
    + destruct Hnative as (r & Hr & Hreason); [simpl; lia|].
      rewrite Hr. f_equal. apply Hreason.
      * reflexivity.
      * simpl. lia.
      * intros dex0 Hd. injection Hd as <-. reflexivity.
      * discriminate.
Defined.

(** C3, as the specification words it (one validity window of 300
    seconds for every entry point), fails: a route 200 seconds old is
    inside that window, and [executeArbitrage], called by the owner
    without value, rejects it as too old, while
    [executeArbitrageWithNative] lets it past its requires. *)
Lemma route_inside_five_minute_window_rejected :
  MultiDexArbitrageBot.value owner_call = 0
  /\ MultiDexArbitrageBot.block_timestamp owner_call
     - MultiDexArbitrageBot.timestamp route_200s_old = 200
  /\ MultiDexArbitrageBot.block_timestamp owner_call_with_value
     - MultiDexArbitrageBot.timestamp route_200s_old = 200
  /\ 200 <= 5 * 60
  /\ MultiDexArbitrageBot.executeArbitrage Mock.World generous_env (Mock.storage 100)
       owner_call 1000 2000 1999 route_200s_old
       (Mock.start (Mock.mkWorld [] []))
     = Solidity.Reverted "Route too old, frontrunning risk" []
  /\ returned
       (MultiDexArbitrageBot.executeArbitrageWithNative_requires Mock.World generous_env
          (Mock.storage 100) owner_call_with_value 2000 route_200s_old
          (Mock.start (Mock.mkWorld [] [])))
     = true.
Proof. repeat split; try (vm_compute; reflexivity). vm_compute. discriminate. Qed.

(** ** Slippage floor *)

Section TraceFacts.

Import Solidity.
Local Open Scope Z_scope.

Context {W : Type}.

Lemma view_ret {A} (a : A) : view (@ret W A a).
Proof. intros s. reflexivity. Qed.

Lemma view_revert {A} reason : view (@revert W A reason).
Proof. intros s. reflexivity. Qed.

Lemma view_bind {A B} (m : M W A) (f : A -> M W B) :
  view m -> (forall a, view (f a)) -> view (bind m f).
Proof.
  intros Hm Hf s. unfold bind. specialize (Hm s).
  destruct (m s) as [a s1 | r tr]; [|exact Hm].
  subst s1. apply Hf.
Qed.

Lemma view_require cond reason : view (@require W cond reason).
Proof. destruct cond; [apply view_ret | apply view_revert]. Qed.

Lemma view_get_world : view (@get_world W).
Proof. intros s. reflexivity. Qed.

Lemma view_checked_add a b : view (@checked_add W a b).
Proof. unfold checked_add. destruct (a + b <? _); [apply view_ret | apply view_revert]. Qed.

Lemma view_checked_sub a b : view (@checked_sub W a b).
Proof. unfold checked_sub. destruct (b <=? a); [apply view_ret | apply view_revert]. Qed.

Lemma view_checked_mul a b : view (@checked_mul W a b).
Proof. unfold checked_mul. destruct (a * b <? _); [apply view_ret | apply view_revert]. Qed.

Lemma view_index {A} (l : list A) i : view (@index W A l i).
Proof. unfold index. destruct (nth_error l i); [apply view_ret | apply view_revert]. Qed.

Lemma view_panic_arith {A} : view (@panic_arith W A).
Proof. apply view_revert. Qed.

Lemma extends_refl P t : extends P t t.
Proof. exists []. split; [symmetry; apply app_nil_r | constructor]. Qed.

Lemma extends_trans P t0 t1 t2 :
  extends P t0 t1 -> extends P t1 t2 -> extends P t0 t2.
Proof.
  intros (n1 & -> & H1) (n2 & -> & H2). exists (n1 ++ n2). split.
  - symmetry. apply app_assoc.
  - apply Forall_app. split; assumption.
Qed.

Lemma extends_snoc (P : SwapCall -> Prop) t h : P h -> extends P t (t ++ [h]).
Proof. intros Hh. exists [h]. split; [reflexivity | repeat constructor; exact Hh]. Qed.

Lemma extends_weaken (P Q : SwapCall -> Prop) t0 t1 :
  (forall h, P h -> Q h) -> extends P t0 t1 -> extends Q t0 t1.
Proof.
  intros HPQ (new & -> & H). exists new. split; [reflexivity|].
  eapply Forall_impl; eauto.
Qed.

Lemma extends_new_hops P {A} (s : Exec W) (o : Outcome W A) :
  extends P (trace s) (outcome_trace o) -> Forall P (new_hops s o).
Proof.
  intros (new & E & H). unfold new_hops. rewrite E.
  rewrite skipn_app, skipn_all, Nat.sub_diag. exact H.
Qed.

End TraceFacts.

Create HintDb view.

#[local] Hint Resolve view_ret view_revert view_require view_get_world view_checked_add
  view_checked_sub view_checked_mul view_index view_panic_arith : view.

Ltac view_step :=
  match goal with
  | |- view (Solidity.bind _ _) => apply view_bind; [|intros]
  | |- view (if ?b then _ else _) => destruct b
  | |- view (match ?x with _ => _ end) => destruct x
  | |- view _ => solve [auto with view]
  end.

Ltac view_walk := repeat view_step.

(** Case rules: to establish [Q] of a bind whose head is a primitive,
    establish it of the continuation on each way the primitive can go. *)
Section CaseRules.

Import Solidity.
Local Open Scope Z_scope.

Context {W B : Type}.
Variable Q : Outcome W B -> Prop.
Variable s : Exec W.

Lemma require_cases (cond : bool) reason (k : unit -> M W B) :
  (cond = true -> Q (k tt s)) ->
  (cond = false -> Q (Reverted reason (trace s))) ->
  Q (bind (require cond reason) k s).
Proof. unfold bind, require. destruct cond; cbn; auto. Qed.

Lemma index_cases {A} (l : list A) i (k : A -> M W B) :
  (forall a, nth_error l i = Some a -> Q (k a s)) ->
  (nth_error l i = None -> Q (Reverted "Panic(0x32)" (trace s))) ->
  Q (bind (index l i) k s).
Proof. unfold bind, index. destruct (nth_error l i); cbn; auto. Qed.

Lemma get_world_cases (k : W -> M W B) :
  Q (k (world s) s) -> Q (bind get_world k s).
Proof. unfold bind, get_world. auto. Qed.

Lemma set_world_cases w (k : unit -> M W B) :
  Q (k tt (mkExec w (events s) (trace s))) -> Q (bind (set_world w) k s).
Proof. unfold bind, set_world. auto. Qed.

Lemma ghost_cases h (k : unit -> M W B) :
  Q (k tt (mkExec (world s) (events s) (trace s ++ [h]))) -> Q (bind (ghost h) k s).
Proof. unfold bind, ghost. auto. Qed.

Lemma external_cases step reason (k : unit -> M W B) :
  (forall w', step (world s) = Some w' -> Q (k tt (mkExec w' (events s) (trace s)))) ->
  (step (world s) = None -> Q (Reverted reason (trace s))) ->
  Q (bind (external step reason) k s).
Proof. unfold bind, external. destruct (step (world s)); cbn; auto. Qed.

Lemma checked_mul_cases a b (k : Z -> M W B) :
  (a * b < uint256_limit -> Q (k (a * b) s)) ->
  (Q (Reverted "Panic(0x11)" (trace s))) ->
  Q (bind (checked_mul a b) k s).
Proof.
  unfold bind, checked_mul. destruct (a * b <? uint256_limit) eqn:E; cbn; auto.
  intros H _. apply H. apply Z.ltb_lt. exact E.
Qed.

Lemma checked_sub_cases a b (k : Z -> M W B) :
  (b <= a -> Q (k (a - b) s)) ->
  (Q (Reverted "Panic(0x11)" (trace s))) ->
  Q (bind (checked_sub a b) k s).
Proof.
  unfold bind, checked_sub. destruct (b <=? a) eqn:E; cbn; auto.
  intros H _. apply H. apply Z.leb_le. exact E.
Qed.

Lemma view_cases {A} (m : M W A) (k : A -> M W B) :
  view m ->
  (forall a, m s = Done a s -> Q (k a s)) ->
  (forall r, Q (Reverted r (trace s))) ->
  Q (bind m k s).
Proof.
  intros Hv Hd Hr. unfold bind. specialize (Hv s).
  destruct (m s) as [a s1 | r tr] eqn:E; subst; auto.
Qed.

End CaseRules.

Section SlippageFacts.

Import Solidity MultiDexArbitrageBot.
Local Open Scope sol_scope.
Local Open Scope Z_scope.

Variable W : Type.
Variable env : Env W.
Variable c : Storage.
Hypothesis Hfloor : venues_enforce_floor env.
Hypothesis Happrove : approve_keeps_balances env.

Lemma view_findBestDexForSwap_loop routers : forall i fromToken toToken amount best,
  view (findBestDexForSwap_loop W env routers i fromToken toToken amount best).
Proof.
  induction routers as [|d rest IH]; intros; simpl.
  - view_walk.
  - apply view_bind; [view_walk | intros].
    destruct (i + 1 <? uint8_limit); [apply IH | auto with view].
Qed.

Lemma view_findBestDexForSwap fromToken toToken amount :
  view (findBestDexForSwap W env c fromToken toToken amount).
Proof.
  unfold findBestDexForSwap. apply view_bind; [apply view_findBestDexForSwap_loop|].
  intros. view_walk.
Qed.

Lemma balanceOf_cases {B} (Q : Outcome W B -> Prop) s token (k : Z -> M W B) :
  Q (k (balanceOf env (world s) token) s) -> Q (bind (IERC20_balanceOf W env token) k s).
Proof. unfold IERC20_balanceOf, bind, get_world, ret. auto. Qed.

Lemma approve_cases {B} (Q : Outcome W B -> Prop) s token spender amount
    (k : unit -> M W B) :
  (forall w', approve env (world s) token spender amount = Some w' ->
              Q (k tt (mkExec w' (events s) (trace s)))) ->
  (forall r, Q (Reverted r (trace s))) ->
  Q (bind (IERC20_approve W env token spender amount) k s).
Proof. intros Hs Hn. unfold IERC20_approve. apply external_cases; auto. Qed.

Lemma executeSwaps_hop_trace m route i dexIndex currentToken currentAmount s :
  hop_outcome (trace s)
    (executeSwaps_hop W env c m route i dexIndex currentToken currentAmount s).
Proof.
  unfold executeSwaps_hop.
  apply require_cases; intros _; [|apply extends_refl].
  apply index_cases; [intros dex _ | intros _; apply extends_refl].
  apply require_cases; intros _; [|apply extends_refl].
  apply index_cases; [intros nextToken _ | intros _; apply extends_refl].
  apply balanceOf_cases.
  apply approve_cases; [intros w1 Hw1 | intros r; apply extends_refl].
  apply approve_cases; [intros w2 Hw2 | intros r; apply extends_refl].
  cbn in Hw2.
  apply get_world_cases. cbv beta iota. cbn [world].
  destruct (getAmountsOut env w2 (router dex) currentAmount [currentToken; nextToken])
    as [amountsOut|]; [|apply extends_refl].
  apply index_cases; [intros quoted _ | intros _; apply extends_refl].
  apply checked_mul_cases; [intros _ | apply extends_refl].
  cbv beta iota zeta.
  destruct (swapExactTokensForTokens env w2 (router dex) currentAmount
              (quoted * (10000 - 50) / 10000) [currentToken; nextToken] (this c)
              (block_timestamp m)) as [w3|] eqn:Hswap.
  - apply set_world_cases.
    apply balanceOf_cases. cbn [world events trace].
    apply checked_sub_cases; [intros _ | apply extends_refl].
    apply ghost_cases. cbn [world events trace].
    assert (Hentry : above_floor
              (mkSwapCall (router dex) currentToken nextToken currentAmount quoted
                 (quoted * (10000 - 50) / 10000)
                 (Some (balanceOf env w3 nextToken - balanceOf env (world s) nextToken)))).
    { split; [reflexivity|]. cbn [sc_realized sc_minOut]. intros d Hd. injection Hd as <-.
      pose proof (Hfloor _ _ _ _ _ _ _ _ _ Hswap) as Hf.
      rewrite (Happrove _ _ _ _ _ nextToken Hw2) in Hf.
      rewrite (Happrove _ _ _ _ _ nextToken Hw1) in Hf. lia. }
    apply require_cases; intros _; cbn.
    + apply extends_snoc. split; [exact Hentry | discriminate].
    + apply extends_snoc. exact Hentry.
  - apply ghost_cases. cbn. apply extends_snoc.
    split; [reflexivity | cbn; discriminate].
Qed.

Lemma swapTokensBack_trace m fromToken toToken amount s :
  match swapTokensBack W env c m fromToken toToken amount s with
  | Done _ s' => extends (fun h => above_floor h /\ answered h) (trace s) (trace s')
  | Reverted _ tr => extends above_floor (trace s) tr
  end.
Proof.
  unfold swapTokensBack.
  apply view_cases; [apply view_findBestDexForSwap | intros bestDexIndex _
                    | intros r; apply extends_refl].
  apply index_cases; [intros dex _ | intros _; apply extends_refl].
  apply approve_cases; [intros w1 Hw1 | intros r; apply extends_refl].
  apply approve_cases; [intros w2 Hw2 | intros r; apply extends_refl].
  cbv zeta.
  apply balanceOf_cases. apply get_world_cases. cbn [world events trace].
  destruct (getAmountsOut env w2 (router dex) amount [fromToken; toToken])
    as [expectedAmounts|]; [|apply extends_refl].
  apply index_cases; [intros quoted _ | intros _; apply extends_refl].
  apply checked_mul_cases; [intros _ | apply extends_refl].
  cbv beta iota zeta.
  destruct (swapExactTokensForTokens env w2 (router dex) amount
              (quoted * (10000 - 50) / 10000) [fromToken; toToken] (this c)
              (block_timestamp m)) as [w3|] eqn:Hswap.
  - apply set_world_cases.
    apply balanceOf_cases. cbn [world events trace].
    apply checked_sub_cases; [intros _ | apply extends_refl].
    apply ghost_cases. cbn. apply extends_snoc. split; [|discriminate].
    split; [reflexivity|]. cbn. intros d Hd. injection Hd as <-.
    pose proof (Hfloor _ _ _ _ _ _ _ _ _ Hswap) as Hf.
    change (10000 - 50) with 9950 in *. lia.
  - apply ghost_cases. cbn. apply extends_snoc.
    split; [reflexivity | cbn; discriminate].
Qed.

Lemma both_above_floor t0 t1 :
  extends (fun h => above_floor h /\ answered h) t0 t1 -> extends above_floor t0 t1.
Proof. apply extends_weaken. intros h [H _]. exact H. Qed.

(** Outcome of the hop loop: a loop that ran to its end recorded only
    answered calls. *)
Lemma executeSwaps_loop_trace m route indices : forall i currentToken currentAmount s,
  match executeSwaps_loop W env c m route indices i currentToken currentAmount s with
  | Done (Some _) s' => extends (fun h => above_floor h /\ answered h) (trace s) (trace s')
  | Done None s' => extends above_floor (trace s) (trace s')
  | Reverted _ tr => extends above_floor (trace s) tr
  end.
Proof.
  induction indices as [|dexIndex rest IH]; intros; simpl.
  - apply extends_refl.
  - unfold bind.
    pose proof (executeSwaps_hop_trace m route i dexIndex currentToken currentAmount s)
      as Hhop.
    destruct (executeSwaps_hop W env c m route i dexIndex currentToken currentAmount s)
      as [[nextToken swappedAmount|] s1 | r tr]; simpl in Hhop.
    + specialize (IH (S i) nextToken swappedAmount s1).
      destruct (executeSwaps_loop W env c m route rest (S i) nextToken swappedAmount s1)
        as [[r1|] s2 | r tr].
      * eapply extends_trans; eauto.
      * eapply extends_trans; [apply both_above_floor|]; eauto.
      * eapply extends_trans; [apply both_above_floor|]; eauto.
    + exact Hhop.
    + exact Hhop.
Qed.

(** Outcome of [executeSwaps]: every recorded swap call is above its
    floor, and a run that returns [true] recorded only answered calls. *)
Lemma executeSwaps_trace m tokenA tokenB amountIn route s :
  match executeSwaps W env c m tokenA tokenB amountIn route s with
  | Done true s' => extends (fun h => above_floor h /\ answered h) (trace s) (trace s')
  | Done false s' => extends above_floor (trace s) (trace s')
  | Reverted _ tr => extends above_floor (trace s) tr
  end.
Proof.
  unfold executeSwaps.
  apply require_cases; intros _; [|apply extends_refl].
  apply require_cases; intros _; [|apply extends_refl].
  unfold bind at 1.
  pose proof (executeSwaps_loop_trace m route (dexIndices route) 0 tokenA amountIn s)
    as Hloop.
  destruct (executeSwaps_loop W env c m route (dexIndices route) 0 tokenA amountIn s)
    as [[[currentToken currentAmount]|] s1 | r tr]; [| exact Hloop | exact Hloop].
  destruct (tokenA =? tokenB).
  - apply require_cases; intros _; [exact Hloop | apply both_above_floor; exact Hloop].
  - unfold bind, try_call.
    pose proof (swapTokensBack_trace m currentToken tokenA currentAmount s1) as Hback.
    destruct (swapTokensBack W env c m currentToken tokenA currentAmount s1)
      as [finalAmount s2 | r tr]; cbn.
    + eapply extends_trans; eauto.
    + eapply extends_trans; [apply both_above_floor|]; eauto.
Qed.

End SlippageFacts.

(** The mock venues honour the floor, and mock approvals move nothing. *)
Section MockFacts.

Import Solidity MultiDexArbitrageBot Mock.
Local Open Scope Z_scope.

Lemma lookup_update_same l k v : lookup (update l k v) k = v.
Proof.
  induction l as [|[k' v'] l IH]; simpl.
  - rewrite Z.eqb_refl. reflexivity.
  - destruct (k' =? k) eqn:E; simpl.
    + rewrite Z.eqb_refl. reflexivity.
    + rewrite E. exact IH.
Qed.

Lemma lookup_update_other l k k' v : k <> k' -> lookup (update l k v) k' = lookup l k'.
Proof.
  intros Hne. induction l as [|[k0 v0] l IH]; simpl.
  - destruct (k =? k') eqn:E; [apply Z.eqb_eq in E; contradiction | reflexivity].
  - destruct (k0 =? k) eqn:E; simpl.
    + apply Z.eqb_eq in E. subst k0.
      destruct (k =? k') eqn:E'; [apply Z.eqb_eq in E'; contradiction | reflexivity].
    + destruct (k0 =? k'); [reflexivity | exact IH].
Qed.

Lemma mock_env_enforces_floor quote deliver premium :
  venues_enforce_floor (mock_env quote deliver premium).
Proof.
  intros w r amountIn amountOutMin tokenIn tokenOut to deadline w' H.
  simpl in H. unfold mock_swap in H.
  destruct (tokenIn =? tokenOut) eqn:Ene; [discriminate|].
  destruct (deliver r tokenIn tokenOut amountIn <? amountOutMin) eqn:Ed; [discriminate|].
  simpl in H. unfold debit in H.
  destruct (amountIn <=? lookup (bal w) tokenIn); [|discriminate].
  injection H as <-. simpl.
  apply Z.eqb_neq in Ene. apply Z.ltb_ge in Ed.
  rewrite lookup_update_same, lookup_update_other by exact Ene. lia.
Qed.

Lemma mock_env_approve_keeps_balances quote deliver premium :
  approve_keeps_balances (mock_env quote deliver premium).
Proof. intros w token spender amount w' t H. injection H as <-. reflexivity. Qed.

End MockFacts.

(** C4. With venues that honour the floor they are handed, every swap
    call of [executeSwaps], hop or swap back, gets the floor
    [quoted * 9950 / 10000] (integer quotient) and credits at least that
    much when it is answered; and a run that returns [true] contains
    only answered calls, each credited at least its floor. *)
Theorem executeSwaps_hops_above_floor
    W (env : MultiDexArbitrageBot.Env W) c m tokenA tokenB amountIn route s :
  venues_enforce_floor env ->
  approve_keeps_balances env ->
  let run := MultiDexArbitrageBot.executeSwaps W env c m tokenA tokenB amountIn route s in
  (forall h, In h (new_hops s run) ->
     Solidity.sc_minOut h = Solidity.sc_quoted h * 9950 / 10000
     /\ forall d, Solidity.sc_realized h = Some d ->
                  Solidity.sc_quoted h * 9950 / 10000 <= d)
  /\ (forall s', run = Solidity.Done true s' ->
      forall h, In h (new_hops s run) ->
        exists d, Solidity.sc_realized h = Some d
                  /\ Solidity.sc_quoted h * 9950 / 10000 <= d).
Proof.
  intros Hfloor Happrove run.
  pose proof (executeSwaps_trace W env c Hfloor Happrove m tokenA tokenB amountIn route s)
    as Htrace.
  fold run in Htrace.
  assert (Hall : Forall above_floor (new_hops s run)).
  { apply extends_new_hops.
    destruct run as [[|] s' | r tr]; simpl;
      first [exact Htrace | apply both_above_floor; exact Htrace]. }
  assert (Habove : forall h, above_floor h ->
            Solidity.sc_minOut h = Solidity.sc_quoted h * 9950 / 10000
            /\ forall d, Solidity.sc_realized h = Some d ->
                         Solidity.sc_quoted h * 9950 / 10000 <= d).
  { intros h [Hmin Hd]. change (10000 - 50) with 9950 in Hmin. split; [exact Hmin|].
    intros d E. rewrite <- Hmin. apply Hd. exact E. }
  split.
  - intros h Hin. apply Habove. rewrite Forall_forall in Hall. apply Hall. exact Hin.
  - intros s' Hrun h Hin.
    rewrite Hrun in Htrace. simpl in Htrace.
    assert (Hans : Forall (fun h => above_floor h /\ answered h) (new_hops s run)).
    { apply extends_new_hops. rewrite Hrun. exact Htrace. }
    rewrite Forall_forall in Hans. destruct (Hans h Hin) as [Hab Hanswered].
    destruct (Solidity.sc_realized h) as [d|] eqn:E.
    + exists d. split; [reflexivity|]. apply (proj2 (Habove h Hab)). exact E.
    + exfalso. apply Hanswered. exact E.
Qed.

Lemma executeSwaps_hops_above_floor_witness :
  (forall h,
     In h (new_hops (Mock.start (Mock.mkWorld [(1000, 10000)] [])) (round_trip 40 10000)) ->
     Solidity.sc_minOut h = Solidity.sc_quoted h * 9950 / 10000
     /\ forall d, Solidity.sc_realized h = Some d ->
                  Solidity.sc_quoted h * 9950 / 10000 <= d)
  /\ (forall s', round_trip 40 10000 = Solidity.Done true s' ->
      forall h,
        In h (new_hops (Mock.start (Mock.mkWorld [(1000, 10000)] [])) (round_trip 40 10000)) ->
        exists d, Solidity.sc_realized h = Some d
                  /\ Solidity.sc_quoted h * 9950 / 10000 <= d).
Proof.
  exact (executeSwaps_hops_above_floor Mock.World (short_env 40) (Mock.storage 100)
           owner_call 1000 2000 10000 fresh_route
           (Mock.start (Mock.mkWorld [(1000, 10000)] []))
           (mock_env_enforces_floor flat_quote (short_deliver 40) (fun _ => 0))
           (mock_env_approve_keeps_balances flat_quote (short_deliver 40) (fun _ => 0))).
Defined.

(** The test of the specification at a quote of 10000: a venue paying
    0.4% less than it quoted is accepted on both legs, one paying 0.6%
    less reverts on the first leg and [executeSwaps] returns [false]. *)
Example mock_venue_four_permille_under :
  returned (round_trip 40 10000) = true
  /\ map Solidity.sc_realized (outcome_trace (round_trip 40 10000)) = [Some 9960; Some 9921]
  /\ match round_trip 40 10000 with Solidity.Done b _ => b = true | _ => False end.
Proof. repeat split; vm_compute; reflexivity. Qed.

Example mock_venue_six_permille_under :
  map Solidity.sc_minOut (outcome_trace (round_trip 60 10000)) = [9950]
  /\ map Solidity.sc_realized (outcome_trace (round_trip 60 10000)) = [None]
  /\ match round_trip 60 10000 with Solidity.Done b _ => b = false | _ => False end.
Proof. repeat split; vm_compute; reflexivity. Qed.

(** The floor [quoted * 9950 / 10000] against deliveries stated as
    proportions of the quote. *)
Lemma delivery_four_permille_under_passes (quoted d : Z) :
  0 <= quoted -> 996 * quoted <= 1000 * d ->
  quoted * (10000 - 50) / 10000 <= d.
Proof.
  intros Hq Hd. change (10000 - 50) with 9950.
  pose proof (Z.mul_div_le (quoted * 9950) 10000 ltac:(lia)). lia.
Qed.

Lemma delivery_six_permille_under_fails (quoted d : Z) :
  1000 <= quoted -> 1000 * d <= 994 * quoted ->
  d < quoted * (10000 - 50) / 10000.
Proof.
  intros Hq Hd. change (10000 - 50) with 9950.
  pose proof (Z.mul_succ_div_gt (quoted * 9950) 10000 ltac:(lia)). lia.
Qed.

(** C4, as the specification words it, fails on small amounts: at a
    quote of 500 the floor is 497, a delivery of 497 is exactly 0.6%
    under the quote, the hop is accepted and the run returns [true]. *)
Lemma exact_slippage_floor_fails : ~ exact_slippage_floor.
Proof.
  intros Hclaim.
  assert (H : 500 * 9950 <= 10000 * 497); [|lia].
  refine (match round_trip 60 500 as o return round_trip 60 500 = o -> _ with
          | Solidity.Done true s' => fun Hrun => _
          | Solidity.Done false s' => fun Hrun => _
          | Solidity.Reverted r tr => fun Hrun => _
          end eq_refl).
  - apply (Hclaim Mock.World (short_env 60) (Mock.storage 100) owner_call 1000 2000 500
             fresh_route (Mock.start (Mock.mkWorld [(1000, 500)] [])) s'
             (Solidity.mkSwapCall 10 1000 2000 500 500 497 (Some 497)) 497
             (mock_env_enforces_floor flat_quote (short_deliver 60) (fun _ => 0))
             (mock_env_approve_keeps_balances flat_quote (short_deliver 60) (fun _ => 0))
             Hrun).
    + vm_compute. left. reflexivity.
    + reflexivity.
  - vm_compute in Hrun. discriminate Hrun.
  - vm_compute in Hrun. discriminate Hrun.
Qed.

Example six_permille_under_a_quote_of_500_succeeds :
  map (fun h => (Solidity.sc_quoted h, Solidity.sc_minOut h, Solidity.sc_realized h))
      (outcome_trace (round_trip 60 500))
    = [(500, 497, Some 497); (497, 494, Some 495)]
  /\ 1000 * 497 = 994 * 500
  /\ match round_trip 60 500 with Solidity.Done b _ => b = true | _ => False end.
Proof. repeat split; vm_compute; reflexivity. Qed.

(** ** Execution orchestrator *)

(** C5. When the records of the trailing hour already number
    [maxExecutionsPerHour], [executeArbitrage] answers [false] without
    sending anything and leaves the history as it was, whatever the
    opportunity. *)
Theorem rate_limit_refuses_before_submission
    (cfg : ArbitrageManager.Config) (executionHistory : list ArbitrageManager.ExecutionRecord)
    (now now_route : Z) (opportunity : ArbitrageManager.Opportunity)
    (tx : ArbitrageManager.TxOutcome) :
  ArbitrageManager.maxExecutionsPerHour cfg
    <= ArbitrageManager.len (ArbitrageManager.recentExecutions executionHistory now) ->
  ArbitrageManager.executeArbitrage cfg executionHistory now now_route opportunity tx
  = ArbitrageManager.mkAttempt false executionHistory None.
Proof.
  intros Hfull. unfold ArbitrageManager.executeArbitrage.
  assert (Hall : ArbitrageManager.maxExecutionsPerHour cfg
                 <= ArbitrageManager.len executionHistory).
  { unfold ArbitrageManager.len, ArbitrageManager.recentExecutions in *.
    pose proof (filter_length_le
                  (fun e => now - 60 * 60 * 1000 <? ArbitrageManager.timestamp e)
                  executionHistory).
    lia. }
  apply Z.leb_le in Hfull, Hall. rewrite Hfull, Hall. reflexivity.
Qed.

Lemma rate_limit_refuses_before_submission_witness :
  ArbitrageManager.executeArbitrage sample_config
    [record_at 996000000; record_at 999000000; record_at 999900000]
    1000000000 1000000000 sample_opportunity
    (ArbitrageManager.Receipt "0xfeed" 1 1000012000)
  = ArbitrageManager.mkAttempt false
      [record_at 996000000; record_at 999000000; record_at 999900000] None.
Proof.
  apply rate_limit_refuses_before_submission. vm_compute. discriminate.
Defined.

(** Below the limit the same opportunity is sent and recorded. *)
Example below_rate_limit_executes :
  ArbitrageManager.result
    (ArbitrageManager.executeArbitrage sample_config
       [record_at 996000000; record_at 999900000]
       1000000000 1000000000 sample_opportunity
       (ArbitrageManager.Receipt "0xfeed" 1 1000012000)) = true.
Proof. vm_compute. reflexivity. Qed.

(** C8. When the scan loop picks up a pair at clock [now] and attempts
    an execution: after an attempt that succeeded the pair is skipped at
    every clock reading below [now + executionCooldown * 1000 + 5000];
    after an attempt that failed only the regular re-check interval
    applies, the pair is scanned again from [now + 5000] on. *)
Theorem cooldown_follows_successful_attempts_only
    (cfg : ArbitrageManager.Config) (executionHistory : list ArbitrageManager.ExecutionRecord)
    (now : Z) (pair : ArbitrageManager.WatchedPair) (res : ArbitrageManager.Opportunity)
    (now_exec now_route : Z) (tx : ArbitrageManager.TxOutcome) (later : Z) :
  ArbitrageManager.skipped now pair = false ->
  ArbitrageManager.profitable res = true ->
  PrimFloat.leb (ArbitrageManager.minProfitUSD cfg)
    (ArbitrageManager.estimatedProfitUSD res) = true ->
  PrimFloat.leb (ArbitrageManager.minProfitPercent cfg)
    (ArbitrageManager.profitPercent res) = true ->
  let attempt := ArbitrageManager.executeArbitrage cfg executionHistory now_exec now_route
                   res tx in
  let pair' := fst (ArbitrageManager.checkPair cfg executionHistory now pair (Some res)
                      now_exec now_route tx) in
  (ArbitrageManager.result attempt = true ->
     ArbitrageManager.lastChecked pair' = now + ArbitrageManager.executionCooldown cfg * 1000
     /\ (later < now + ArbitrageManager.executionCooldown cfg * 1000 + 5000 ->
         ArbitrageManager.skipped later pair' = true))
  /\ (ArbitrageManager.result attempt = false ->
      ArbitrageManager.lastChecked pair' = now
      /\ (now + 5000 <= later -> ArbitrageManager.skipped later pair' = false)).
Proof.
  intros Hscan Hprof Husd Hpct attempt pair'. subst attempt pair'.
  unfold ArbitrageManager.checkPair. rewrite Hscan, Hprof. cbn [ArbitrageManager.estimatedProfitUSD
    ArbitrageManager.profitPercent]. rewrite Husd, Hpct. cbn [andb].
  destruct (ArbitrageManager.result _) eqn:Hres; split; intros Hr; try discriminate.
  - cbn. split; [reflexivity|]. intros Hlater. unfold ArbitrageManager.skipped. cbn.
    apply Z.ltb_lt. lia.
  - cbn. split; [reflexivity|]. intros Hlater. unfold ArbitrageManager.skipped. cbn.
    apply Z.ltb_ge. lia.
Qed.

Lemma cooldown_follows_successful_attempts_only_witness :
  let pair' := fst (ArbitrageManager.checkPair sample_config [] 1000000000 WETH_USDC_pair
                      (Some sample_opportunity) 1000000100 1000000200
                      (ArbitrageManager.Receipt "0xfeed" 1 1000012000)) in
  ArbitrageManager.lastChecked pair' = 1000030000
  /\ ArbitrageManager.skipped 1000034999 pair' = true.
Proof.
  destruct (cooldown_follows_successful_attempts_only sample_config [] 1000000000
              WETH_USDC_pair sample_opportunity 1000000100 1000000200
              (ArbitrageManager.Receipt "0xfeed" 1 1000012000) 1000034999)
    as [Hsuccess _]; try (vm_compute; reflexivity).
  cbv zeta. destruct Hsuccess as [Hlast Hskip]; [vm_compute; reflexivity|].
  split; [exact Hlast | apply Hskip; vm_compute; reflexivity].
Defined.

(** C8, as the specification words it, fails for failed attempts: the
    attempt of clock 1000000000 failed (receipt status 0), the cooldown is
    30 seconds, and five seconds later the pair is scanned again. *)
Lemma failed_attempt_is_rescanned_within_cooldown :
  let scan := ArbitrageManager.checkPair sample_config [] 1000000000 WETH_USDC_pair
                (Some sample_opportunity) 1000000100 1000000200
                (ArbitrageManager.Receipt "0xdead" 0 1000012000) in
  ArbitrageManager.submitted
    (ArbitrageManager.executeArbitrage sample_config [] 1000000100 1000000200
       sample_opportunity (ArbitrageManager.Receipt "0xdead" 0 1000012000)) <> None
  /\ ArbitrageManager.executionCooldown sample_config * 1000 = 30000
  /\ ArbitrageManager.lastChecked (fst scan) = 1000000000
  /\ ArbitrageManager.skipped 1000005000 (fst scan) = false.
Proof.
  cbv zeta. repeat split; try (vm_compute; reflexivity). vm_compute. discriminate.
Qed.

(** ** Route enumeration *)

Section EnumerationFacts.

Import ArbitrageManager.

Variable cfg : Config.
Variable tokenList : list Token.
Variable getAmountsOut : nat -> Z -> string -> string -> option Z.
Variable tokA tokB : Token.

(** The innermost loop tests [i], which its body and its increment
    leave alone: once entered it uses up any amount of fuel. *)
Lemma threeHop_k_never_exits tokenC i : (i < dexes_length cfg)%nat ->
  forall fuel j k routes,
    threeHop_k cfg getAmountsOut tokA tokB fuel tokenC i j k routes = None.
Proof.
  intros Hi. apply Nat.ltb_lt in Hi.
  induction fuel as [|fuel IH]; intros; simpl; [reflexivity|].
  rewrite Hi. apply IH.
Qed.

Lemma threeHop_j_never_exits tokenC i : (i < dexes_length cfg)%nat ->
  forall fuel j routes,
    threeHop_j cfg getAmountsOut tokA tokB fuel tokenC i j routes = None.
Proof.
  intros Hi fuel j routes. destruct fuel as [|fuel]; simpl; [reflexivity|].
  rewrite (proj2 (Nat.ltb_lt _ _) Hi).
  rewrite threeHop_k_never_exits by exact Hi. reflexivity.
Qed.

Lemma threeHop_i_never_exits tokenC : (0 < dexes_length cfg)%nat ->
  forall fuel routes,
    threeHop_i cfg getAmountsOut tokA tokB fuel tokenC 0 routes = None.
Proof.
  intros Hn fuel routes. destruct fuel as [|fuel]; simpl; [reflexivity|].
  rewrite (proj2 (Nat.ltb_lt _ _) Hn).
  rewrite threeHop_j_never_exits by exact Hn. reflexivity.
Qed.

(** With a venue configured and a third token in the list, the 3-hop
    search has no answer for any amount of fuel. *)
Lemma threeHop_tokens_never_exits tokenC :
  (0 < dexes_length cfg)%nat ->
  In tokenC tokenList ->
  String.eqb (t_address tokenC) (t_address tokA) = false ->
  String.eqb (t_address tokenC) (t_address tokB) = false ->
  forall fuel routes,
    threeHop_tokens cfg getAmountsOut tokA tokB fuel tokenList routes = None.
Proof.
  intros Hn Hin HA HB fuel.
  induction tokenList as [|t rest IH]; intros routes; [contradiction|].
  simpl.
  destruct (String.eqb (t_address t) (t_address tokA)
            || String.eqb (t_address t) (t_address tokB)) eqn:E.
  - destruct Hin as [-> | Hin].
    + rewrite HA, HB in E. discriminate.
    + apply IH. exact Hin.
  - rewrite threeHop_i_never_exits by exact Hn. reflexivity.
Qed.

End EnumerationFacts.

(** C9 fails on the code. With [maxHops = 3], two venues and a third
    token DAI beside the watched pair WETH/USDC, the enumeration of
    [findBestArbitrageRoute] gives no answer within any number of loop
    iterations: the loops over [j] and [k] test [i]. *)
Theorem three_hop_enumeration_never_terminates (fuel : nat) :
  ArbitrageManager.findBestArbitrageRoute_routes sample_config
    [WETH_token; USDC_token; DAI_token] flat_quotes WETH_token USDC_token fuel
  = ArbitrageManager.OutOfFuel.
Proof.
  unfold ArbitrageManager.findBestArbitrageRoute_routes.
  change (ArbitrageManager.collectPrices flat_quotes WETH_token USDC_token
            (ArbitrageManager.dexes sample_config) 0) with [0%nat; 1%nat].
  cbn [List.length Nat.ltb Nat.leb].
  replace (ArbitrageManager.twoHop_i sample_config flat_quotes WETH_token USDC_token
             [0%nat; 1%nat] [0%nat; 1%nat] 0 [])
    with (Some (@nil ArbitrageManager.Route)) by (vm_compute; reflexivity).
  change (3 <=? ArbitrageManager.maxHops sample_config) with true. cbv iota.
  rewrite (threeHop_tokens_never_exits sample_config [WETH_token; USDC_token; DAI_token]
             flat_quotes WETH_token USDC_token DAI_token).
  - reflexivity.
  - vm_compute. lia.
  - simpl. auto.
  - reflexivity.
  - reflexivity.
Qed.

(** With [maxHops = 2] the same search returns: the 2-hop loops are
    bounded by the price list. *)
Example two_hop_enumeration_terminates :
  ArbitrageManager.findBestArbitrageRoute_routes
    (ArbitrageManager.mkConfig [true; true] 2 5%float 0.5%float 2 30)
    [WETH_token; USDC_token; DAI_token] flat_quotes WETH_token USDC_token 0
  = ArbitrageManager.ReturnsNull.
Proof. vm_compute. reflexivity. Qed.

(** The first iterations of the innermost loop do visit the venue
    triples (0,0,0), (0,0,1), and then go on with [k] past the list. *)
Example three_hop_first_iterations :
  ArbitrageManager.threeHop_body sample_config
    (fun i x a b => Some (x + 1)) WETH_token USDC_token DAI_token 0 0 1 []
  = [ArbitrageManager.mkRoute "3-hop" ["0xC02a"; "0x6B17"; "0xA0b8"; "0xC02a"]%string
       [0; 0; 1]%nat 1000000000000000000 1000000000000000003 3]
  /\ ArbitrageManager.threeHop_body sample_config
       (fun i x a b => Some (x + 1)) WETH_token USDC_token DAI_token 0 0 2 []
     = [].
Proof. split; vm_compute; reflexivity. Qed.

(* ===================================================================== *)
(** * Further properties of the modelled code *)
(* ===================================================================== *)

(** ** Administration of the contract *)

Section AdminFacts.

Import Solidity MultiDexArbitrageBot.
Local Open Scope Z_scope.

Lemma nth_error_assign_same {A} (l : list A) i x y :
  nth_error l i = Some y -> nth_error (assign l i x) i = Some x.
Proof.
  revert i. induction l as [|z l IH]; intros [|i] H; simpl in *; try discriminate.
  - reflexivity.
  - apply IH. exact H.
Qed.

Lemma nth_error_assign_other {A} (l : list A) i j x :
  i <> j -> nth_error (assign l i x) j = nth_error l j.
Proof.
  revert i j. induction l as [|z l IH]; intros [|i] [|j] H; simpl; try reflexivity.
  - contradiction.
  - apply IH. intros E. apply H. f_equal. exact E.
Qed.

Lemma length_assign {A} (l : list A) i x : List.length (assign l i x) = List.length l.
Proof.
  revert i. induction l as [|z l IH]; intros [|i]; simpl; try reflexivity.
  f_equal. apply IH.
Qed.

(** One applied call keeps every registered venue at its index. *)
Lemma admin_keeps_venues c m call c' log i d :
  admin c m call = Applied c' log ->
  nth_error (dexRouters c) i = Some d ->
  exists d', nth_error (dexRouters c') i = Some d' /\ same_venue d d'.
Proof.
  intros Happ Hd.
  assert (Hsame : exists d', nth_error (dexRouters c) i = Some d' /\ same_venue d d').
  { exists d. repeat split; auto. }
  destruct call; simpl in Happ.
  - unfold addDex in Happ. destruct (negb (value m =? 0)); [discriminate|].
    destruct (negb (owner c =? sender m)); [discriminate|].
    injection Happ as <- _. simpl. exists d. split; [|repeat split].
    rewrite nth_error_app1; [exact Hd|]. apply nth_error_Some. congruence.
  - unfold setDexStatus in Happ. destruct (negb (value m =? 0)); [discriminate|].
    destruct (negb (owner c =? sender m)); [discriminate|].
    destruct (negb (dexIndex <? dex_count c)); [discriminate|].
    destruct (nth_error (dexRouters c) (Z.to_nat dexIndex)) as [d0|] eqn:E; [|discriminate].
    injection Happ as <- _. simpl.
    destruct (Nat.eq_dec (Z.to_nat dexIndex) i) as [<- | Hne].
    + rewrite (nth_error_assign_same _ _ _ _ E). eexists. split; [reflexivity|].
      assert (d0 = d) by congruence. subst. repeat split.
    + rewrite nth_error_assign_other by exact Hne. exact Hsame.
  - unfold setActivePair in Happ. destruct (negb (value m =? 0)); [discriminate|].
    destruct (negb (owner c =? sender m)); [discriminate|].
    injection Happ as <- _. exact Hsame.
  - unfold updateParameters in Happ. destruct (negb (value m =? 0)); [discriminate|].
    destruct (negb (owner c =? sender m)); [discriminate|].
    injection Happ as <- _. exact Hsame.
  - unfold togglePause in Happ. destruct (negb (value m =? 0)); [discriminate|].
    destruct (negb (owner c =? sender m)); [discriminate|].
    injection Happ as <- _. exact Hsame.
Qed.

Lemma admin_keeps_symmetry c m call c' log :
  admin c m call = Applied c' log -> symmetric_pairs c -> symmetric_pairs c'.
Proof.
  intros Happ Hsym. destruct call; simpl in Happ.
  - unfold addDex in Happ. destruct (negb (value m =? 0)); [discriminate|].
    destruct (negb (owner c =? sender m)); [discriminate|].
    injection Happ as <- _. exact Hsym.
  - unfold setDexStatus in Happ. destruct (negb (value m =? 0)); [discriminate|].
    destruct (negb (owner c =? sender m)); [discriminate|].
    destruct (negb (dexIndex <? dex_count c)); [discriminate|].
    destruct (nth_error (dexRouters c) (Z.to_nat dexIndex)); [|discriminate].
    injection Happ as <- _. exact Hsym.
  - unfold setActivePair in Happ. destruct (negb (value m =? 0)); [discriminate|].
    destruct (negb (owner c =? sender m)); [discriminate|].
    injection Happ as <- _. intros a b. simpl.
    destruct (a =? tokenB) eqn:E1, (b =? tokenA) eqn:E2, (b =? tokenB) eqn:E3,
             (a =? tokenA) eqn:E4; simpl; try reflexivity; apply Hsym.
  - unfold updateParameters in Happ. destruct (negb (value m =? 0)); [discriminate|].
    destruct (negb (owner c =? sender m)); [discriminate|].
    injection Happ as <- _. exact Hsym.
  - unfold togglePause in Happ. destruct (negb (value m =? 0)); [discriminate|].
    destruct (negb (owner c =? sender m)); [discriminate|].
    injection Happ as <- _. exact Hsym.
Qed.

End AdminFacts.

(** X1. Venues are never deleted or moved: through any sequence of
    administrative transactions a registered venue keeps its index, its
    router, its factory and its name; only its active flag can change. *)
Theorem venues_keep_their_index
    (c : MultiDexArbitrageBot.Storage)
    (txs : list (MultiDexArbitrageBot.Msg * MultiDexArbitrageBot.AdminCall))
    (i : nat) (d : MultiDexArbitrageBot.DexRouter) :
  nth_error (MultiDexArbitrageBot.dexRouters c) i = Some d ->
  exists d',
    nth_error (MultiDexArbitrageBot.dexRouters (MultiDexArbitrageBot.administer c txs)) i
      = Some d'
    /\ same_venue d d'.
Proof.
  revert c d. induction txs as [|[m call] rest IH]; intros c d Hd; simpl.
  - exists d. repeat split; auto.
  - destruct (MultiDexArbitrageBot.admin c m call) as [c' log|reason] eqn:E.
    + destruct (admin_keeps_venues c m call c' log i d E Hd) as (d1 & Hd1 & r1 & f1 & n1).
      destruct (IH c' d1 Hd1) as (d2 & Hd2 & r2 & f2 & n2).
      exists d2. split; [exact Hd2|]. repeat split; congruence.
    + apply IH. exact Hd.
Qed.

Lemma venues_keep_their_index_witness :
  exists d',
    nth_error
      (MultiDexArbitrageBot.dexRouters
         (MultiDexArbitrageBot.administer (Mock.storage 100)
            [ (owner_call, MultiDexArbitrageBot.SetDexStatus 1 false);
              (owner_call, MultiDexArbitrageBot.AddDex "DexC" 12 22) ])) 1
      = Some d'
    /\ same_venue (MultiDexArbitrageBot.mkDex 11 21 "DexB" true) d'.
Proof.
  apply (venues_keep_their_index (Mock.storage 100)). reflexivity.
Defined.

(** X2. The pair policy is symmetric in every state reached from
    deployment by administrative transactions. *)
Theorem active_pairs_stay_symmetric
    (deployer pool self : Solidity.address)
    (txs : list (MultiDexArbitrageBot.Msg * MultiDexArbitrageBot.AdminCall)) :
  symmetric_pairs
    (MultiDexArbitrageBot.administer
       (MultiDexArbitrageBot.constructor deployer pool self) txs).
Proof.
  assert (Hgen : forall c, symmetric_pairs c ->
                           symmetric_pairs (MultiDexArbitrageBot.administer c txs)).
  { induction txs as [|[m call] rest IH]; intros c Hc; simpl; [exact Hc|].
    destruct (MultiDexArbitrageBot.admin c m call) as [c' log|reason] eqn:E.
    - apply IH. eapply admin_keeps_symmetry; eauto.
    - apply IH. exact Hc. }
  apply Hgen. intros a b. reflexivity.
Qed.

Example registry_setup_activates_both_directions :
  let c := MultiDexArbitrageBot.administer (MultiDexArbitrageBot.constructor 1 900 7)
             registry_setup in
  MultiDexArbitrageBot.activePairs c 1000 2000 = true
  /\ MultiDexArbitrageBot.activePairs c 2000 1000 = true
  /\ MultiDexArbitrageBot.activePairs c 1000 3000 = false
  /\ List.length (MultiDexArbitrageBot.dexRouters c) = 2%nat.
Proof. repeat split. Qed.

(** X3. A caller who is not the owner changes nothing: every
    administrative function, [executeArbitrage] and [rescueERC20], called
    without value as these functions are not payable, and
    [executeArbitrageWithNative], with or without value, revert with the
    [Ownable] reason, before any swap call. *)
Theorem only_the_owner_acts
    W (env : MultiDexArbitrageBot.Env W) c m mn call tokenA tokenB amountIn route token s :
  MultiDexArbitrageBot.value m = 0 ->
  MultiDexArbitrageBot.owner c <> MultiDexArbitrageBot.sender m ->
  MultiDexArbitrageBot.owner c <> MultiDexArbitrageBot.sender mn ->
  MultiDexArbitrageBot.admin c m call
    = MultiDexArbitrageBot.Refused "Ownable: caller is not the owner"
  /\ MultiDexArbitrageBot.executeArbitrage W env c m tokenA tokenB amountIn route s
     = Solidity.Reverted "Ownable: caller is not the owner" (Solidity.trace s)
  /\ MultiDexArbitrageBot.executeArbitrageWithNative W env c mn tokenB route s
     = Solidity.Reverted "Ownable: caller is not the owner" (Solidity.trace s)
  /\ MultiDexArbitrageBot.rescueERC20 W env c m token s
     = Solidity.Reverted "Ownable: caller is not the owner" (Solidity.trace s).
Proof.
  intros Hv Hne Hnen. apply Z.eqb_neq in Hne, Hnen.
  repeat split.
  - destruct call; simpl;
      unfold MultiDexArbitrageBot.addDex, MultiDexArbitrageBot.setDexStatus,
        MultiDexArbitrageBot.setActivePair, MultiDexArbitrageBot.updateParameters,
        MultiDexArbitrageBot.togglePause; rewrite Hv, Hne; reflexivity.
  - unfold MultiDexArbitrageBot.executeArbitrage, MultiDexArbitrageBot.nonpayable,
      MultiDexArbitrageBot.onlyOwner_nonReentrant, Solidity.bind.
    rewrite Hv, Hne. reflexivity.
  - unfold MultiDexArbitrageBot.executeArbitrageWithNative,
      MultiDexArbitrageBot.onlyOwner_nonReentrant, Solidity.bind. rewrite Hnen. reflexivity.
  - unfold MultiDexArbitrageBot.rescueERC20, MultiDexArbitrageBot.nonpayable, Solidity.bind.
    rewrite Hv, Hne. reflexivity.
Qed.

Lemma only_the_owner_acts_witness :
  MultiDexArbitrageBot.admin (Mock.storage 100) stranger_call MultiDexArbitrageBot.TogglePause
    = MultiDexArbitrageBot.Refused "Ownable: caller is not the owner"
  /\ MultiDexArbitrageBot.executeArbitrage Mock.World generous_env (Mock.storage 100)
       stranger_call 1000 2000 1999 fresh_route (Mock.start (Mock.mkWorld [] []))
     = Solidity.Reverted "Ownable: caller is not the owner" []
  /\ MultiDexArbitrageBot.executeArbitrageWithNative Mock.World generous_env
       (Mock.storage 100) stranger_call_with_value 2000 fresh_route
       (Mock.start (Mock.mkWorld [] []))
     = Solidity.Reverted "Ownable: caller is not the owner" []
  /\ MultiDexArbitrageBot.rescueERC20 Mock.World generous_env (Mock.storage 100)
       stranger_call 1000 (Mock.start (Mock.mkWorld [] []))
     = Solidity.Reverted "Ownable: caller is not the owner" [].
Proof.
  apply (only_the_owner_acts Mock.World generous_env (Mock.storage 100) stranger_call
           stranger_call_with_value
           MultiDexArbitrageBot.TogglePause 1000 2000 1999 fresh_route 1000
           (Mock.start (Mock.mkWorld [] []))).
  - reflexivity.
  - discriminate.
  - discriminate.
Defined.

(** Value sent to a function that is not payable: the call reverts
    without reason data, whoever sends it. *)
Lemma value_sent_to_a_nonpayable_function_reverts
    W (env : MultiDexArbitrageBot.Env W) c m call tokenA tokenB amountIn route token
    asset amount premium initiator params s :
  MultiDexArbitrageBot.value m <> 0 ->
  MultiDexArbitrageBot.admin c m call = MultiDexArbitrageBot.Refused EmptyString
  /\ MultiDexArbitrageBot.executeArbitrage W env c m tokenA tokenB amountIn route s
     = Solidity.Reverted EmptyString (Solidity.trace s)
  /\ MultiDexArbitrageBot.executeOperation W env c m asset amount premium initiator params s
     = Solidity.Reverted EmptyString (Solidity.trace s)
  /\ MultiDexArbitrageBot.rescueERC20 W env c m token s
     = Solidity.Reverted EmptyString (Solidity.trace s).
Proof.
  intros Hv. apply Z.eqb_neq in Hv.
  repeat split.
  - destruct call; simpl;
      unfold MultiDexArbitrageBot.addDex, MultiDexArbitrageBot.setDexStatus,
        MultiDexArbitrageBot.setActivePair, MultiDexArbitrageBot.updateParameters,
        MultiDexArbitrageBot.togglePause; rewrite Hv; reflexivity.
  - unfold MultiDexArbitrageBot.executeArbitrage, MultiDexArbitrageBot.nonpayable,
      Solidity.bind. rewrite Hv. reflexivity.
  - unfold MultiDexArbitrageBot.executeOperation, MultiDexArbitrageBot.nonpayable,
      Solidity.bind. rewrite Hv. reflexivity.
  - unfold MultiDexArbitrageBot.rescueERC20, MultiDexArbitrageBot.nonpayable, Solidity.bind.
    rewrite Hv. reflexivity.
Qed.

(** ** Preconditions of the execution entry points *)

Section PreconditionFacts.

Import Solidity MultiDexArbitrageBot.
Local Open Scope sol_scope.
Local Open Scope Z_scope.

Variable W : Type.
Variable env : Env W.
Variable c : Storage.

Lemma view_nonpayable m : view (nonpayable W m).
Proof. unfold nonpayable. view_walk. Qed.

Lemma view_onlyOwner_nonReentrant m : view (onlyOwner_nonReentrant W c m).
Proof. unfold onlyOwner_nonReentrant. view_walk. Qed.

Lemma view_executeArbitrage_requires m tokenA tokenB route :
  view (executeArbitrage_requires W c m tokenA tokenB route).
Proof. unfold executeArbitrage_requires. view_walk. Qed.

Lemma view_executeArbitrageWithNative_requires m tokenB route :
  view (executeArbitrageWithNative_requires W env c m tokenB route).
Proof. unfold executeArbitrageWithNative_requires. view_walk. Qed.

Lemma nonpayable_Done m s u s' :
  nonpayable W m s = Done u s' -> value m = 0 /\ s' = s.
Proof.
  intros H. unfold nonpayable in H. apply require_Done in H as [Hv ->].
  apply Z.eqb_eq in Hv. auto.
Qed.

(** The callback of a loan that somebody other than the owner asked the
    pool for stops at its second statement. *)
Lemma flashLoanSimple_needs_the_owner m caller asset amount params s :
  caller <> owner c ->
  exists reason,
    flashLoanSimple W env c m caller asset amount params s = Reverted reason (trace s).
Proof.
  intros Hne. apply Z.eqb_neq in Hne.
  unfold flashLoanSimple, bind, get_world.
  destruct (pool_lend env (world s) asset amount) as [[w' premium]|];
    [|eexists; reflexivity].
  unfold set_world, executeOperation, nonpayable, bind. cbn.
  rewrite Z.eqb_refl, Hne. cbn. eexists. reflexivity.
Qed.

Lemma onlyOwner_nonReentrant_Done m s u s' :
  onlyOwner_nonReentrant W c m s = Done u s' ->
  owner c = sender m /\ _entered c = false /\ s' = s.
Proof.
  intros H. unfold onlyOwner_nonReentrant in H.
  bind_inv H as u1 s1 H1. apply require_Done in H1 as [Ho ->].
  apply require_Done in H as [He ->].
  apply Z.eqb_eq in Ho. apply negb_true_iff in He. auto.
Qed.

Lemma executeArbitrage_requires_Done m tokenA tokenB route s u s' :
  executeArbitrage_requires W c m tokenA tokenB route s = Done u s' ->
  s' = s
  /\ timestamp route <= block_timestamp m
  /\ block_timestamp m - timestamp route < 2 * 60
  /\ _paused c = false
  /\ tokenA <> tokenB
  /\ activePairs c tokenA tokenB = true
  /\ gasprice m <= maxGasPrice c.
Proof.
  intros H. unfold executeArbitrage_requires in H.
  bind_inv H as age s1 H1. apply checked_sub_Done in H1 as (-> & -> & Hpast).
  bind_inv H as u2 s2 H2. apply require_Done in H2 as [Hage ->].
  bind_inv H as u3 s3 H3. apply require_Done in H3 as [Hp ->].
  bind_inv H as u4 s4 H4. apply require_Done in H4 as [Hne ->].
  bind_inv H as u5 s5 H5. apply require_Done in H5 as [Hact ->].
  bind_inv H as deadline s6 H6. apply checked_add_Done in H6 as (-> & -> & _).
  bind_inv H as u7 s7 H7. apply require_Done in H7 as [_ ->].
  apply require_Done in H as [Hgas ->].
  apply Z.ltb_lt in Hage. apply negb_true_iff in Hp, Hne.
  apply Z.eqb_neq in Hne. apply Z.leb_le in Hgas. auto 10.
Qed.

Lemma executeArbitrageWithNative_requires_Done m tokenB route s dex0 s' :
  executeArbitrageWithNative_requires W env c m tokenB route s = Done dex0 s' ->
  s' = s
  /\ _paused c = false
  /\ 0 < value m
  /\ nth_error (dexRouters c) 0 = Some dex0
  /\ activePairs c (WETH env (world s) (router dex0)) tokenB = true
  /\ block_timestamp m <= timestamp route + 5 * 60
  /\ gasprice m <= maxGasPrice c.
Proof.
  intros H. unfold executeArbitrageWithNative_requires in H.
  bind_inv H as u1 s1 H1. apply require_Done in H1 as [Hp ->].
  bind_inv H as u2 s2 H2. apply require_Done in H2 as [Hv ->].
  bind_inv H as d s3 H3.
  assert (Hd : nth_error (dexRouters c) 0 = Some d /\ s3 = s).
  { unfold index in H3. destruct (nth_error (dexRouters c) 0); [|discriminate].
    apply ret_Done in H3 as [-> ->]. auto. }
  destruct Hd as [Hd ->]. clear H3.
  bind_inv H as w s4 H4. unfold get_world in H4. injection H4 as <- <-.
  bind_inv H as u5 s5 H5. apply require_Done in H5 as [Hact ->].
  bind_inv H as deadline s6 H6. apply checked_add_Done in H6 as (-> & -> & _).
  bind_inv H as u7 s7 H7. apply require_Done in H7 as [Hfresh ->].
  bind_inv H as u8 s8 H8. apply require_Done in H8 as [Hgas ->].
  apply ret_Done in H as [-> ->].
  apply negb_true_iff in Hp. apply Z.ltb_lt in Hv.
  apply Z.leb_le in Hfresh, Hgas. auto 10.
Qed.

End PreconditionFacts.

(** X4. [executeArbitrage] reverts, before any swap call, unless it is
    called without value, by the owner, outside a running call, with the
    contract not paused, two different tokens, an active pair, a route
    stamped less than 120 seconds ago, a gas price within [maxGasPrice],
    and the contract is its own owner: the pool hands the address of its
    caller, this contract, to the callback as initiator, and the callback
    insists on the owner. *)
Theorem executeArbitrage_needs_its_preconditions
    W (env : MultiDexArbitrageBot.Env W) c m tokenA tokenB amountIn route s :
  ~ (MultiDexArbitrageBot.value m = 0
     /\ MultiDexArbitrageBot.owner c = MultiDexArbitrageBot.sender m
     /\ MultiDexArbitrageBot._entered c = false
     /\ MultiDexArbitrageBot._paused c = false
     /\ tokenA <> tokenB
     /\ MultiDexArbitrageBot.activePairs c tokenA tokenB = true
     /\ MultiDexArbitrageBot.timestamp route <= MultiDexArbitrageBot.block_timestamp m
     /\ MultiDexArbitrageBot.block_timestamp m - MultiDexArbitrageBot.timestamp route < 2 * 60
     /\ MultiDexArbitrageBot.gasprice m <= MultiDexArbitrageBot.maxGasPrice c
     /\ MultiDexArbitrageBot.this c = MultiDexArbitrageBot.owner c) ->
  exists reason,
    MultiDexArbitrageBot.executeArbitrage W env c m tokenA tokenB amountIn route s
    = Solidity.Reverted reason (Solidity.trace s).
Proof.
  intros Hnot. unfold MultiDexArbitrageBot.executeArbitrage, Solidity.bind.
  pose proof (view_nonpayable W m s) as V0.
  destruct (MultiDexArbitrageBot.nonpayable W m s) as [u0 s0 | r tr] eqn:E0;
    subst; [|eauto].
  apply nonpayable_Done in E0 as [Hv _].
  pose proof (view_onlyOwner_nonReentrant W c m s) as V1.
  destruct (MultiDexArbitrageBot.onlyOwner_nonReentrant W c m s) as [u1 s1 | r tr] eqn:E1;
    subst; [|eauto].
  apply onlyOwner_nonReentrant_Done in E1 as (Ho & He & _).
  pose proof (view_executeArbitrage_requires W c m tokenA tokenB route s) as V2.
  destruct (MultiDexArbitrageBot.executeArbitrage_requires W c m tokenA tokenB route s)
    as [u2 s2 | r tr] eqn:E2; subst; [|eauto].
  apply executeArbitrage_requires_Done in E2 as (_ & Hpast & Hage & Hp & Hne & Hact & Hgas).
  apply flashLoanSimple_needs_the_owner.
  intros Hthis. apply Hnot. auto 12.
Qed.

Lemma executeArbitrage_needs_its_preconditions_witness :
  exists reason,
    MultiDexArbitrageBot.executeArbitrage Mock.World generous_env (Mock.storage 100)
      owner_call 1000 2000 1999 route_200s_old (Mock.start (Mock.mkWorld [] []))
    = Solidity.Reverted reason [].
Proof.
  apply (executeArbitrage_needs_its_preconditions Mock.World generous_env
           (Mock.storage 100) owner_call 1000 2000 1999 route_200s_old
           (Mock.start (Mock.mkWorld [] []))).
  intros (_ & _ & _ & _ & _ & _ & _ & Hage & _). vm_compute in Hage. discriminate Hage.
Defined.

(** With every guard of the entry point passed, a deployment owned by an
    outside account still reverts: the initiator the pool reports is the
    contract. *)
Example executeArbitrage_of_an_owned_deployment_reverts :
  MultiDexArbitrageBot.this (Mock.storage 100) <> MultiDexArbitrageBot.owner (Mock.storage 100)
  /\ MultiDexArbitrageBot.executeArbitrage Mock.World generous_env (Mock.storage 100)
       owner_call 1000 2000 1999 fresh_route (Mock.start (Mock.mkWorld [] []))
     = Solidity.Reverted "Initiator is not owner" [].
Proof. split; [discriminate | vm_compute; reflexivity]. Qed.

(** X5. [executeArbitrageWithNative] goes through only for the owner,
    outside a running call, with the contract not paused, some value
    sent, a first venue registered whose WETH forms an active pair with
    [tokenB], a route stamped at most 300 seconds ago and a gas price
    within [maxGasPrice]. *)
Theorem executeArbitrageWithNative_needs_its_preconditions
    W (env : MultiDexArbitrageBot.Env W) c m tokenB route s u s' :
  MultiDexArbitrageBot.executeArbitrageWithNative W env c m tokenB route s
    = Solidity.Done u s' ->
  MultiDexArbitrageBot.owner c = MultiDexArbitrageBot.sender m
  /\ MultiDexArbitrageBot._entered c = false
  /\ MultiDexArbitrageBot._paused c = false
  /\ 0 < MultiDexArbitrageBot.value m
  /\ (exists dex0,
        nth_error (MultiDexArbitrageBot.dexRouters c) 0 = Some dex0
        /\ MultiDexArbitrageBot.activePairs c
             (MultiDexArbitrageBot.WETH env (Solidity.world s)
                (MultiDexArbitrageBot.router dex0)) tokenB = true)
  /\ MultiDexArbitrageBot.block_timestamp m <= MultiDexArbitrageBot.timestamp route + 5 * 60
  /\ MultiDexArbitrageBot.gasprice m <= MultiDexArbitrageBot.maxGasPrice c.
Proof.
  intros H. unfold MultiDexArbitrageBot.executeArbitrageWithNative in H.
  bind_inv H as u1 s1 H1. apply onlyOwner_nonReentrant_Done in H1 as (Ho & He & ->).
  bind_inv H as dex0 s2 H2.
  apply executeArbitrageWithNative_requires_Done in H2
    as (_ & Hp & Hv & Hd & Hact & Hfresh & Hgas).
  repeat split; try assumption. exists dex0. auto.
Qed.

Lemma executeArbitrageWithNative_needs_its_preconditions_witness :
  MultiDexArbitrageBot.owner (Mock.storage 100) = 1
  /\ MultiDexArbitrageBot._entered (Mock.storage 100) = false
  /\ MultiDexArbitrageBot._paused (Mock.storage 100) = false
  /\ 0 < 1000000
  /\ (exists dex0,
        nth_error (MultiDexArbitrageBot.dexRouters (Mock.storage 100)) 0 = Some dex0
        /\ MultiDexArbitrageBot.activePairs (Mock.storage 100)
             (MultiDexArbitrageBot.WETH (strict_env 60)
                (Mock.mkWorld [] []) (MultiDexArbitrageBot.router dex0)) 2000 = true)
  /\ 1000000 <= MultiDexArbitrageBot.timestamp native_route + 5 * 60
  /\ 5 <= MultiDexArbitrageBot.maxGasPrice (Mock.storage 100).
Proof.
  refine (match refund_run as o return refund_run = o -> _ with
          | Solidity.Done u s' => fun Hrun =>
              executeArbitrageWithNative_needs_its_preconditions Mock.World
                (strict_env 60) (Mock.storage 100) native_call 2000 native_route
                (Mock.start (Mock.mkWorld [] [])) u s' Hrun
          | Solidity.Reverted r tr => fun Hrun => _
          end eq_refl).
  vm_compute in Hrun. discriminate Hrun.
Defined.

(** ** Venue selection and simulation *)

Section VenueChoiceFacts.

Import Solidity MultiDexArbitrageBot.
Local Open Scope sol_scope.
Local Open Scope Z_scope.

Variable W : Type.
Variable env : Env W.
Variable c : Storage.

Lemma view_try_call {A} (m : M W A) : view m -> view (try_call m).
Proof.
  intros Hm s. unfold try_call. specialize (Hm s).
  destruct (m s) as [a s1 | r tr]; subst; [reflexivity | destruct s; reflexivity].
Qed.

Lemma view_getBestOutputForSwap_loop routers : forall i fromToken toToken amount best,
  view (getBestOutputForSwap_loop W env routers i fromToken toToken amount best).
Proof.
  induction routers as [|d rest IH]; intros; simpl.
  - view_walk.
  - apply view_bind; [view_walk | intros].
    destruct (i + 1 <? uint8_limit); [apply IH | auto with view].
Qed.

Lemma view_simulateArbitrage_loop route indices : forall i currentToken currentAmount,
  view (simulateArbitrage_loop W env c route indices i currentToken currentAmount).
Proof.
  induction indices as [|dexIndex rest IH]; intros; simpl.
  - view_walk.
  - destruct (dex_count c <=? dexIndex); [view_walk|].
    apply view_bind; [auto with view | intros dex].
    destruct (negb (active dex)); [view_walk|].
    apply view_bind; [auto with view | intros nextToken].
    apply view_bind; [auto with view | intros w].
    destruct (getAmountsOut env w (router dex) currentAmount [currentToken; nextToken]);
      [|view_walk].
    apply view_bind; [auto with view | intros out].
    destruct (out =? 0); [view_walk | apply IH].
Qed.

Lemma view_simulateArbitrage_holds m tokenA tokenB amountIn route :
  view (simulateArbitrage W env c m tokenA tokenB amountIn route).
Proof.
  unfold simulateArbitrage.
  apply view_bind;
    [destruct (0 <? List.length (path route))%nat; [apply view_ret | apply view_revert]
    | intros _].
  apply view_bind; [apply view_simulateArbitrage_loop | intros r].
  destruct r as [[currentToken currentAmount]|]; [|view_walk].
  destruct (tokenA =? tokenB); [view_walk|].
  apply view_bind; [apply view_try_call, view_getBestOutputForSwap_loop | intros best].
  destruct best; view_walk.
Qed.

(** *** The scan keeps the best quote and the first venue that gave it *)

Lemma nth_error_snoc_cases {A} (l : list A) (x y : A) j :
  nth_error (l ++ [x]) j = Some y ->
  ((j < List.length l)%nat /\ nth_error l j = Some y) \/ (j = List.length l /\ y = x).
Proof.
  intros H. destruct (Nat.lt_ge_cases j (List.length l)) as [Hlt | Hge].
  - left. rewrite nth_error_app1 in H by exact Hlt. auto.
  - right. rewrite nth_error_app2 in H by exact Hge.
    destruct (j - List.length l)%nat as [|k] eqn:E; cbn in H.
    + injection H as <-. split; [lia | reflexivity].
    + destruct k; discriminate.
Qed.

Lemma best_so_far_nil quote : best_so_far quote [] (0, 0).
Proof.
  split; [cbn; lia|]. split.
  - intros j d out Hj. destruct j; discriminate.
  - cbn. lia.
Qed.

Lemma best_so_far_unquoted quote seen d best :
  quote d = None -> best_so_far quote seen best -> best_so_far quote (seen ++ [d]) best.
Proof.
  intros Hq (H0 & Hall & Hbest). split; [exact H0|]. split.
  - intros j d0 out Hj Hq0.
    apply nth_error_snoc_cases in Hj as [[_ Hj] | [_ ->]]; [eauto | congruence].
  - intros Hpos. destruct (Hbest Hpos) as (Hi & (d0 & Hd0 & Hq0) & Hfirst).
    split; [exact Hi|]. split.
    + exists d0. split; [|exact Hq0].
      rewrite nth_error_app1; [exact Hd0 | apply nth_error_Some; congruence].
    + intros j d1 out Hlt Hj Hq1.
      apply nth_error_snoc_cases in Hj as [[_ Hj] | [_ ->]]; [eauto | congruence].
Qed.

Lemma best_so_far_quoted quote seen d out best :
  quote d = Some out -> best_so_far quote seen best ->
  best_so_far quote (seen ++ [d])
    (if fst best <? out then (out, Z.of_nat (List.length seen)) else best).
Proof.
  intros Hq (H0 & Hall & Hbest). destruct (fst best <? out) eqn:E.
  - apply Z.ltb_lt in E. unfold best_so_far. cbn [fst snd]. split; [lia|]. split.
    + intros j d0 out0 Hj Hq0.
      apply nth_error_snoc_cases in Hj as [[_ Hj] | [_ ->]].
      * specialize (Hall _ _ _ Hj Hq0). lia.
      * assert (out0 = out) by congruence. lia.
    + intros _. split; [lia|]. rewrite Nat2Z.id. split.
      * exists d. split; [|exact Hq].
        rewrite nth_error_app2, Nat.sub_diag by lia. reflexivity.
      * intros j d0 out0 Hlt Hj Hq0.
        apply nth_error_snoc_cases in Hj as [[_ Hj] | [-> _]]; [|lia].
        specialize (Hall _ _ _ Hj Hq0). lia.
  - apply Z.ltb_ge in E. split; [exact H0|]. split.
    + intros j d0 out0 Hj Hq0.
      apply nth_error_snoc_cases in Hj as [[_ Hj] | [_ ->]]; [eauto|].
      assert (out0 = out) by congruence. lia.
    + intros Hpos. destruct (Hbest Hpos) as (Hi & (d0 & Hd0 & Hq0) & Hfirst).
      assert (Hin : (Z.to_nat (snd best) < List.length seen)%nat)
        by (apply nth_error_Some; congruence).
      split; [exact Hi|]. split.
      * exists d0. split; [|exact Hq0]. rewrite nth_error_app1; assumption.
      * intros j d1 out1 Hlt Hj Hq1.
        apply nth_error_snoc_cases in Hj as [[_ Hj] | [-> _]]; [eauto | lia].
Qed.

Lemma findBestDexForSwap_loop_Done routers :
  forall seen best fromToken toToken amount s b s',
  best_so_far (venue_quote env (world s) fromToken toToken amount) seen best ->
  findBestDexForSwap_loop W env routers (Z.of_nat (List.length seen))
    fromToken toToken amount best s = Done b s' ->
  s' = s
  /\ best_so_far (venue_quote env (world s) fromToken toToken amount) (seen ++ routers) b.
Proof.
  induction routers as [|d rest IH]; intros seen best f t a s b s' Hinv H.
  - apply ret_Done in H as [-> ->]. rewrite app_nil_r. auto.
  - cbn [findBestDexForSwap_loop] in H.
    bind_inv H as best1 s1 H1.
    assert (Hpass : s1 = s
                    /\ best_so_far (venue_quote env (world s) f t a) (seen ++ [d]) best1).
    { destruct (active d) eqn:Ha; cbn [negb] in H1.
      - bind_inv H1 as w s2 H2. unfold get_world in H2. injection H2 as <- <-.
        destruct (getAmountsOut env (world s) (router d) a (getPathForTokenToToken f t))
          as [amounts|] eqn:Hq.
        + bind_inv H1 as last s3 H3. apply checked_sub_Done in H3 as (-> & -> & Hlen).
          bind_inv H1 as out s4 H4. unfold index in H4.
          destruct (nth_error amounts (Z.to_nat (Z.of_nat (List.length amounts) - 1)))
            as [o|] eqn:Ho; [|discriminate].
          apply ret_Done in H4 as [-> ->]. apply ret_Done in H1 as [-> ->].
          split; [reflexivity|]. apply best_so_far_quoted; [|exact Hinv].
          unfold venue_quote. rewrite Ha, Hq, <- Ho. f_equal. lia.
        + apply ret_Done in H1 as [-> ->]. split; [reflexivity|].
          apply best_so_far_unquoted; [|exact Hinv].
          unfold venue_quote. rewrite Ha, Hq. reflexivity.
      - apply ret_Done in H1 as [-> ->]. split; [reflexivity|].
        apply best_so_far_unquoted; [|exact Hinv].
        unfold venue_quote. rewrite Ha. reflexivity. }
    destruct Hpass as [-> Hinv1].
    destruct (Z.of_nat (List.length seen) + 1 <? uint8_limit); [|discriminate].
    replace (Z.of_nat (List.length seen) + 1)
      with (Z.of_nat (List.length (seen ++ [d]))) in H
      by (rewrite length_app; cbn; lia).
    apply IH in H; [|exact Hinv1]. rewrite <- app_assoc in H. exact H.
Qed.

(** The two scans differ only in what they carry along. *)
Lemma scans_agree routers : forall i fromToken toToken amount best s,
  getBestOutputForSwap_loop W env routers i fromToken toToken amount (fst best) s =
  match findBestDexForSwap_loop W env routers i fromToken toToken amount best s with
  | Done b s' => Done (fst b) s'
  | Reverted r tr => Reverted r tr
  end.
Proof.
  induction routers as [|d rest IH]; intros i f t a best s.
  - reflexivity.
  - cbn [getBestOutputForSwap_loop findBestDexForSwap_loop]. unfold bind.
    destruct (negb (active d)).
    + cbn. destruct (i + 1 <? _); [apply IH | reflexivity].
    + unfold get_world.
      destruct (getAmountsOut env (world s) (router d) a (getPathForTokenToToken f t))
        as [amounts|].
      * unfold checked_sub. destruct (1 <=? Z.of_nat (List.length amounts)); cbn;
          [|reflexivity].
        unfold index.
        destruct (nth_error amounts (Z.to_nat (Z.of_nat (List.length amounts) - 1)))
          as [out|]; cbn; [|reflexivity].
        destruct (i + 1 <? _); [|reflexivity].
        destruct (fst best <? out); [apply (IH _ _ _ _ (out, i)) | apply IH].
      * cbn. destruct (i + 1 <? _); [apply IH | reflexivity].
Qed.

Lemma findBestDexForSwap_Done fromToken toToken amount s idx s' :
  findBestDexForSwap W env c fromToken toToken amount s = Done idx s' ->
  s' = s
  /\ exists out, 0 < out
       /\ findBestDexForSwap_loop W env (dexRouters c) 0 fromToken toToken amount (0, 0) s
          = Done (out, idx) s
       /\ best_so_far (venue_quote env (world s) fromToken toToken amount)
            (dexRouters c) (out, idx).
Proof.
  intros H. unfold findBestDexForSwap in H.
  bind_inv H as best s1 H1.
  pose proof H1 as Hloop.
  apply (findBestDexForSwap_loop_Done (dexRouters c) []) in H1;
    [|apply best_so_far_nil].
  destruct H1 as [-> Hinv]. cbn [app] in Hinv.
  bind_inv H as u s2 H2. apply require_Done in H2 as [Hpos ->].
  apply ret_Done in H as [-> ->]. apply Z.ltb_lt in Hpos.
  split; [reflexivity|]. exists (fst best). destruct best as [out i]. auto.
Qed.

Lemma getBestOutputForSwap_Done fromToken toToken amount s v s' :
  getBestOutputForSwap W env c fromToken toToken amount s = Done v s' ->
  s' = s
  /\ exists i,
       findBestDexForSwap_loop W env (dexRouters c) 0 fromToken toToken amount (0, 0) s
       = Done (v, i) s
       /\ best_so_far (venue_quote env (world s) fromToken toToken amount)
            (dexRouters c) (v, i).
Proof.
  intros H. unfold getBestOutputForSwap in H.
  pose proof (scans_agree (dexRouters c) 0 fromToken toToken amount (0, 0) s) as E.
  cbn [fst] in E. rewrite E in H. clear E.
  destruct (findBestDexForSwap_loop W env (dexRouters c) 0 fromToken toToken amount
              (0, 0) s) as [b s1 | r tr] eqn:Hloop; [|discriminate].
  injection H as <- <-.
  pose proof Hloop as Hinv.
  apply (findBestDexForSwap_loop_Done (dexRouters c) []) in Hinv;
    [|apply best_so_far_nil].
  destruct Hinv as [-> Hinv]. cbn [app] in Hinv.
  split; [reflexivity|]. destruct b as [v i]. exists i. auto.
Qed.

(** *** The 8-bit counter of the scans *)

Lemma findBestDexForSwap_loop_Reverted routers : forall i fromToken toToken amount best s r tr,
  findBestDexForSwap_loop W env routers i fromToken toToken amount best s = Reverted r tr ->
  r = "Panic(0x11)"%string /\ tr = trace s.
Proof.
  induction routers as [|d rest IH]; intros i f t a best s r tr H.
  - discriminate.
  - cbn [findBestDexForSwap_loop] in H. unfold bind in H.
    destruct (negb (active d)).
    + cbn in H. destruct (i + 1 <? _); [eauto|].
      injection H as <- <-. auto.
    + unfold get_world in H.
      destruct (getAmountsOut env (world s) (router d) a (getPathForTokenToToken f t))
        as [amounts|].
      * unfold checked_sub in H.
        destruct (1 <=? Z.of_nat (List.length amounts)) eqn:Hlen; cbn in H;
          [|injection H as <- <-; auto].
        unfold index in H.
        destruct (nth_error amounts (Z.to_nat (Z.of_nat (List.length amounts) - 1)))
          as [out|] eqn:Ho; cbn in H.
        -- destruct (i + 1 <? _); [eauto|]. injection H as <- <-. auto.
        -- exfalso. apply nth_error_None in Ho. apply Z.leb_le in Hlen. lia.
      * cbn in H. destruct (i + 1 <? _); [eauto|].
        injection H as <- <-. auto.
Qed.

Lemma findBestDexForSwap_loop_overflow routers : forall i fromToken toToken amount best s,
  i < uint8_limit <= i + Z.of_nat (List.length routers) ->
  findBestDexForSwap_loop W env routers i fromToken toToken amount best s
  = Reverted "Panic(0x11)" (trace s).
Proof.
  induction routers as [|d rest IH]; intros i f t a best s Hi.
  - cbn in Hi. lia.
  - destruct (findBestDexForSwap_loop W env (d :: rest) i f t a best s)
      as [b s' | r tr] eqn:E.
    + exfalso. cbn [findBestDexForSwap_loop] in E.
      bind_inv E as best1 s1 E1.
      destruct (i + 1 <? uint8_limit) eqn:Hnext; [|discriminate].
      apply Z.ltb_lt in Hnext.
      rewrite IH in E; [discriminate|].
      cbn [List.length] in Hi. lia.
    + apply findBestDexForSwap_loop_Reverted in E as [-> ->]. reflexivity.
Qed.

(** *** What a simulation that answers [true] has seen *)

Lemma simulateArbitrage_true m tokenA tokenB amountIn route s s' :
  simulateArbitrage W env c m tokenA tokenB amountIn route s = Done true s' ->
  (tokenA =? tokenB) = false ->
  exists currentToken currentAmount finalAmount,
    simulateArbitrage_loop W env c route (dexIndices route) 0 tokenA amountIn s
    = Done (Some (currentToken, currentAmount)) s
    /\ getBestOutputForSwap W env c currentToken tokenA currentAmount s
       = Done finalAmount s
    /\ simulated_debt c m amountIn < finalAmount
    /\ simulated_debt c m amountIn + amountIn * minProfitPercent c / 100000
       <= finalAmount.
Proof.
  intros H Hne. unfold simulateArbitrage in H. rewrite Hne in H.
  bind_inv H as u1 s1 H1.
  assert (s1 = s) as ->.
  { destruct (0 <? List.length (path route))%nat; [|discriminate].
    apply ret_Done in H1 as [_ ->]. reflexivity. }
  bind_inv H as r s2 H2.
  pose proof (view_simulateArbitrage_loop route (dexIndices route) 0%nat tokenA amountIn s)
    as Hv.
  rewrite H2 in Hv. subst s2.
  destruct r as [[currentToken currentAmount]|]; [|discriminate].
  bind_inv H as best s3 H3. unfold try_call in H3.
  pose proof (view_getBestOutputForSwap_loop (dexRouters c) 0 currentToken tokenA
                currentAmount 0 s) as Hb.
  fold (getBestOutputForSwap W env c currentToken tokenA currentAmount) in Hb.
  destruct (getBestOutputForSwap W env c currentToken tokenA currentAmount s)
    as [finalAmount s4 | r tr] eqn:Hbest.
  - subst s4. injection H3 as <- <-.
    exists currentToken, currentAmount, finalAmount.
    split; [exact H2|]. split; [exact Hbest|].
    bind_inv H as totalDebt s5 H5.
    assert (Hdebt : totalDebt = simulated_debt c m amountIn /\ s5 = s).
    { unfold simulated_debt. destruct (sender m =? POOL c).
      - bind_inv H5 as fee s6 H6. apply checked_mul_Done in H6 as (-> & -> & _).
        apply checked_add_Done in H5 as (-> & -> & _). auto.
      - apply ret_Done in H5 as [-> ->]. auto. }
    destruct Hdebt as [-> ->].
    destruct (simulated_debt c m amountIn <? finalAmount) eqn:Hlt; [|discriminate].
    apply Z.ltb_lt in Hlt. split; [exact Hlt|].
    bind_inv H as scaled s7 H7. apply checked_mul_Done in H7 as (-> & -> & _).
    bind_inv H as floor s8 H8. apply checked_add_Done in H8 as (-> & -> & _).
    apply ret_Done in H as [H _]. symmetry in H. apply Z.leb_le in H. exact H.
  - injection H3 as <- <-. discriminate.
Qed.

(** A flash-loan arbitrage that goes through has passed the simulation
    on the state in which the loan had arrived. *)
Lemma executeArbitrage_Done_simulated m tokenA tokenB amountIn route s u s' :
  executeArbitrage W env c m tokenA tokenB amountIn route s = Done u s' ->
  (tokenA =? tokenB) = false
  /\ exists s0,
       simulateArbitrage W env c (mkMsg (POOL c) 0 (gasprice m) (block_timestamp m))
         tokenA tokenB amountIn route s0 = Done true s0.
Proof.
  intros H. unfold executeArbitrage in H.
  bind_inv H as u0 s0 H0. clear H0.
  bind_inv H as u1 s1 H1. clear H1.
  bind_inv H as u2 s2 H2.
  apply executeArbitrage_requires_Done in H2 as (_ & _ & _ & _ & Hne & _).
  split; [apply Z.eqb_neq; exact Hne|].
  unfold flashLoanSimple in H.
  bind_inv H as w s3 H3.
  destruct (pool_lend env w tokenA amountIn) as [[w' premium]|]; [|discriminate].
  bind_inv H as u4 s4 H4.
  bind_inv H as ok s5 H5. clear H.
  unfold executeOperation in H5.
  bind_inv H5 as v0 t0 G0.
  bind_inv H5 as v1 t1 G1. bind_inv H5 as v2 t2 G2. bind_inv H5 as v3 t3 G3.
  bind_inv H5 as v4 t4 G4. bind_inv H5 as v5 t5 G5.
  bind_inv H5 as profitable t6 G6.
  bind_inv H5 as v7 t7 G7. apply require_Done in G7 as [-> ->].
  cbn [p_tokenB p_route] in G6.
  pose proof (view_simulateArbitrage_holds
                (mkMsg (POOL c) 0 (gasprice m) (block_timestamp m))
                tokenA tokenB amountIn route t5) as Hv.
  rewrite G6 in Hv. subst t6. exists t5. exact G6.
Qed.

End VenueChoiceFacts.

(** X6. The simulation, the two venue scans and the balance query are
    read-only: on every outcome they leave the world, the events and the
    record of swap calls exactly as they found them. *)
Theorem simulation_and_venue_scans_change_nothing
    W (env : MultiDexArbitrageBot.Env W) c m tokenA tokenB amountIn route :
  view (MultiDexArbitrageBot.simulateArbitrage W env c m tokenA tokenB amountIn route)
  /\ view (MultiDexArbitrageBot.getBestOutputForSwap W env c tokenA tokenB amountIn)
  /\ view (MultiDexArbitrageBot.findBestDexForSwap W env c tokenA tokenB amountIn)
  /\ view (MultiDexArbitrageBot.getTokenBalance W env tokenA).
Proof.
  split; [apply view_simulateArbitrage_holds|].
  split; [apply view_getBestOutputForSwap_loop|].
  split; [apply view_findBestDexForSwap|].
  unfold MultiDexArbitrageBot.getTokenBalance, MultiDexArbitrageBot.IERC20_balanceOf.
  view_walk.
Qed.

(** X7. When [findBestDexForSwap] returns an index, it is the index of
    a registered, active venue whose quote is positive, is not exceeded
    by the quote of any venue, and exceeds the quote of every venue
    registered before it. *)
Theorem findBestDexForSwap_picks_the_first_best_venue
    W (env : MultiDexArbitrageBot.Env W) c fromToken toToken amount s idx s' :
  MultiDexArbitrageBot.findBestDexForSwap W env c fromToken toToken amount s
    = Solidity.Done idx s' ->
  0 <= idx
  /\ exists d out,
       nth_error (MultiDexArbitrageBot.dexRouters c) (Z.to_nat idx) = Some d
       /\ MultiDexArbitrageBot.active d = true
       /\ venue_quote env (Solidity.world s) fromToken toToken amount d = Some out
       /\ 0 < out
       /\ forall j d' out',
            nth_error (MultiDexArbitrageBot.dexRouters c) j = Some d' ->
            venue_quote env (Solidity.world s) fromToken toToken amount d' = Some out' ->
            out' <= out /\ ((j < Z.to_nat idx)%nat -> out' < out).
Proof.
  intros H. apply findBestDexForSwap_Done in H as (_ & out & Hpos & _ & Hinv).
  destruct Hinv as (_ & Hall & Hbest). cbn [fst snd] in *.
  destruct (Hbest Hpos) as (Hi & (d & Hd & Hq) & Hfirst).
  split; [exact Hi|]. exists d, out.
  split; [exact Hd|]. split.
  { unfold venue_quote in Hq. destruct (MultiDexArbitrageBot.active d);
      [reflexivity | discriminate]. }
  split; [exact Hq|]. split; [exact Hpos|].
  intros j d' out' Hj Hq'. split; [eauto|]. intros Hlt. eauto.
Qed.

Lemma findBestDexForSwap_picks_the_first_best_venue_witness :
  let s := Mock.start (Mock.mkWorld [] []) in
  0 <= 0
  /\ exists d out,
       nth_error (MultiDexArbitrageBot.dexRouters (Mock.storage 100)) (Z.to_nat 0) = Some d
       /\ MultiDexArbitrageBot.active d = true
       /\ venue_quote generous_env (Solidity.world s) 2000 1000 5 d = Some out
       /\ 0 < out
       /\ forall j d' out',
            nth_error (MultiDexArbitrageBot.dexRouters (Mock.storage 100)) j = Some d' ->
            venue_quote generous_env (Solidity.world s) 2000 1000 5 d' = Some out' ->
            out' <= out /\ ((j < Z.to_nat 0)%nat -> out' < out).
Proof.
  intros s.
  apply (findBestDexForSwap_picks_the_first_best_venue Mock.World generous_env
           (Mock.storage 100) 2000 1000 5 s 0 s).
  vm_compute. reflexivity.
Defined.

(** X8. The output [getBestOutputForSwap] reports to the simulation is
    never negative and bounds the quote of every venue; when it is
    positive, [findBestDexForSwap] on the same state returns a venue
    that quotes exactly this output, and when it is zero
    [findBestDexForSwap] reverts with "No valid DEX found". *)
Theorem getBestOutputForSwap_is_the_quote_of_the_venue_found
    W (env : MultiDexArbitrageBot.Env W) c fromToken toToken amount s v s' :
  MultiDexArbitrageBot.getBestOutputForSwap W env c fromToken toToken amount s
    = Solidity.Done v s' ->
  0 <= v
  /\ (forall j d out,
        nth_error (MultiDexArbitrageBot.dexRouters c) j = Some d ->
        venue_quote env (Solidity.world s) fromToken toToken amount d = Some out ->
        out <= v)
  /\ (0 < v ->
      exists idx d,
        MultiDexArbitrageBot.findBestDexForSwap W env c fromToken toToken amount s
          = Solidity.Done idx s
        /\ nth_error (MultiDexArbitrageBot.dexRouters c) (Z.to_nat idx) = Some d
        /\ venue_quote env (Solidity.world s) fromToken toToken amount d = Some v)
  /\ (v = 0 ->
      MultiDexArbitrageBot.findBestDexForSwap W env c fromToken toToken amount s
        = Solidity.Reverted "No valid DEX found" (Solidity.trace s)).
Proof.
  intros H. apply getBestOutputForSwap_Done in H as (_ & i & Hloop & Hinv).
  destruct Hinv as (H0 & Hall & Hbest). cbn [fst snd] in *.
  split; [exact H0|]. split; [exact Hall|]. split.
  - intros Hpos. destruct (Hbest Hpos) as (_ & (d & Hd & Hq) & _).
    exists i, d. split; [|auto].
    unfold MultiDexArbitrageBot.findBestDexForSwap, Solidity.bind. rewrite Hloop.
    cbn [fst snd]. apply Z.ltb_lt in Hpos. rewrite Hpos. reflexivity.
  - intros ->.
    unfold MultiDexArbitrageBot.findBestDexForSwap, Solidity.bind. rewrite Hloop.
    reflexivity.
Qed.

Lemma getBestOutputForSwap_is_the_quote_of_the_venue_found_witness :
  let s := Mock.start (Mock.mkWorld [] []) in
  0 <= 2001
  /\ (forall j d out,
        nth_error (MultiDexArbitrageBot.dexRouters (Mock.storage 100)) j = Some d ->
        venue_quote generous_env (Solidity.world s) 2000 1000 5 d = Some out ->
        out <= 2001)
  /\ (0 < 2001 ->
      exists idx d,
        MultiDexArbitrageBot.findBestDexForSwap Mock.World generous_env (Mock.storage 100)
          2000 1000 5 s = Solidity.Done idx s
        /\ nth_error (MultiDexArbitrageBot.dexRouters (Mock.storage 100)) (Z.to_nat idx)
           = Some d
        /\ venue_quote generous_env (Solidity.world s) 2000 1000 5 d = Some 2001)
  /\ (2001 = 0 ->
      MultiDexArbitrageBot.findBestDexForSwap Mock.World generous_env (Mock.storage 100)
        2000 1000 5 s = Solidity.Reverted "No valid DEX found" (Solidity.trace s)).
Proof.
  intros s.
  apply (getBestOutputForSwap_is_the_quote_of_the_venue_found Mock.World generous_env
           (Mock.storage 100) 2000 1000 5 s 2001 s).
  vm_compute. reflexivity.
Defined.

(** X9. The venue scans count with an 8-bit counter and [addDex] has no
    cap: once 256 venues are registered both scans revert with
    Panic(0x11) on every input, and no call of [executeArbitrage]
    returns any more. *)
Theorem a_256th_venue_stops_every_flash_loan
    W (env : MultiDexArbitrageBot.Env W) c :
  256 <= MultiDexArbitrageBot.dex_count c ->
  (forall fromToken toToken amount s,
     MultiDexArbitrageBot.findBestDexForSwap W env c fromToken toToken amount s
       = Solidity.Reverted "Panic(0x11)" (Solidity.trace s))
  /\ (forall fromToken toToken amount s,
        MultiDexArbitrageBot.getBestOutputForSwap W env c fromToken toToken amount s
          = Solidity.Reverted "Panic(0x11)" (Solidity.trace s))
  /\ (forall m tokenA tokenB amountIn route s,
        returned (MultiDexArbitrageBot.executeArbitrage W env c m tokenA tokenB amountIn
                    route s) = false).
Proof.
  intros Hmany. unfold MultiDexArbitrageBot.dex_count in Hmany.
  assert (Hloop : forall fromToken toToken amount best s,
            MultiDexArbitrageBot.findBestDexForSwap_loop W env
              (MultiDexArbitrageBot.dexRouters c) 0 fromToken toToken amount best s
            = Solidity.Reverted "Panic(0x11)" (Solidity.trace s)).
  { intros. apply findBestDexForSwap_loop_overflow.
    change Solidity.uint8_limit with 256. lia. }
  assert (Hbest : forall fromToken toToken amount s,
            MultiDexArbitrageBot.getBestOutputForSwap W env c fromToken toToken amount s
            = Solidity.Reverted "Panic(0x11)" (Solidity.trace s)).
  { intros. unfold MultiDexArbitrageBot.getBestOutputForSwap.
    pose proof (scans_agree W env (MultiDexArbitrageBot.dexRouters c) 0 fromToken toToken
                  amount (0, 0) s) as E.
    cbn [fst] in E. rewrite E, Hloop. reflexivity. }
  split; [|split; [exact Hbest|]].
  - intros. unfold MultiDexArbitrageBot.findBestDexForSwap, Solidity.bind.
    rewrite Hloop. reflexivity.
  - intros m tokenA tokenB amountIn route s.
    destruct (MultiDexArbitrageBot.executeArbitrage W env c m tokenA tokenB amountIn
                route s) as [u s' | r tr] eqn:Hrun; [|reflexivity].
    exfalso. apply executeArbitrage_Done_simulated in Hrun as (Hne & s0 & Hsim).
    apply simulateArbitrage_true in Hsim as (ct & ca & fin & _ & Hfin & _); [|exact Hne].
    rewrite Hbest in Hfin. discriminate.
Qed.

Lemma a_256th_venue_stops_every_flash_loan_witness :
  256 <= MultiDexArbitrageBot.dex_count crowded_storage
  /\ returned (MultiDexArbitrageBot.executeArbitrage Mock.World generous_env
                 crowded_storage owner_call 1000 2000 1999 fresh_route
                 (Mock.start (Mock.mkWorld [] []))) = false.
Proof.
  split; [vm_compute; discriminate|].
  apply (a_256th_venue_stops_every_flash_loan Mock.World generous_env crowded_storage).
  vm_compute. discriminate.
Defined.

Section RoundTripFacts.

Import Solidity MultiDexArbitrageBot.
Local Open Scope sol_scope.
Local Open Scope Z_scope.

Variable W : Type.
Variable env : Env W.
Variable c : Storage.



End RoundTripFacts.



(** ** The chain of swap calls of a run *)

Section ChainFacts.

Import Solidity MultiDexArbitrageBot.
Local Open Scope sol_scope.
Local Open Scope Z_scope.

Variable W : Type.
Variable env : Env W.
Variable c : Storage.

Lemma leads_app l1 : forall token amount l2 t1 a1 t2 a2,
  leads token amount l1 t1 a1 -> leads t1 a1 l2 t2 a2 ->
  leads token amount (l1 ++ l2) t2 a2.
Proof.
  induction l1 as [|h rest IH]; intros token amount l2 t1 a1 t2 a2 H1 H2; cbn in *.
  - destruct H1 as [-> ->]. exact H2.
  - destruct H1 as (Ht & Ha & d & Hd & Hrest). eauto 10.
Qed.

Lemma leads_then_chained l1 : forall token amount l2 t1 a1,
  leads token amount l1 t1 a1 -> chained t1 a1 l2 -> chained token amount (l1 ++ l2).
Proof.
  induction l1 as [|h rest IH]; intros token amount l2 t1 a1 H1 H2; cbn in *.
  - destruct H1 as [-> ->]. exact H2.
  - destruct H1 as (Ht & Ha & d & Hd & Hrest). rewrite Hd. eauto.
Qed.

Lemma leads_chained l token amount t1 a1 :
  leads token amount l t1 a1 -> chained token amount l.
Proof.
  intros H. rewrite <- (app_nil_r l). eapply leads_then_chained; [exact H | exact I].
Qed.

Lemma new_hops_app {A} (s : Exec W) (o : Outcome W A) new :
  outcome_trace o = trace s ++ new -> new_hops s o = new.
Proof.
  intros E. unfold new_hops. rewrite E, skipn_app, skipn_all, Nat.sub_diag. reflexivity.
Qed.

Ltac no_call :=
  exists []; split; [symmetry; apply app_nil_r | split; [exact I | cbn; lia]].

Lemma executeSwaps_hop_chain m route i dexIndex currentToken currentAmount s :
  hop_chain (trace s) currentToken currentAmount
    (executeSwaps_hop W env c m route i dexIndex currentToken currentAmount s).
Proof.
  unfold executeSwaps_hop.
  apply require_cases; intros _; [|no_call].
  apply index_cases; [intros dex _ | intros _; no_call].
  apply require_cases; intros _; [|no_call].
  apply index_cases; [intros nextToken _ | intros _; no_call].
  apply balanceOf_cases.
  apply approve_cases; [intros w1 Hw1 | intros r; no_call].
  apply approve_cases; [intros w2 Hw2 | intros r; no_call].
  apply get_world_cases. cbv beta iota. cbn [world].
  destruct (getAmountsOut env w2 (router dex) currentAmount [currentToken; nextToken])
    as [amountsOut|]; [|no_call].
  apply index_cases; [intros quoted _ | intros _; no_call].
  apply checked_mul_cases; [intros _ | no_call].
  cbv beta iota zeta.
  destruct (swapExactTokensForTokens env w2 (router dex) currentAmount
              (quoted * (10000 - 50) / 10000) [currentToken; nextToken] (this c)
              (block_timestamp m)) as [w3|].
  - apply set_world_cases.
    apply balanceOf_cases. cbn [world events trace].
    apply checked_sub_cases; [intros _ | no_call].
    apply ghost_cases. cbn [world events trace].
    apply require_cases; intros _; cbn.
    + eexists. split; [reflexivity|]. cbn. eauto 10.
    + eexists [_]. split; [reflexivity|]. cbn. auto.
  - apply ghost_cases. cbn. eexists. split; [reflexivity|]. cbn. auto.
Qed.

Lemma swapTokensBack_chain m fromToken toToken amount s :
  back_chain (trace s) fromToken toToken amount
    (swapTokensBack W env c m fromToken toToken amount s).
Proof.
  unfold swapTokensBack.
  apply view_cases; [apply view_findBestDexForSwap | intros bestDexIndex _
                    | intros r; no_call].
  apply index_cases; [intros dex _ | intros _; no_call].
  apply approve_cases; [intros w1 Hw1 | intros r; no_call].
  apply approve_cases; [intros w2 Hw2 | intros r; no_call].
  cbv zeta.
  apply balanceOf_cases. apply get_world_cases. cbn [world events trace].
  destruct (getAmountsOut env w2 (router dex) amount [fromToken; toToken])
    as [expectedAmounts|]; [|no_call].
  apply index_cases; [intros quoted _ | intros _; no_call].
  apply checked_mul_cases; [intros _ | no_call].
  cbv beta iota zeta.
  destruct (swapExactTokensForTokens env w2 (router dex) amount
              (quoted * (10000 - 50) / 10000) [fromToken; toToken] (this c)
              (block_timestamp m)) as [w3|].
  - apply set_world_cases.
    apply balanceOf_cases. cbn [world events trace].
    apply checked_sub_cases; [intros _ | no_call].
    apply ghost_cases. cbn. eexists. split; [reflexivity|]. cbn. eauto 10.
  - apply ghost_cases. cbn. eexists [_]. split; [reflexivity|]. cbn. auto.
Qed.

Lemma executeSwaps_loop_chain m route indices : forall i currentToken currentAmount s,
  loop_chain (trace s) currentToken currentAmount (List.length indices)
    (executeSwaps_loop W env c m route indices i currentToken currentAmount s).
Proof.
  induction indices as [|dexIndex rest IH]; intros i ct ca s;
    cbn [executeSwaps_loop List.length].
  - exists []. split; [symmetry; apply app_nil_r|]. cbn. auto.
  - unfold bind.
    pose proof (executeSwaps_hop_chain m route i dexIndex ct ca s) as Hhop.
    destruct (executeSwaps_hop W env c m route i dexIndex ct ca s)
      as [[nextToken swapped|] s1 | r tr]; cbn in Hhop.
    + destruct Hhop as (h & Ht & Hh).
      specialize (IH (S i) nextToken swapped s1). rewrite Ht in IH.
      destruct (executeSwaps_loop W env c m route rest (S i) nextToken swapped s1)
        as [[[t' a']|] s2 | r tr]; cbn in IH |- *;
        destruct IH as (new & E & Hnew & Hlen); exists (h :: new);
        (split; [rewrite E, <- app_assoc; reflexivity|]).
      * split; [exact (leads_app [h] _ _ _ _ _ _ _ Hh Hnew) | cbn; lia].
      * split; [exact (leads_then_chained [h] _ _ _ _ _ Hh Hnew) | cbn; lia].
      * split; [exact (leads_then_chained [h] _ _ _ _ _ Hh Hnew) | cbn; lia].
    + destruct Hhop as (h & Ht & Hh). exists [h]. cbn. split; [exact Ht|].
      split; [exact Hh | lia].
    + destruct Hhop as (new & E & Hnew & Hlen). exists new. cbn.
      split; [exact E|]. split; [exact Hnew | lia].
Qed.

Lemma executeSwaps_chain m tokenA tokenB amountIn route s :
  swaps_chain (trace s) tokenA tokenB amountIn (List.length (dexIndices route))
    (executeSwaps W env c m tokenA tokenB amountIn route s).
Proof.
  unfold executeSwaps.
  apply require_cases; intros _; [|no_call].
  apply require_cases; intros _; [|no_call].
  unfold bind at 1.
  pose proof (executeSwaps_loop_chain m route (dexIndices route) 0 tokenA amountIn s)
    as Hloop.
  destruct (executeSwaps_loop W env c m route (dexIndices route) 0 tokenA amountIn s)
    as [[[currentToken currentAmount]|] s1 | r tr]; cbn in Hloop.
  - destruct Hloop as (new & E & Hnew & Hlen).
    destruct (tokenA =? tokenB) eqn:Hsame.
    + apply require_cases; intros Hback; cbn.
      * apply Z.eqb_eq in Hback. subst currentToken. rewrite Hsame.
        exists new, currentAmount. split; [exact E|]. split; [exact Hnew | lia].
      * exists new. split; [exact E|].
        split; [exact (leads_chained _ _ _ _ _ Hnew) | lia].
    + unfold bind, try_call.
      pose proof (swapTokensBack_chain m currentToken tokenA currentAmount s1) as Hback.
      destruct (swapTokensBack W env c m currentToken tokenA currentAmount s1)
        as [finalAmount s2 | r tr]; cbn in Hback |- *.
      * destruct Hback as (h & Ht & Hh). rewrite Hsame.
        exists (new ++ [h]), finalAmount.
        split; [rewrite Ht, E, app_assoc; reflexivity|].
        split; [exact (leads_app new _ _ [h] _ _ _ _ Hnew Hh)|].
        rewrite length_app. cbn. lia.
      * destruct Hback as (more & Ht & Hmore & Hone).
        exists (new ++ more).
        split; [rewrite Ht, E, app_assoc; reflexivity|].
        split; [exact (leads_then_chained _ _ _ _ _ _ Hnew Hmore)|].
        rewrite length_app. lia.
  - destruct Hloop as (new & E & Hnew & Hlen). exists new. cbn.
    split; [exact E|]. split; [exact Hnew | lia].
  - destruct Hloop as (new & E & Hnew & Hlen). exists new.
    split; [exact E|]. split; [exact Hnew | lia].
Qed.

End ChainFacts.

(** X11. The swap calls of [executeSwaps] form one chain: the first
    spends [amountIn] of [tokenA], each further call spends exactly the
    token and the amount the call before it credited, nothing follows a
    call the venue refused, and there are at most one call per hop and
    one for the way back. A run that returns [true] recorded only
    answered calls that lead back to [tokenA]: one per hop on a loop
    route, and one more for the swap back otherwise. *)
Theorem executeSwaps_chains_its_swaps
    W (env : MultiDexArbitrageBot.Env W) c m tokenA tokenB amountIn route s :
  chained tokenA amountIn
    (new_hops s (MultiDexArbitrageBot.executeSwaps W env c m tokenA tokenB amountIn route s))
  /\ (List.length
        (new_hops s (MultiDexArbitrageBot.executeSwaps W env c m tokenA tokenB amountIn
                       route s))
      <= List.length (MultiDexArbitrageBot.dexIndices route) + 1)%nat
  /\ (forall s',
        MultiDexArbitrageBot.executeSwaps W env c m tokenA tokenB amountIn route s
          = Solidity.Done true s' ->
        (exists final,
           leads tokenA amountIn
             (new_hops s (MultiDexArbitrageBot.executeSwaps W env c m tokenA tokenB
                            amountIn route s)) tokenA final)
        /\ List.length
             (new_hops s (MultiDexArbitrageBot.executeSwaps W env c m tokenA tokenB
                            amountIn route s))
           = (List.length (MultiDexArbitrageBot.dexIndices route)
              + if (tokenA =? tokenB)%Z then 0 else 1)%nat).
Proof.
  pose proof (executeSwaps_chain W env c m tokenA tokenB amountIn route s) as H.
  destruct (MultiDexArbitrageBot.executeSwaps W env c m tokenA tokenB amountIn route s)
    as [[|] s1 | r tr] eqn:Hrun; cbn in H.
  - destruct H as (new & final & E & Hnew & Hlen).
    rewrite (new_hops_app W s (Solidity.Done true s1) new E).
    split; [exact (leads_chained _ _ _ _ _ Hnew)|].
    split; [destruct (tokenA =? tokenB); lia|].
    intros s' _. split; [exists final; exact Hnew | exact Hlen].
  - destruct H as (new & E & Hnew & Hlen).
    rewrite (new_hops_app W s (Solidity.Done false s1) new E).
    split; [exact Hnew|]. split; [exact Hlen|]. intros s' Habs. discriminate.
  - destruct H as (new & E & Hnew & Hlen).
    rewrite (new_hops_app W s (Solidity.Reverted r tr) new E).
    split; [exact Hnew|]. split; [exact Hlen|]. intros s' Habs. discriminate.
Qed.

(** On the mock chain: a round trip over venue 0 and back records two
    answered calls, the second spending what the first brought in. *)
Example round_trip_records_a_chain_of_two :
  map (fun h => (Solidity.sc_tokenIn h, Solidity.sc_amountIn h, Solidity.sc_tokenOut h,
                 Solidity.sc_realized h))
      (new_hops (Mock.start (Mock.mkWorld [(1000, 10000)] [])) (round_trip 40 10000))
  = [(1000, 10000, 2000, Some 9960); (2000, 9960, 1000, Some 9921)].
Proof. vm_compute. reflexivity. Qed.

(** ** The emergency stop *)

Section PauseFacts.

Import Solidity MultiDexArbitrageBot.
Local Open Scope sol_scope.
Local Open Scope Z_scope.

Variable W : Type.
Variable env : Env W.
Variable c : Storage.

Lemma paused_executeArbitrage m tokenA tokenB amountIn route s :
  _paused c = true ->
  exists reason,
    executeArbitrage W env c m tokenA tokenB amountIn route s = Reverted reason (trace s).
Proof.
  intros Hp. unfold executeArbitrage, bind.
  pose proof (view_nonpayable W m s) as H0.
  destruct (nonpayable W m s) as [u0 s0 | r tr]; subst; [|eauto].
  pose proof (view_onlyOwner_nonReentrant W c m s) as H1.
  destruct (onlyOwner_nonReentrant W c m s) as [u1 s1 | r tr]; subst; [|eauto].
  pose proof (view_executeArbitrage_requires W c m tokenA tokenB route s) as H2.
  destruct (executeArbitrage_requires W c m tokenA tokenB route s)
    as [u2 s2 | r tr] eqn:E; subst; [|eauto].
  apply executeArbitrage_requires_Done in E as (_ & _ & _ & Hrun & _). congruence.
Qed.

Lemma paused_executeArbitrageWithNative m tokenB route s :
  _paused c = true ->
  exists reason,
    executeArbitrageWithNative W env c m tokenB route s = Reverted reason (trace s).
Proof.
  intros Hp. unfold executeArbitrageWithNative, bind.
  pose proof (view_onlyOwner_nonReentrant W c m s) as H1.
  destruct (onlyOwner_nonReentrant W c m s) as [u1 s1 | r tr]; subst; [|eauto].
  pose proof (view_executeArbitrageWithNative_requires W env c m tokenB route s) as H2.
  destruct (executeArbitrageWithNative_requires W env c m tokenB route s)
    as [dex0 s2 | r tr] eqn:E; subst; [|eauto].
  apply executeArbitrageWithNative_requires_Done in E as (_ & Hrun & _). congruence.
Qed.

End PauseFacts.

(** X12. The emergency stop works: once the owner's [togglePause] has
    been applied to a running contract, [isPaused] answers [true] and
    every call of [executeArbitrage] and of [executeArbitrageWithNative],
    by anyone and with any arguments, reverts before any swap call. *)
Theorem togglePause_stops_every_execution
    W (env : MultiDexArbitrageBot.Env W) c m c' log :
  MultiDexArbitrageBot.togglePause c m = MultiDexArbitrageBot.Applied c' log ->
  MultiDexArbitrageBot.isPaused c = false ->
  MultiDexArbitrageBot.isPaused c' = true
  /\ (forall m' tokenA tokenB amountIn route s,
        exists reason,
          MultiDexArbitrageBot.executeArbitrage W env c' m' tokenA tokenB amountIn route s
          = Solidity.Reverted reason (Solidity.trace s))
  /\ (forall m' tokenB route s,
        exists reason,
          MultiDexArbitrageBot.executeArbitrageWithNative W env c' m' tokenB route s
          = Solidity.Reverted reason (Solidity.trace s)).
Proof.
  intros Htoggle Hrunning.
  assert (Hp : MultiDexArbitrageBot._paused c' = true).
  { unfold MultiDexArbitrageBot.togglePause in Htoggle.
    destruct (negb (MultiDexArbitrageBot.value m =? 0)); [discriminate|].
    destruct (negb (MultiDexArbitrageBot.owner c =? MultiDexArbitrageBot.sender m));
      [discriminate|].
    injection Htoggle as <- _. cbn.
    unfold MultiDexArbitrageBot.isPaused in Hrunning. rewrite Hrunning. reflexivity. }
  split; [exact Hp|]. split.
  - intros. apply paused_executeArbitrage. exact Hp.
  - intros. apply paused_executeArbitrageWithNative. exact Hp.
Qed.

Lemma togglePause_stops_every_execution_witness :
  exists c',
    MultiDexArbitrageBot.togglePause (Mock.storage 100) owner_call
      = MultiDexArbitrageBot.Applied c' []
    /\ MultiDexArbitrageBot.isPaused c' = true
    /\ (forall m' tokenA tokenB amountIn route s,
          exists reason,
            MultiDexArbitrageBot.executeArbitrage Mock.World generous_env c' m' tokenA
              tokenB amountIn route s
            = Solidity.Reverted reason (Solidity.trace s))
    /\ (forall m' tokenB route s,
          exists reason,
            MultiDexArbitrageBot.executeArbitrageWithNative Mock.World generous_env c' m'
              tokenB route s
            = Solidity.Reverted reason (Solidity.trace s)).
Proof.
  eexists. split; [reflexivity|].
  apply (togglePause_stops_every_execution Mock.World generous_env (Mock.storage 100)
           owner_call _ []); reflexivity.
Defined.

(** ** The orchestrator's bookkeeping *)

Section BookkeepingFacts.

Import ArbitrageManager.
Local Open Scope Z_scope.

(** The window of the trailing hour only loses records as the clock
    advances. *)
Lemma recentExecutions_shrinks h now later :
  now <= later -> len (recentExecutions h later) <= len (recentExecutions h now).
Proof.
  intros Hle. unfold len, recentExecutions.
  induction h as [|e rest IH]; cbn [filter]; [lia|]. cbv zeta in IH.
  destruct (later - 60 * 60 * 1000 <? timestamp e) eqn:E1;
    destruct (now - 60 * 60 * 1000 <? timestamp e) eqn:E2;
    cbn [List.length]; rewrite ?Nat2Z.inj_succ; lia.
Qed.

Lemma recentExecutions_within h now : len (recentExecutions h now) <= len h.
Proof.
  unfold len, recentExecutions. pose proof (filter_length_le
    (fun e => now - 60 * 60 * 1000 <? timestamp e) h). lia.
Qed.

Lemma recentExecutions_snoc h e now :
  len (recentExecutions (h ++ [e]) now) <= len (recentExecutions h now) + 1.
Proof.
  unfold len, recentExecutions. cbv zeta. rewrite filter_app, length_app.
  cbn [filter]. destruct (now - 60 * 60 * 1000 <? timestamp e); cbn [List.length]; lia.
Qed.

(** What a successful attempt was and did. *)
Lemma executeArbitrage_success cfg h now now_route op tx :
  result (executeArbitrage cfg h now now_route op tx) = true ->
  len (recentExecutions h now) < maxExecutionsPerHour cfg
  /\ exists hash minedAt,
       tx = Receipt hash 1 minedAt
       /\ history (executeArbitrage cfg h now now_route op tx)
          = h ++ [mkRecord minedAt hash (estimatedProfitUSD op) (routeDescription op)].
Proof.
  unfold executeArbitrage.
  destruct (maxExecutionsPerHour cfg <=? len h) eqn:E1;
    destruct (maxExecutionsPerHour cfg <=? len (recentExecutions h now)) eqn:E2;
    cbn [andb]; try (cbn; discriminate);
    (assert (Hroom : len (recentExecutions h now) < maxExecutionsPerHour cfg)
       by (pose proof (recentExecutions_within h now);
           first [apply Z.leb_gt in E2; lia | apply Z.leb_gt in E1; lia]));
    (destruct (o_tokenA op); [|cbn; discriminate]);
    (destruct (o_tokenB op); [|cbn; discriminate]);
    (destruct tx as [| | hash | hash status minedAt]; try (cbn; discriminate));
    (destruct (status =? 1) eqn:Es; [|cbn; discriminate]);
    apply Z.eqb_eq in Es; subst status; cbn; intros _;
    (split; [exact Hroom | eauto]).
Qed.

End BookkeepingFacts.

(** X13. The hourly limit holds on what is recorded: when an attempt
    succeeds and the clock does not run backwards, the records of the
    trailing hour, counted at the moment the new record is stamped or at
    any later moment, number at most [maxExecutionsPerHour]. *)
Theorem successful_executions_stay_within_the_hourly_limit
    (cfg : ArbitrageManager.Config) (executionHistory : list ArbitrageManager.ExecutionRecord)
    (now now_route : Z) (opportunity : ArbitrageManager.Opportunity)
    (hash : string) (status minedAt later : Z) :
  now <= minedAt -> minedAt <= later ->
  ArbitrageManager.result
    (ArbitrageManager.executeArbitrage cfg executionHistory now now_route opportunity
       (ArbitrageManager.Receipt hash status minedAt)) = true ->
  ArbitrageManager.len
    (ArbitrageManager.recentExecutions
       (ArbitrageManager.history
          (ArbitrageManager.executeArbitrage cfg executionHistory now now_route opportunity
             (ArbitrageManager.Receipt hash status minedAt))) later)
  <= ArbitrageManager.maxExecutionsPerHour cfg.
Proof.
  intros Hmined Hlater Hok.
  apply executeArbitrage_success in Hok as (Hroom & hash' & minedAt' & Htx & Hhist).
  rewrite Hhist.
  pose proof (recentExecutions_snoc executionHistory
                (ArbitrageManager.mkRecord minedAt' hash'
                   (ArbitrageManager.estimatedProfitUSD opportunity)
                   (ArbitrageManager.routeDescription opportunity)) later) as Hsnoc.
  pose proof (recentExecutions_shrinks executionHistory now later ltac:(lia)) as Hshrink.
  lia.
Qed.

Lemma successful_executions_stay_within_the_hourly_limit_witness :
  ArbitrageManager.len
    (ArbitrageManager.recentExecutions
       (ArbitrageManager.history
          (ArbitrageManager.executeArbitrage sample_config [record_at 1000000000]
             1000001000 1000001000 sample_opportunity
             (ArbitrageManager.Receipt "0xfeed" 1 1000002000))) 1000003000)
  <= ArbitrageManager.maxExecutionsPerHour sample_config.
Proof.
  apply (successful_executions_stay_within_the_hourly_limit sample_config
           [record_at 1000000000] 1000001000 1000001000 sample_opportunity "0xfeed" 1
           1000002000 1000003000).
  - lia.
  - lia.
  - reflexivity.
Defined.

(** X14. One pass of the scan loop over a pair keeps the pair's tokens,
    never rewrites the history, appends at most one record, and raises
    [successCount] by exactly the number of records it appended; when it
    appended one, the pair was due and is put on cooldown. *)
Theorem checkPair_counts_what_it_records
    (cfg : ArbitrageManager.Config) (executionHistory : list ArbitrageManager.ExecutionRecord)
    (now : Z) (pair : ArbitrageManager.WatchedPair)
    (found : option ArbitrageManager.Opportunity) (now_exec now_route : Z)
    (tx : ArbitrageManager.TxOutcome) :
  exists new,
    snd (ArbitrageManager.checkPair cfg executionHistory now pair found now_exec now_route tx)
    = executionHistory ++ new
    /\ (List.length new <= 1)%nat
    /\ ArbitrageManager.successCount
         (fst (ArbitrageManager.checkPair cfg executionHistory now pair found now_exec
                 now_route tx))
       = ArbitrageManager.successCount pair + ArbitrageManager.len new
    /\ ArbitrageManager.tokenA
         (fst (ArbitrageManager.checkPair cfg executionHistory now pair found now_exec
                 now_route tx)) = ArbitrageManager.tokenA pair
    /\ ArbitrageManager.tokenB
         (fst (ArbitrageManager.checkPair cfg executionHistory now pair found now_exec
                 now_route tx)) = ArbitrageManager.tokenB pair
    /\ (new <> [] ->
        ArbitrageManager.skipped now pair = false
        /\ ArbitrageManager.lastChecked
             (fst (ArbitrageManager.checkPair cfg executionHistory now pair found now_exec
                     now_route tx))
           = now + ArbitrageManager.executionCooldown cfg * 1000).
Proof.
  assert (Hsame : forall p : ArbitrageManager.WatchedPair,
            ArbitrageManager.successCount p = ArbitrageManager.successCount pair ->
            ArbitrageManager.tokenA p = ArbitrageManager.tokenA pair ->
            ArbitrageManager.tokenB p = ArbitrageManager.tokenB pair ->
            exists new : list ArbitrageManager.ExecutionRecord,
              executionHistory = executionHistory ++ new
              /\ (List.length new <= 1)%nat
              /\ ArbitrageManager.successCount p
                 = ArbitrageManager.successCount pair + ArbitrageManager.len new
              /\ ArbitrageManager.tokenA p = ArbitrageManager.tokenA pair
              /\ ArbitrageManager.tokenB p = ArbitrageManager.tokenB pair
              /\ (new <> [] ->
                  ArbitrageManager.skipped now pair = false
                  /\ ArbitrageManager.lastChecked p
                     = now + ArbitrageManager.executionCooldown cfg * 1000)).
  { intros p Hc Ha Hb. exists []. rewrite app_nil_r.
    split; [reflexivity|]. split; [cbn; lia|]. split; [cbn; lia|].
    split; [exact Ha|]. split; [exact Hb|]. intros Hne. congruence. }
  unfold ArbitrageManager.checkPair.
  destruct (ArbitrageManager.skipped now pair) eqn:Hskip; [apply Hsame; reflexivity|].
  destruct found as [res|]; [|apply Hsame; reflexivity].
  destruct (ArbitrageManager.profitable res); [|apply Hsame; reflexivity].
  destruct ((ArbitrageManager.minProfitUSD cfg <=? ArbitrageManager.estimatedProfitUSD res)%float
            && (ArbitrageManager.minProfitPercent cfg <=? ArbitrageManager.profitPercent res)%float);
    [|apply Hsame; reflexivity].
  cbv zeta.
  destruct (ArbitrageManager.result
              (ArbitrageManager.executeArbitrage cfg executionHistory now_exec now_route
                 res tx)) eqn:Hres.
  - apply executeArbitrage_success in Hres as (_ & hash & minedAt & _ & Hhist).
    rewrite Hhist. cbn [fst snd].
    eexists [_]. split; [reflexivity|]. cbn. repeat split; lia.
  - assert (Hhist : ArbitrageManager.history
                      (ArbitrageManager.executeArbitrage cfg executionHistory now_exec
                         now_route res tx) = executionHistory).
    { unfold ArbitrageManager.executeArbitrage in *.
      destruct ((ArbitrageManager.maxExecutionsPerHour cfg
                 <=? ArbitrageManager.len executionHistory)
                && (ArbitrageManager.maxExecutionsPerHour cfg
                    <=? ArbitrageManager.len
                          (ArbitrageManager.recentExecutions executionHistory now_exec)));
        [reflexivity|].
      destruct (ArbitrageManager.o_tokenA res); [|reflexivity].
      destruct (ArbitrageManager.o_tokenB res); [|reflexivity].
      destruct tx as [| | hash | hash status minedAt]; try reflexivity.
      destruct (status =? 1); [discriminate | reflexivity]. }
    rewrite Hhist. cbn [fst snd]. apply Hsame; reflexivity.
Qed.

(** ** The 2-hop enumeration *)

Section TwoHopFacts.

Import ArbitrageManager.
Local Open Scope Z_scope.

Variable cfg : Config.
Variable getAmountsOut : nat -> Z -> string -> string -> option Z.
Variable tokA tokB : Token.

Lemma collectPrices_from ds : forall k x,
  In x (collectPrices getAmountsOut tokA tokB ds k) -> (k <= x)%nat.
Proof.
  induction ds as [|hasRouter rest IH]; intros k x Hin; cbn [collectPrices] in Hin.
  - contradiction.
  - assert (Hrest : In x (collectPrices getAmountsOut tokA tokB rest (S k)) -> (k <= x)%nat)
      by (intros H; apply IH in H; lia).
    destruct hasRouter; [|auto].
    destruct (getAmountsOut k (parseUnits_one (decimals tokA)) (t_address tokA)
                (t_address tokB)); [|auto].
    destruct (getAmountsOut k (parseUnits_one (decimals tokB)) (t_address tokB)
                (t_address tokA)); [|auto].
    destruct Hin as [<- | Hin]; [lia | auto].
Qed.

Lemma collectPrices_NoDup ds : forall k,
  NoDup (collectPrices getAmountsOut tokA tokB ds k).
Proof.
  induction ds as [|hasRouter rest IH]; intros k; cbn [collectPrices].
  - constructor.
  - destruct hasRouter; [|apply IH].
    destruct (getAmountsOut k (parseUnits_one (decimals tokA)) (t_address tokA)
                (t_address tokB)); [|apply IH].
    destruct (getAmountsOut k (parseUnits_one (decimals tokB)) (t_address tokB)
                (t_address tokA)); [|apply IH].
    constructor; [|apply IH].
    intros Hin. apply collectPrices_from in Hin. lia.
Qed.

Local Abbreviation candidate := (two_hop_candidate cfg getAmountsOut tokA tokB).

Lemma twoHop_body_candidates sell buy routes routes' :
  sell <> buy ->
  twoHop_body cfg getAmountsOut tokA tokB sell buy routes = Some routes' ->
  Forall candidate routes -> Forall candidate routes'.
Proof.
  intros Hne H Hall. unfold twoHop_body in H. cbv zeta in H.
  destruct (quote_at cfg getAmountsOut sell (parseUnits_one (decimals tokA))
              (t_address tokA) (t_address tokB)) as [mid|] eqn:Hsell; [|discriminate].
  destruct (quote_at cfg getAmountsOut buy mid (t_address tokB) (t_address tokA))
    as [final|] eqn:Hbuy; [|discriminate].
  injection H as <-.
  destruct (0 <? final - parseUnits_one (decimals tokA)) eqn:Hprofit; [|exact Hall].
  apply Forall_app. split; [exact Hall|]. constructor; [|constructor].
  apply Z.ltb_lt in Hprofit.
  unfold two_hop_candidate. cbn.
  repeat (split; [first [reflexivity | exact Hprofit]|]).
  exists sell, buy, mid. auto.
Qed.

Lemma twoHop_j_candidates i sell : forall buys j routes routes',
  (forall jj buy, nth_error buys jj = Some buy -> i <> (j + jj)%nat -> sell <> buy) ->
  twoHop_j cfg getAmountsOut tokA tokB i sell buys j routes = Some routes' ->
  Forall candidate routes -> Forall candidate routes'.
Proof.
  induction buys as [|buy rest IH]; intros j routes routes' Hdiff H Hall;
    cbn [twoHop_j] in H.
  - injection H as <-. exact Hall.
  - assert (Hrest : forall jj b, nth_error rest jj = Some b -> i <> (S j + jj)%nat ->
                                 sell <> b).
    { intros jj b Hb Hij. apply (Hdiff (S jj) b Hb). lia. }
    destruct (i =? j)%nat eqn:Eij.
    + eapply IH; eauto.
    + apply Nat.eqb_neq in Eij.
      destruct (twoHop_body cfg getAmountsOut tokA tokB sell buy routes)
        as [routes1|] eqn:Hbody; [|discriminate].
      eapply IH; [exact Hrest | exact H |].
      eapply twoHop_body_candidates; [|exact Hbody | exact Hall].
      apply (Hdiff 0%nat buy eq_refl). lia.
Qed.

Lemma twoHop_i_candidates prices : forall sells i routes routes',
  (forall ii sell jj buy,
     nth_error sells ii = Some sell -> nth_error prices jj = Some buy ->
     (i + ii)%nat <> jj -> sell <> buy) ->
  twoHop_i cfg getAmountsOut tokA tokB prices sells i routes = Some routes' ->
  Forall candidate routes -> Forall candidate routes'.
Proof.
  induction sells as [|sell rest IH]; intros i routes routes' Hdiff H Hall;
    cbn [twoHop_i] in H.
  - injection H as <-. exact Hall.
  - destruct (twoHop_j cfg getAmountsOut tokA tokB i sell prices 0 routes)
      as [routes1|] eqn:Hj; [|discriminate].
    eapply IH; [| exact H |].
    + intros ii s jj b Hs Hb Hij. apply (Hdiff (S ii) s jj b Hs Hb). lia.
    + eapply twoHop_j_candidates; [| exact Hj | exact Hall].
      intros jj b Hb Hij. apply (Hdiff 0%nat sell jj b eq_refl Hb). lia.
Qed.

Lemma twoHop_search_candidates routes :
  twoHop_i cfg getAmountsOut tokA tokB
    (collectPrices getAmountsOut tokA tokB (dexes cfg) 0)
    (collectPrices getAmountsOut tokA tokB (dexes cfg) 0) 0 [] = Some routes ->
  Forall candidate routes.
Proof.
  intros H. eapply twoHop_i_candidates; [| exact H | constructor].
  intros ii sell jj buy Hs Hb Hij Heq. subst buy. apply Hij. cbn.
  pose proof (collectPrices_NoDup (dexes cfg) 0) as Hnd.
  rewrite NoDup_nth_error in Hnd. apply Hnd; [|congruence].
  apply nth_error_Some. congruence.
Qed.

End TwoHopFacts.

(** X15. With [maxHops] below 3 the route search of
    [findBestArbitrageRoute] always comes to an end, and every candidate
    it hands to the ranking is a round trip A, B, A over two different
    venues with routers, priced by the two quotes of the loop body, with
    a positive profit equal to the final quote less the stake of one
    unit of A. Such a route ends at the token it starts from. *)
Theorem two_hop_candidates_are_profitable_round_trips
    (cfg : ArbitrageManager.Config) (tokenList : list ArbitrageManager.Token)
    (getAmountsOut : nat -> Z -> string -> string -> option Z)
    (tokA tokB : ArbitrageManager.Token) (fuel : nat) :
  ArbitrageManager.maxHops cfg < 3 ->
  match ArbitrageManager.findBestArbitrageRoute_routes cfg tokenList getAmountsOut
          tokA tokB fuel with
  | ArbitrageManager.OutOfFuel => False
  | ArbitrageManager.ReturnsNull => True
  | ArbitrageManager.Candidates routes =>
      routes <> [] /\ Forall (two_hop_candidate cfg getAmountsOut tokA tokB) routes
  end.
Proof.
  intros Hhops. unfold ArbitrageManager.findBestArbitrageRoute_routes. cbv zeta.
  destruct (List.length (ArbitrageManager.collectPrices getAmountsOut tokA tokB
                           (ArbitrageManager.dexes cfg) 0) <? 2)%nat; [exact I|].
  destruct (ArbitrageManager.twoHop_i cfg getAmountsOut tokA tokB
              (ArbitrageManager.collectPrices getAmountsOut tokA tokB
                 (ArbitrageManager.dexes cfg) 0)
              (ArbitrageManager.collectPrices getAmountsOut tokA tokB
                 (ArbitrageManager.dexes cfg) 0) 0 []) as [routes|] eqn:Hsearch;
    [|exact I].
  apply Z.leb_gt in Hhops. rewrite Hhops.
  apply twoHop_search_candidates in Hsearch.
  destruct routes as [|r rest]; [exact I|].
  split; [discriminate | exact Hsearch].
Qed.

Lemma two_hop_candidates_are_profitable_round_trips_witness :
  match ArbitrageManager.findBestArbitrageRoute_routes two_hop_config
          [WETH_token; USDC_token; DAI_token] spread_quotes WETH_token USDC_token 0 with
  | ArbitrageManager.OutOfFuel => False
  | ArbitrageManager.ReturnsNull => True
  | ArbitrageManager.Candidates routes =>
      routes <> []
      /\ Forall (two_hop_candidate two_hop_config spread_quotes WETH_token USDC_token) routes
  end.
Proof.
  apply (two_hop_candidates_are_profitable_round_trips two_hop_config
           [WETH_token; USDC_token; DAI_token] spread_quotes WETH_token USDC_token 0).
  reflexivity.
Defined.

(** On these quotes the search finds the one profitable direction. *)
Example two_hop_search_finds_the_spread :
  ArbitrageManager.findBestArbitrageRoute_routes two_hop_config
    [WETH_token; USDC_token; DAI_token] spread_quotes WETH_token USDC_token 0
  = ArbitrageManager.Candidates
      [ArbitrageManager.mkRoute "2-hop" ["0xC02a"; "0xA0b8"; "0xC02a"]%string [0; 1]%nat
         1000000000000000000 2000000000000000000 1000000000000000000].
Proof. vm_compute. reflexivity. Qed.

(** ** The token registry *)

Section RegistryFacts.

Import ArbitrageManager.

Variable toLowerCase : string -> string.
Variable js_length : string -> nat.
Variable getPair : nat -> string -> string -> option string.
Variable tokenInfo : string -> option (string * Z * string).
Variable pairTokens : Z -> option (string * string).

Local Abbreviation addNew := (addNewTokenIfNotExists toLowerCase js_length tokenInfo).
Local Abbreviation discover_body :=
  (discoverNewTokens_body toLowerCase js_length tokenInfo pairTokens).
Local Abbreviation passed := (passed_the_filter js_length tokenInfo).

Lemma NoDup_snoc {A} (l : list A) x : NoDup l -> ~ In x l -> NoDup (l ++ [x]).
Proof.
  induction 1 as [|y l Hy Hl IH]; intros Hx; cbn.
  - constructor; [intros [] | constructor].
  - constructor.
    + rewrite in_app_iff. intros [Hin | [-> | []]]; [contradiction|].
      apply Hx. left. reflexivity.
    + apply IH. intros Hin. apply Hx. right. exact Hin.
Qed.

Lemma unlisted_address tokens a :
  existsb (fun t => same_address toLowerCase (t_address t) a) tokens = false ->
  forall t, In t tokens -> toLowerCase (t_address t) <> toLowerCase a.
Proof.
  intros Hnone t Hin Heq.
  assert (Hsome : existsb (fun t => same_address toLowerCase (t_address t) a) tokens = true).
  { apply existsb_exists. exists t. split; [exact Hin|].
    unfold same_address. rewrite Heq. apply String.eqb_refl. }
  congruence.
Qed.

Lemma pairs_of_new_tokens_app shared : forall a1 bases a2,
  pairs_of_new_tokens shared bases (a1 ++ a2)
  = pairs_of_new_tokens shared bases a1
    ++ pairs_of_new_tokens shared (if shared then bases ++ a1 else bases) a2.
Proof.
  induction a1 as [|t rest IH]; intros bases a2; cbn [pairs_of_new_tokens app].
  - destruct shared; rewrite ?app_nil_r; reflexivity.
  - cbv zeta. rewrite IH, <- app_assoc. do 2 f_equal.
    destruct shared; [rewrite <- app_assoc|]; reflexivity.
Qed.

Lemma registry_grows_refl Q r : registry_grows Q r r.
Proof.
  exists []. cbn. rewrite !app_nil_r.
  destruct (shares_the_base_tokens r); auto.
Qed.

Lemma registry_grows_trans Q r1 r2 r3 :
  registry_grows Q r1 r2 -> registry_grows Q r2 r3 -> registry_grows Q r1 r3.
Proof.
  intros (a1 & Ht1 & Hs1 & Hb1 & Hw1 & Hq1) (a2 & Ht2 & Hs2 & Hb2 & Hw2 & Hq2).
  exists (a1 ++ a2).
  split; [rewrite Ht2, Ht1, app_assoc; reflexivity|].
  split; [congruence|].
  rewrite Hs1 in *.
  split; [rewrite Hb2, Hb1; destruct (shares_the_base_tokens r1);
          rewrite ?app_assoc; reflexivity|].
  split; [|apply Forall_app; auto].
  rewrite Hw2, Hw1, Hb1, pairs_of_new_tokens_app, app_assoc. reflexivity.
Qed.

(** One call of [addNewTokenIfNotExists]. *)
Lemma addNewTokenIfNotExists_grows r a : registry_grows passed r (addNew r a).
Proof.
  unfold addNewTokenIfNotExists.
  destruct (existsb (fun t => same_address toLowerCase (t_address t) a) (tokenList r));
    [apply registry_grows_refl|].
  destruct (tokenInfo a) as [[[sym dec] name]|] eqn:Hinfo; [|apply registry_grows_refl].
  destruct ((30 <? js_length sym)%nat || (50 <? js_length name)%nat) eqn:Hspam;
    [apply registry_grows_refl|].
  apply orb_false_iff in Hspam as [Hsym Hname].
  apply Nat.ltb_ge in Hsym, Hname.
  cbv zeta. exists [mkToken sym a dec].
  unfold tokenList_push, tokenList, shares_the_base_tokens.
  destruct (tokenListRef r) as [|own];
    cbn [tokenListRef baseTokens watchedPairs pairs_of_new_tokens];
    rewrite ?app_nil_r;
    (repeat (split; [reflexivity|]));
    (constructor; [|constructor]); exists name; cbn; auto.
Qed.

Lemma addNewTokenIfNotExists_distinct r a :
  distinct_tokens toLowerCase r -> distinct_tokens toLowerCase (addNew r a).
Proof.
  intros Hd. unfold addNewTokenIfNotExists.
  destruct (existsb (fun t => same_address toLowerCase (t_address t) a) (tokenList r))
    eqn:Hex; [exact Hd|].
  destruct (tokenInfo a) as [[[sym dec] name]|]; [|exact Hd].
  destruct ((30 <? js_length sym)%nat || (50 <? js_length name)%nat); [exact Hd|].
  cbv zeta. unfold distinct_tokens, tokenList, tokenList_push in *.
  destruct (tokenListRef r) as [|own];
    cbn [tokenListRef baseTokens]; rewrite map_app; cbn [map t_address];
    (apply NoDup_snoc; [exact Hd|]);
    intros Hin; apply in_map_iff in Hin as (t & Ht & Hin);
    exact (unlisted_address _ _ Hex t Hin Ht).
Qed.

Lemma discoverNewTokens_body_grows r i : registry_grows passed r (discover_body r i).
Proof.
  unfold discoverNewTokens_body.
  destruct (pairTokens i) as [[token0 token1]|]; [|apply registry_grows_refl].
  eapply registry_grows_trans; apply addNewTokenIfNotExists_grows.
Qed.

Lemma discoverNewTokens_body_distinct r i :
  distinct_tokens toLowerCase r -> distinct_tokens toLowerCase (discover_body r i).
Proof.
  intros Hd. unfold discoverNewTokens_body.
  destruct (pairTokens i) as [[token0 token1]|]; [|exact Hd].
  apply addNewTokenIfNotExists_distinct, addNewTokenIfNotExists_distinct. exact Hd.
Qed.

Lemma discovery_rounds_grow indices : forall r,
  registry_grows passed r (fold_left discover_body indices r).
Proof.
  induction indices as [|i rest IH]; intros r; cbn [fold_left].
  - apply registry_grows_refl.
  - eapply registry_grows_trans; [apply discoverNewTokens_body_grows | apply IH].
Qed.

Lemma discovery_rounds_distinct indices : forall r,
  distinct_tokens toLowerCase r ->
  distinct_tokens toLowerCase (fold_left discover_body indices r).
Proof.
  induction indices as [|i rest IH]; intros r Hd; cbn [fold_left]; [exact Hd|].
  apply IH, discoverNewTokens_body_distinct. exact Hd.
Qed.

Lemma discoverNewTokens_grows allPairsLength r :
  registry_grows passed r
    (discoverNewTokens toLowerCase js_length tokenInfo pairTokens allPairsLength r).
Proof.
  unfold discoverNewTokens.
  destruct allPairsLength as [n|]; [|apply registry_grows_refl].
  destruct (2 ^ 53 <=? n)%Z; [apply registry_grows_refl|].
  cbv zeta. apply discovery_rounds_grow.
Qed.

Lemma discoverNewTokens_distinct allPairsLength r :
  distinct_tokens toLowerCase r ->
  distinct_tokens toLowerCase
    (discoverNewTokens toLowerCase js_length tokenInfo pairTokens allPairsLength r).
Proof.
  intros Hd. unfold discoverNewTokens.
  destruct allPairsLength as [n|]; [|exact Hd].
  destruct (2 ^ 53 <=? n)%Z; [exact Hd|].
  cbv zeta. apply discovery_rounds_distinct. exact Hd.
Qed.

(** *** Pairs of a token with itself *)

Lemma initWatchedPairs_body_sound venues baseToken watched token :
  no_self_pairs toLowerCase watched ->
  no_self_pairs toLowerCase
    (initWatchedPairs_body toLowerCase getPair venues baseToken watched token).
Proof.
  intros Hw. unfold initWatchedPairs_body.
  destruct (same_address toLowerCase (t_address baseToken) (t_address token)) eqn:Hsame;
    [exact Hw|].
  destruct (pairExists getPair venues (t_address baseToken) (t_address token));
    [|exact Hw].
  apply Forall_app. split; [exact Hw|]. constructor; [exact Hsame | constructor].
Qed.

Lemma initWatchedPairs_inner_sound venues baseToken tokens : forall watched,
  no_self_pairs toLowerCase watched ->
  no_self_pairs toLowerCase
    (fold_left (initWatchedPairs_body toLowerCase getPair venues baseToken) tokens watched).
Proof.
  induction tokens as [|t rest IH]; intros watched Hw; cbn [fold_left]; [exact Hw|].
  apply IH. apply initWatchedPairs_body_sound. exact Hw.
Qed.

Lemma initWatchedPairs_outer_sound venues tokens bases : forall watched,
  no_self_pairs toLowerCase watched ->
  no_self_pairs toLowerCase
    (fold_left (fun watched baseToken =>
                  fold_left (initWatchedPairs_body toLowerCase getPair venues baseToken)
                            tokens watched)
               bases watched).
Proof.
  induction bases as [|b rest IH]; intros watched Hw; cbn [fold_left]; [exact Hw|].
  apply IH. apply initWatchedPairs_inner_sound. exact Hw.
Qed.

(** With a token list of its own, a new token differs from every base
    token, all of them being listed. *)
Lemma addNewTokenIfNotExists_sound r a :
  shares_the_base_tokens r = false ->
  registry_sound toLowerCase r ->
  shares_the_base_tokens (addNew r a) = false
  /\ registry_sound toLowerCase (addNew r a).
Proof.
  intros Hown [Hbase Hw]. unfold addNewTokenIfNotExists.
  destruct (existsb (fun t => same_address toLowerCase (t_address t) a) (tokenList r))
    eqn:Hex; [split; [|split]; assumption|].
  destruct (tokenInfo a) as [[[sym dec] name]|]; [|split; [|split]; assumption].
  destruct ((30 <? js_length sym)%nat || (50 <? js_length name)%nat);
    [split; [|split]; assumption|].
  cbv zeta. unfold registry_sound, base_tokens_listed, tokenList_push,
    shares_the_base_tokens, tokenList in *.
  destruct (tokenListRef r) as [|own]; [discriminate|].
  cbn [tokenListRef baseTokens watchedPairs].
  split; [reflexivity|]. split.
  - intros b Hb. destruct (Hbase b Hb) as (t & Ht & Hsame). exists t.
    split; [|exact Hsame]. apply in_or_app. left. exact Ht.
  - apply Forall_app. split; [exact Hw|].
    apply Forall_forall. intros p Hp. apply in_map_iff in Hp as (b & <- & Hb).
    cbn [fresh_pair tokenA tokenB t_address].
    destruct (Hbase b Hb) as (t & Ht & Hsame).
    unfold same_address in *. apply String.eqb_eq in Hsame.
    apply String.eqb_neq. rewrite Hsame.
    exact (unlisted_address _ _ Hex t Ht).
Qed.

Lemma discovery_rounds_sound indices : forall r,
  shares_the_base_tokens r = false ->
  registry_sound toLowerCase r ->
  registry_sound toLowerCase (fold_left discover_body indices r).
Proof.
  induction indices as [|i rest IH]; intros r Hown Hr; cbn [fold_left]; [exact Hr|].
  unfold discoverNewTokens_body.
  destruct (pairTokens i) as [[token0 token1]|]; [|apply IH; assumption].
  destruct (addNewTokenIfNotExists_sound r token0 Hown Hr) as [Hown0 Hr0].
  destruct (addNewTokenIfNotExists_sound _ token1 Hown0 Hr0) as [Hown1 Hr1].
  apply IH; assumption.
Qed.

(** On the shared array every added token is paired with itself. *)
Lemma self_pairs_of_new_tokens added : forall bases t,
  In t added ->
  In (fresh_pair t t) (pairs_of_new_tokens true bases added).
Proof.
  induction added as [|t0 rest IH]; intros bases t Hin; [destruct Hin|].
  cbn [pairs_of_new_tokens]. cbv zeta. apply in_or_app.
  destruct Hin as [-> | Hin].
  - left. apply in_map_iff. exists t. split; [reflexivity|].
    apply in_or_app. right. left. reflexivity.
  - right. apply IH. exact Hin.
Qed.

End RegistryFacts.

(** X16. Token discovery lists every token once: if no two listed
    tokens share an address up to letter case, the same holds after
    [discoverNewTokens]; the token list and the watched pairs only grow
    at the end; every token added answered its three contract calls and
    passed the spam filter. The pairs added for a new token are one
    fresh pair per element of [CONFIG.baseTokens] at that moment: with a
    token list of its own these are the base tokens, in order; when the
    token list is the array of the base tokens itself, the push has made
    the new token, and those added before it, base tokens. Nothing is
    added when the factory reports 2^53 pairs or more. *)
Theorem discoverNewTokens_lists_each_token_once
    (toLowerCase : string -> string) (js_length : string -> nat)
    (tokenInfo : string -> option (string * Z * string))
    (pairTokens : Z -> option (string * string))
    (allPairsLength : option Z) (r : ArbitrageManager.Registry) :
  distinct_tokens toLowerCase r ->
  distinct_tokens toLowerCase
    (ArbitrageManager.discoverNewTokens toLowerCase js_length tokenInfo pairTokens
       allPairsLength r)
  /\ registry_grows (passed_the_filter js_length tokenInfo) r
       (ArbitrageManager.discoverNewTokens toLowerCase js_length tokenInfo pairTokens
          allPairsLength r)
  /\ (forall n, allPairsLength = Some n -> 2 ^ 53 <= n ->
      ArbitrageManager.discoverNewTokens toLowerCase js_length tokenInfo pairTokens
        allPairsLength r = r).
Proof.
  intros Hd.
  split; [apply discoverNewTokens_distinct; exact Hd|].
  split; [apply discoverNewTokens_grows|].
  intros n -> Hn. unfold ArbitrageManager.discoverNewTokens.
  apply Z.leb_le in Hn. rewrite Hn. reflexivity.
Qed.

Lemma discoverNewTokens_lists_each_token_once_witness :
  distinct_tokens lower
    (ArbitrageManager.discoverNewTokens lower String.length sample_tokenInfo
       sample_pairTokens (Some 1) startup_registry)
  /\ registry_grows (passed_the_filter String.length sample_tokenInfo)
       startup_registry
       (ArbitrageManager.discoverNewTokens lower String.length sample_tokenInfo
          sample_pairTokens (Some 1) startup_registry)
  /\ (forall n, Some 1 = Some n -> 2 ^ 53 <= n ->
      ArbitrageManager.discoverNewTokens lower String.length sample_tokenInfo
        sample_pairTokens (Some 1) startup_registry = startup_registry).
Proof.
  apply (discoverNewTokens_lists_each_token_once lower String.length
           sample_tokenInfo sample_pairTokens (Some 1) startup_registry).
  unfold distinct_tokens. vm_compute.
  repeat constructor; cbn; intuition discriminate.
Defined.

(** On the sample factory, whose one pair trades USDC (written in
    capitals) against an unlisted token: USDC is not listed again, the
    new token is. Without [token-list.json] the new token has joined the
    base tokens and is paired with itself as well; with a token list
    read from the file it gets one pair per base token. A factory of
    2^53 pairs stops the discovery. *)
Example discovery_skips_the_listed_token_in_capitals :
  ArbitrageManager.discoverNewTokens lower String.length sample_tokenInfo
    sample_pairTokens (Some 1) startup_registry
  = ArbitrageManager.mkRegistry
      [WETH_token; USDC_token; ArbitrageManager.mkToken "DAI" "0x6B17" 18]
      ArbitrageManager.ConfigBaseTokens
      [ArbitrageManager.fresh_pair WETH_token (ArbitrageManager.mkToken "DAI" "0x6B17" 18);
       ArbitrageManager.fresh_pair USDC_token (ArbitrageManager.mkToken "DAI" "0x6B17" 18);
       ArbitrageManager.fresh_pair (ArbitrageManager.mkToken "DAI" "0x6B17" 18)
         (ArbitrageManager.mkToken "DAI" "0x6B17" 18)]
  /\ ArbitrageManager.discoverNewTokens lower String.length sample_tokenInfo
       sample_pairTokens (Some 1) registry_from_file
     = ArbitrageManager.mkRegistry
         [WETH_token; USDC_token]
         (ArbitrageManager.OwnArray
            [WETH_token; USDC_token; ArbitrageManager.mkToken "DAI" "0x6B17" 18])
         [ArbitrageManager.fresh_pair WETH_token (ArbitrageManager.mkToken "DAI" "0x6B17" 18);
          ArbitrageManager.fresh_pair USDC_token (ArbitrageManager.mkToken "DAI" "0x6B17" 18)]
  /\ ArbitrageManager.discoverNewTokens lower String.length sample_tokenInfo
       (fun _ => Some ("0xA0B8", "0x6B17")%string) (Some (2 ^ 53)) registry_from_file
     = registry_from_file.
Proof. repeat split; vm_compute; reflexivity. Qed.

(** X17. Where pairs of a token with itself come from: [initWatchedPairs]
    never adds one. [discoverNewTokens] adds none either, and keeps the
    base tokens listed, as long as the token list is an array of its own
    that holds every base token; when the token list is the array of the
    base tokens itself, as it is without [token-list.json], every token
    that [discoverNewTokens] adds is paired with itself. *)
Theorem self_pairs_come_from_the_shared_token_list
    (toLowerCase : string -> string) (js_length : string -> nat)
    (getPair : nat -> string -> string -> option string)
    (tokenInfo : string -> option (string * Z * string))
    (pairTokens : Z -> option (string * string))
    (venues : list nat) (allPairsLength : option Z) (r : ArbitrageManager.Registry) :
  let discovered :=
    ArbitrageManager.discoverNewTokens toLowerCase js_length tokenInfo pairTokens
      allPairsLength r in
  no_self_pairs toLowerCase (ArbitrageManager.watchedPairs r) ->
  no_self_pairs toLowerCase
    (ArbitrageManager.watchedPairs
       (ArbitrageManager.initWatchedPairs toLowerCase getPair venues r))
  /\ (shares_the_base_tokens r = false ->
      base_tokens_listed toLowerCase r ->
      registry_sound toLowerCase discovered)
  /\ (shares_the_base_tokens r = true ->
      forall t,
        In t (ArbitrageManager.tokenList discovered) ->
        ~ In t (ArbitrageManager.tokenList r) ->
        In (ArbitrageManager.fresh_pair t t) (ArbitrageManager.watchedPairs discovered)).
Proof.
  intros discovered Hw. split; [|split].
  - unfold ArbitrageManager.initWatchedPairs. cbn [ArbitrageManager.watchedPairs].
    apply initWatchedPairs_outer_sound. exact Hw.
  - intros Hown Hbase. subst discovered. unfold ArbitrageManager.discoverNewTokens.
    destruct allPairsLength as [n|]; [|split; assumption].
    destruct (2 ^ 53 <=? n); [split; assumption|].
    cbv zeta. apply discovery_rounds_sound; [exact Hown | split; assumption].
  - intros Hshared t Hin Hnew.
    destruct (discoverNewTokens_grows toLowerCase js_length tokenInfo pairTokens
                allPairsLength r) as (added & Ht & _ & _ & Hpairs & _).
    fold discovered in Ht, Hpairs.
    rewrite Ht in Hin. apply in_app_or in Hin as [Hin | Hin]; [contradiction|].
    rewrite Hpairs, Hshared. apply in_or_app. right.
    apply self_pairs_of_new_tokens. exact Hin.
Qed.

Lemma self_pairs_come_from_the_shared_token_list_witness :
  no_self_pairs lower
    (ArbitrageManager.watchedPairs
       (ArbitrageManager.initWatchedPairs lower sample_getPair [0; 1]%nat startup_registry))
  /\ In (ArbitrageManager.fresh_pair (ArbitrageManager.mkToken "DAI" "0x6B17" 18)
           (ArbitrageManager.mkToken "DAI" "0x6B17" 18))
        (ArbitrageManager.watchedPairs
           (ArbitrageManager.discoverNewTokens lower String.length sample_tokenInfo
              sample_pairTokens (Some 1) startup_registry)).
Proof.
  destruct (self_pairs_come_from_the_shared_token_list lower String.length sample_getPair
              sample_tokenInfo sample_pairTokens [0; 1]%nat (Some 1) startup_registry)
    as (Hinit & _ & Hshared).
  - constructor.
  - split; [exact Hinit|]. apply Hshared.
    + reflexivity.
    + vm_compute. auto.
    + vm_compute. intros [H | [H | []]]; discriminate H.
Defined.

(** At startup the two base tokens are paired with each other in both
    directions, and neither with itself; a discovery on a token list read
    from the file leaves the registry sound. *)
Example startup_pairs_of_the_two_base_tokens :
  ArbitrageManager.watchedPairs
    (ArbitrageManager.initWatchedPairs lower sample_getPair [0; 1]%nat startup_registry)
  = [ArbitrageManager.fresh_pair WETH_token USDC_token;
     ArbitrageManager.fresh_pair USDC_token WETH_token]
  /\ registry_sound lower
       (ArbitrageManager.discoverNewTokens lower String.length sample_tokenInfo
          sample_pairTokens (Some 1) registry_from_file).
Proof.
  split; [vm_compute; reflexivity|].
  apply (discovery_rounds_sound lower String.length sample_tokenInfo sample_pairTokens
           [0] registry_from_file); [reflexivity|].
  split.
  - intros b Hb. exists b. split; [exact Hb|].
    unfold ArbitrageManager.same_address. apply String.eqb_refl.
  - constructor.
Qed.

(** ** The analyzer's history and recommendations *)

Section HistoryFacts.

Import ProfitAnalyzer.
Local Open Scope float_scope.

Lemma slice_last_split {A} (n : nat) (l : list A) :
  l = firstn (List.length l - n) l ++ slice_last n l.
Proof. unfold slice_last. symmetry. apply firstn_skipn. Qed.

Lemma slice_last_last {A} (n : nat) (l : list A) (x : A) :
  (0 < n)%nat -> exists front, slice_last n (l ++ [x]) = front ++ [x].
Proof.
  intros Hn. unfold slice_last. rewrite length_app. cbn [List.length].
  rewrite skipn_app.
  replace (List.length l + 1 - n - List.length l)%nat with 0%nat by lia.
  cbn [skipn]. eauto.
Qed.

(** A number that is not equal to itself has no place in the order. *)
Lemma nan_is_unordered (x y : float) :
  is_nan x = true -> (x <=? y) = false /\ (y <? x) = false.
Proof.
  unfold is_nan. rewrite negb_true_iff, eqb_spec, leb_spec, ltb_spec.
  unfold SFeqb, SFleb, SFltb.
  destruct (Prim2SF x) as [sx | sx | | sx mx ex]; cbn.
  - destruct sx; discriminate.
  - destruct sx; discriminate.
  - intros _. destruct (Prim2SF y) as [sy | sy | | sy my ey]; auto.
  - rewrite Z.compare_refl, Pos.compare_cont_refl. destruct sx; discriminate.
Qed.

Lemma zero_or_neg_zero (x : float) :
  (x =? 0) = true -> x = 0 \/ x = neg_zero.
Proof.
  rewrite eqb_spec. change (Prim2SF 0) with (S754_zero false). intros H.
  rewrite <- (SF2Prim_Prim2SF x).
  destruct (Prim2SF x) as [[|] | [|] | | [|] mx ex]; cbn in H; try discriminate.
  - right. reflexivity.
  - left. reflexivity.
Qed.

(** A finite number other than [-0] is written to the file as it is. *)
Lemma json_number_plain (x : float) :
  plain_number x = true -> json_number x = Some x.
Proof.
  unfold plain_number, json_number, is_finite. intros H.
  apply andb_true_iff in H as [Hfin Hsign].
  apply negb_true_iff in Hfin. rewrite Hfin.
  destruct (x =? 0) eqn:Hz; [|reflexivity].
  destruct (zero_or_neg_zero x Hz) as [-> | ->]; [reflexivity|].
  vm_compute in Hsign. discriminate Hsign.
Qed.

Lemma stringify_plain (t : ProfitSample) :
  plain_sample t = true -> stringify t = verbatim t.
Proof.
  unfold plain_sample, stringify, verbatim. intros H.
  apply andb_true_iff in H as [H H3]. apply andb_true_iff in H as [H1 H2].
  rewrite !json_number_plain by assumption. reflexivity.
Qed.

End HistoryFacts.

(** X18. A call of [analyzeEstimationAccuracy] with both figures
    present appends one sample made of the trade's figures and their
    error ratio, then keeps the most recent 100: whatever the history
    held before, afterwards it holds at most 100 samples, they are the
    tail of the old history followed by the new sample. The statistics
    file is untouched when the write fails; when it succeeds it holds
    these samples as [JSON.stringify] writes them, which is figure for
    figure what the history holds as long as every figure is finite and
    none is the negative zero. *)
Theorem analyzeEstimationAccuracy_keeps_the_last_hundred
    (write_ok : bool) (a : ProfitAnalyzer.Analyzer) (tradeData : ProfitAnalyzer.TradeData) :
  ProfitAnalyzer.truthy (ProfitAnalyzer.td_estimated tradeData) = true ->
  ProfitAnalyzer.truthy (ProfitAnalyzer.td_actual tradeData) = true ->
  exists est act dropped kept,
    ProfitAnalyzer.td_estimated tradeData = Some est
    /\ ProfitAnalyzer.td_actual tradeData = Some act
    /\ ProfitAnalyzer.historicalData
         (snd (ProfitAnalyzer.analyzeEstimationAccuracy write_ok a tradeData))
       = kept ++ [ProfitAnalyzer.mkSample (ProfitAnalyzer.td_timestamp tradeData)
                    (ProfitAnalyzer.td_pair tradeData) est act
                    (PrimFloat.div (PrimFloat.abs (PrimFloat.sub est act)) est)]
    /\ ProfitAnalyzer.historicalData a = dropped ++ kept
    /\ List.length
         (ProfitAnalyzer.historicalData
            (snd (ProfitAnalyzer.analyzeEstimationAccuracy write_ok a tradeData)))
       = Nat.min (List.length (ProfitAnalyzer.historicalData a) + 1) 100
    /\ ProfitAnalyzer.statisticsFile
         (snd (ProfitAnalyzer.analyzeEstimationAccuracy write_ok a tradeData))
       = (if write_ok
          then map ProfitAnalyzer.stringify
                 (ProfitAnalyzer.historicalData
                    (snd (ProfitAnalyzer.analyzeEstimationAccuracy write_ok a tradeData)))
          else ProfitAnalyzer.statisticsFile a)
    /\ (write_ok = true ->
        forallb plain_sample
          (ProfitAnalyzer.historicalData
             (snd (ProfitAnalyzer.analyzeEstimationAccuracy write_ok a tradeData))) = true ->
        ProfitAnalyzer.statisticsFile
          (snd (ProfitAnalyzer.analyzeEstimationAccuracy write_ok a tradeData))
        = map verbatim
            (ProfitAnalyzer.historicalData
               (snd (ProfitAnalyzer.analyzeEstimationAccuracy write_ok a tradeData)))).
Proof.
  intros Hest Hact. unfold ProfitAnalyzer.analyzeEstimationAccuracy.
  rewrite Hest, Hact. cbn [negb orb].
  destruct (ProfitAnalyzer.td_estimated tradeData) as [est|]; [|discriminate].
  destruct (ProfitAnalyzer.td_actual tradeData) as [act|]; [|discriminate].
  cbv zeta. exists est, act.
  set (sample := ProfitAnalyzer.mkSample _ _ est act _).
  set (pushed := ProfitAnalyzer.historicalData a ++ [sample]).
  assert (Hkept : exists dropped kept,
            (if (100 <? List.length pushed)%nat
             then ProfitAnalyzer.slice_last 100 pushed else pushed) = kept ++ [sample]
            /\ ProfitAnalyzer.historicalData a = dropped ++ kept
            /\ List.length (if (100 <? List.length pushed)%nat
                            then ProfitAnalyzer.slice_last 100 pushed else pushed)
               = Nat.min (List.length (ProfitAnalyzer.historicalData a) + 1) 100).
  { assert (Hlen : List.length pushed
                   = (List.length (ProfitAnalyzer.historicalData a) + 1)%nat)
      by (unfold pushed; rewrite length_app; reflexivity).
    destruct (100 <? List.length pushed)%nat eqn:Hmany.
    - apply Nat.ltb_lt in Hmany.
      destruct (slice_last_last 100 (ProfitAnalyzer.historicalData a) sample ltac:(lia))
        as [front Hfront].
      fold pushed in Hfront.
      exists (firstn (List.length pushed - 100) pushed), front.
      split; [exact Hfront|]. split.
      + pose proof (slice_last_split 100 pushed) as Hsplit.
        rewrite Hfront, app_assoc in Hsplit. unfold pushed in Hsplit at 1.
        apply app_inj_tail in Hsplit as [Hsplit _]. exact Hsplit.
      + rewrite slice_last_length. lia.
    - apply Nat.ltb_ge in Hmany.
      exists [], (ProfitAnalyzer.historicalData a).
      split; [reflexivity|]. split; [reflexivity | lia]. }
  destruct Hkept as (dropped & kept & Hk & Hd & Hl).
  exists dropped, kept.
  unfold ProfitAnalyzer.saveHistoricalData.
  destruct write_ok; cbn [snd ProfitAnalyzer.historicalData ProfitAnalyzer.statisticsFile].
  - repeat (split; [assumption || reflexivity|]).
    intros _ Hplain. apply map_ext_in. intros t Ht.
    apply stringify_plain. rewrite forallb_forall in Hplain. apply Hplain. exact Ht.
  - repeat (split; [assumption || reflexivity|]). intros H. discriminate H.
Qed.

Lemma analyzeEstimationAccuracy_keeps_the_last_hundred_witness :
  exists est act dropped kept,
    ProfitAnalyzer.td_estimated fair_trade = Some est
    /\ ProfitAnalyzer.td_actual fair_trade = Some act
    /\ ProfitAnalyzer.historicalData
         (snd (ProfitAnalyzer.analyzeEstimationAccuracy true long_history fair_trade))
       = kept ++ [ProfitAnalyzer.mkSample (ProfitAnalyzer.td_timestamp fair_trade)
                    (ProfitAnalyzer.td_pair fair_trade) est act
                    (PrimFloat.div (PrimFloat.abs (PrimFloat.sub est act)) est)]
    /\ ProfitAnalyzer.historicalData long_history = dropped ++ kept
    /\ List.length
         (ProfitAnalyzer.historicalData
            (snd (ProfitAnalyzer.analyzeEstimationAccuracy true long_history fair_trade)))
       = Nat.min (List.length (ProfitAnalyzer.historicalData long_history) + 1) 100
    /\ ProfitAnalyzer.statisticsFile
         (snd (ProfitAnalyzer.analyzeEstimationAccuracy true long_history fair_trade))
       = map ProfitAnalyzer.stringify
           (ProfitAnalyzer.historicalData
              (snd (ProfitAnalyzer.analyzeEstimationAccuracy true long_history fair_trade)))
    /\ ProfitAnalyzer.statisticsFile
         (snd (ProfitAnalyzer.analyzeEstimationAccuracy true long_history fair_trade))
       = map verbatim
           (ProfitAnalyzer.historicalData
              (snd (ProfitAnalyzer.analyzeEstimationAccuracy true long_history fair_trade))).
Proof.
  destruct (analyzeEstimationAccuracy_keeps_the_last_hundred true long_history fair_trade)
    as (est & act & dropped & kept & H1 & H2 & H3 & H4 & H5 & H6 & H7).
  - vm_compute. reflexivity.
  - vm_compute. reflexivity.
  - exists est, act, dropped, kept.
    repeat (split; [assumption|]).
    apply H7; [reflexivity | vm_compute; reflexivity].
Defined.

(** What the file does not repeat: a trade with an infinite estimate is
    recorded with the error ratio [NaN], and the file holds [null] for
    both; a history that holds [-0] is written with [0]. *)
Example statistics_file_of_an_unmeasurable_trade :
  ProfitAnalyzer.statisticsFile
    (snd (ProfitAnalyzer.analyzeEstimationAccuracy true
            (ProfitAnalyzer.mkAnalyzer [ProfitAnalyzer.mkSample 0 "WETH-USDC" 1 1 neg_zero] [])
            (ProfitAnalyzer.mkTrade (Some infinity) (Some 1%float) "WETH-USDC" 1000)))
  = [ProfitAnalyzer.mkStored 0 "WETH-USDC" (Some 1%float) (Some 1%float) (Some 0%float);
     ProfitAnalyzer.mkStored 1000 "WETH-USDC" None (Some 1%float) None].
Proof. vm_compute. reflexivity. Qed.

(** X19. The two verdicts of [analyzeEstimationAccuracy] exclude each
    other: no report is both accurate and critical, and a report whose
    error ratio is not a number is neither. *)
Theorem accurate_and_critical_exclude_each_other
    (write_ok : bool) (a a' : ProfitAnalyzer.Analyzer)
    (tradeData : ProfitAnalyzer.TradeData) (accurate critical : bool)
    (ratio percent : float) :
  ProfitAnalyzer.analyzeEstimationAccuracy write_ok a tradeData
    = (ProfitAnalyzer.AccuracyReport accurate critical ratio percent, a') ->
  (accurate = true -> critical = false)
  /\ (PrimFloat.is_nan ratio = true -> accurate = false /\ critical = false).
Proof.
  intros H. unfold ProfitAnalyzer.analyzeEstimationAccuracy in H.
  destruct (negb (ProfitAnalyzer.truthy (ProfitAnalyzer.td_estimated tradeData))
            || negb (ProfitAnalyzer.truthy (ProfitAnalyzer.td_actual tradeData)));
    [discriminate|].
  destruct (ProfitAnalyzer.td_estimated tradeData) as [est|]; [|discriminate].
  destruct (ProfitAnalyzer.td_actual tradeData) as [act|]; [|discriminate].
  cbv zeta in H. injection H as Hacc Hcrit Hratio _ _. subst ratio.
  set (ratio := PrimFloat.div _ _) in *. split.
  - intros ->. rewrite <- Hcrit.
    destruct (PrimFloat.ltb ProfitAnalyzer.criticalErrorThreshold ratio) eqn:Hc;
      [|reflexivity].
    pose proof (ltb_leb_trans _ _ _ Hc Hacc) as Habs.
    vm_compute in Habs. discriminate.
  - intros Hnan.
    destruct (nan_is_unordered ratio ProfitAnalyzer.errorThreshold Hnan) as [Hle _].
    destruct (nan_is_unordered ratio ProfitAnalyzer.criticalErrorThreshold Hnan)
      as [_ Hlt].
    split; congruence.
Qed.

Lemma accurate_and_critical_exclude_each_other_witness :
  (false = true -> false = false)
  /\ (PrimFloat.is_nan (PrimFloat.div (PrimFloat.abs (PrimFloat.sub infinity infinity))
                          infinity) = true ->
      false = false /\ false = false).
Proof.
  apply (accurate_and_critical_exclude_each_other true history_around_half
           (snd (ProfitAnalyzer.analyzeEstimationAccuracy true history_around_half
                   unmeasurable_trade))
           unmeasurable_trade false false
           (PrimFloat.div (PrimFloat.abs (PrimFloat.sub infinity infinity)) infinity)
           (PrimFloat.mul
              (PrimFloat.div (PrimFloat.abs (PrimFloat.sub infinity infinity)) infinity)
              100)).
  vm_compute. reflexivity.
Defined.

(** An unmeasurable trade is recorded and reported as neither accurate
    nor critical; a trade 5% off its estimate is accurate. *)
Example verdicts_of_two_trades :
  (match fst (ProfitAnalyzer.analyzeEstimationAccuracy true history_around_half
                unmeasurable_trade) with
   | ProfitAnalyzer.AccuracyReport accurate critical ratio _ =>
       (accurate, critical, PrimFloat.is_nan ratio) = (false, false, true)
   | _ => False
   end)
  /\ (match fst (ProfitAnalyzer.analyzeEstimationAccuracy true history_around_half
                   fair_trade) with
      | ProfitAnalyzer.AccuracyReport accurate critical _ _ =>
          (accurate, critical) = (true, false)
      | _ => False
      end).
Proof. split; vm_compute; reflexivity. Qed.

(** X20. The recommendation of [recommendStrategy] tightens with the
    risk level: at a level that ranks at least as high, the recommended
    slippage is not larger and protection against front-running is not
    switched off; at medium and high risk the protection is on whatever
    the configuration says; and below five samples the recommendation is
    the configured baseline. *)
Theorem recommendStrategy_tightens_with_risk
    (config : ProfitAnalyzer.Config) (a1 a2 : ProfitAnalyzer.Analyzer) :
  (RiskSpec.rank (ProfitAnalyzer.level (ProfitAnalyzer.assessRisk a1))
   <= RiskSpec.rank (ProfitAnalyzer.level (ProfitAnalyzer.assessRisk a2)))%nat ->
  PrimFloat.leb
    (ProfitAnalyzer.recommendedSlippage (ProfitAnalyzer.recommendStrategy config a2))
    (ProfitAnalyzer.recommendedSlippage (ProfitAnalyzer.recommendStrategy config a1))
  = true
  /\ (ProfitAnalyzer.useMEVProtection (ProfitAnalyzer.recommendStrategy config a1) = true ->
      ProfitAnalyzer.useMEVProtection (ProfitAnalyzer.recommendStrategy config a2) = true)
  /\ ((2 <= RiskSpec.rank (ProfitAnalyzer.level (ProfitAnalyzer.assessRisk a2)))%nat ->
      ProfitAnalyzer.useMEVProtection (ProfitAnalyzer.recommendStrategy config a2) = true)
  /\ ((List.length (ProfitAnalyzer.historicalData a1) < 5)%nat ->
      ProfitAnalyzer.recommendStrategy config a1
      = ProfitAnalyzer.mkStrategy 1 (ProfitAnalyzer.minProfitPercent config)
          (ProfitAnalyzer.useFlashbots config)).
Proof.
  intros Hrank. unfold ProfitAnalyzer.recommendStrategy. cbv zeta.
  split; [|split; [|split]].
  - destruct (ProfitAnalyzer.level (ProfitAnalyzer.assessRisk a1)),
             (ProfitAnalyzer.level (ProfitAnalyzer.assessRisk a2));
      cbn in Hrank |- *; first [reflexivity | lia].
  - destruct (ProfitAnalyzer.level (ProfitAnalyzer.assessRisk a1)),
             (ProfitAnalyzer.level (ProfitAnalyzer.assessRisk a2));
      cbn in Hrank |- *; first [tauto | lia].
  - destruct (ProfitAnalyzer.level (ProfitAnalyzer.assessRisk a2)); cbn;
      first [reflexivity | lia].
  - intros Hfew. unfold ProfitAnalyzer.assessRisk.
    apply Nat.ltb_lt in Hfew. rewrite Hfew. reflexivity.
Qed.

Lemma recommendStrategy_tightens_with_risk_witness :
  PrimFloat.leb
    (ProfitAnalyzer.recommendedSlippage
       (ProfitAnalyzer.recommendStrategy cautious_config history_around_half))
    (ProfitAnalyzer.recommendedSlippage
       (ProfitAnalyzer.recommendStrategy cautious_config history_around_quarter))
  = true
  /\ (ProfitAnalyzer.useMEVProtection
        (ProfitAnalyzer.recommendStrategy cautious_config history_around_quarter) = true ->
      ProfitAnalyzer.useMEVProtection
        (ProfitAnalyzer.recommendStrategy cautious_config history_around_half) = true)
  /\ ((2 <= RiskSpec.rank (ProfitAnalyzer.level (ProfitAnalyzer.assessRisk
                                                  history_around_half)))%nat ->
      ProfitAnalyzer.useMEVProtection
        (ProfitAnalyzer.recommendStrategy cautious_config history_around_half) = true)
  /\ ((List.length (ProfitAnalyzer.historicalData history_around_quarter) < 5)%nat ->
      ProfitAnalyzer.recommendStrategy cautious_config history_around_quarter
      = ProfitAnalyzer.mkStrategy 1 (ProfitAnalyzer.minProfitPercent cautious_config)
          (ProfitAnalyzer.useFlashbots cautious_config)).
Proof.
  apply (recommendStrategy_tightens_with_risk cautious_config history_around_quarter
           history_around_half).
  vm_compute. lia.
Defined.

(** ** The native entry point *)

Section NativeFacts.

Import Solidity MultiDexArbitrageBot.
Local Open Scope sol_scope.
Local Open Scope Z_scope.

Variable W : Type.
Variable env : Env W.
Variable c : Storage.

Lemma external_Done step reason (s s' : Exec W) u :
  external step reason s = Done u s' ->
  exists w, step (world s) = Some w /\ s' = mkExec w (events s) (trace s).
Proof.
  unfold external. destruct (step (world s)) as [w|]; [|discriminate].
  intros H. injection H as _ <-. eauto.
Qed.

Lemma IERC20_balanceOf_Done token (s s' : Exec W) b :
  IERC20_balanceOf W env token s = Done b s' ->
  b = balanceOf env (world s) token /\ s' = s.
Proof.
  unfold IERC20_balanceOf, bind, get_world, ret. intros H. injection H as <- <-. auto.
Qed.

End NativeFacts.

(** X21. A call of [executeArbitrageWithNative] that returns has
    wrapped exactly [msg.value] at the WETH of venue 0 and run
    [executeSwaps] on the state so reached. When the swaps succeeded, the
    wrapped balance after them exceeds the wrapped balance before them,
    the profit reported in [ArbitrageExecuted] is their difference, and
    the whole final wrapped balance was approved to venue 0 and handed to
    its [swapExactTokensForETH] for the caller, with a minimum output of
    0, on the path [[weth; weth]]; when they failed, exactly [msg.value]
    was unwrapped and sent back to the caller and [ArbitrageFailed] was
    emitted. With a venue 0 that refuses a path of two equal tokens, as
    Uniswap V2 routers do, every returning call is a refund. *)
Theorem executeArbitrageWithNative_pays_out_or_refunds
    W (env : MultiDexArbitrageBot.Env W) c m tokenB route s u s' :
  MultiDexArbitrageBot.executeArbitrageWithNative W env c m tokenB route s
    = Solidity.Done u s' ->
  exists dex0 w_wrapped success s_swapped,
    let weth := MultiDexArbitrageBot.WETH env (Solidity.world s)
                  (MultiDexArbitrageBot.router dex0) in
    let initialBalance := MultiDexArbitrageBot.balanceOf env w_wrapped weth in
    let finalBalance :=
      MultiDexArbitrageBot.balanceOf env (Solidity.world s_swapped) weth in
    nth_error (MultiDexArbitrageBot.dexRouters c) 0 = Some dex0
    /\ MultiDexArbitrageBot.weth_deposit env (Solidity.world s) weth
         (MultiDexArbitrageBot.value m) = Some w_wrapped
    /\ MultiDexArbitrageBot.executeSwaps W env c m weth tokenB
         (MultiDexArbitrageBot.value m) route
         (Solidity.mkExec w_wrapped (Solidity.events s) (Solidity.trace s))
       = Solidity.Done success s_swapped
    /\ (if success
        then
          initialBalance < finalBalance
          /\ Solidity.events s' = Solidity.events s ++
               [Solidity.ArbitrageExecuted weth tokenB (MultiDexArbitrageBot.value m)
                  finalBalance (finalBalance - initialBalance)
                  (MultiDexArbitrageBot.block_timestamp m)]
          /\ exists w1,
               MultiDexArbitrageBot.approve env (Solidity.world s_swapped) weth
                 (MultiDexArbitrageBot.router dex0) finalBalance = Some w1
               /\ MultiDexArbitrageBot.swapExactTokensForETH env w1
                    (MultiDexArbitrageBot.router dex0) finalBalance 0 [weth; weth]
                    (MultiDexArbitrageBot.sender m) (MultiDexArbitrageBot.block_timestamp m)
                  = Some (Solidity.world s')
        else
          Solidity.events s' = Solidity.events s ++
            [Solidity.ArbitrageFailed weth tokenB "Swap execution failed"
               (MultiDexArbitrageBot.block_timestamp m)]
          /\ exists w1,
               MultiDexArbitrageBot.weth_withdraw env (Solidity.world s_swapped) weth
                 (MultiDexArbitrageBot.value m) = Some w1
               /\ MultiDexArbitrageBot.send_value env w1 (MultiDexArbitrageBot.sender m)
                    (MultiDexArbitrageBot.value m) = Some (Solidity.world s'))
    /\ (refuses_equal_tokens env (MultiDexArbitrageBot.router dex0) -> success = false).
Proof.
  intros H. unfold MultiDexArbitrageBot.executeArbitrageWithNative in H.
  bind_inv H as u1 s1 H1. apply onlyOwner_nonReentrant_Done in H1 as (_ & _ & ->).
  bind_inv H as dex0 s2 H2.
  apply executeArbitrageWithNative_requires_Done in H2 as (-> & _ & _ & Hd & _).
  bind_inv H as w s3 H3. unfold Solidity.get_world in H3. injection H3 as <- <-.
  bind_inv H as u4 s4 H4.
  destruct (MultiDexArbitrageBot.weth_deposit env (Solidity.world s)
              (MultiDexArbitrageBot.WETH env (Solidity.world s)
                 (MultiDexArbitrageBot.router dex0)) (MultiDexArbitrageBot.value m))
    as [w_wrapped|] eqn:Hwrap; [|discriminate].
  unfold Solidity.set_world in H4. injection H4 as _ <-.
  bind_inv H as initialBalance s5 H5. apply IERC20_balanceOf_Done in H5 as [-> ->].
  bind_inv H as success s6 H6.
  pose proof (silent_executeSwaps _ _ _ _ _ _ _ _ _ _ _ H6) as E6.
  cbn [Solidity.world Solidity.events] in *.
  exists dex0, w_wrapped, success, s6. cbv zeta.
  split; [exact Hd|]. split; [exact Hwrap|]. split; [exact H6|].
  destruct success.
  - bind_inv H as finalBalance s7 H7. apply IERC20_balanceOf_Done in H7 as [-> ->].
    bind_inv H as u8 s8 H8. apply require_Done in H8 as [Hprofit ->].
    bind_inv H as profit s9 H9. apply checked_sub_Done in H9 as (-> & -> & _).
    bind_inv H as u10 s10 H10. unfold MultiDexArbitrageBot.IERC20_approve in H10.
    apply external_Done in H10 as (w1 & Hw1 & ->).
    bind_inv H as u11 s11 H11. apply external_Done in H11 as (w2 & Hw2 & ->).
    apply emit_Done in H. subst s'. cbn [Solidity.world Solidity.events Solidity.trace] in *.
    apply Z.ltb_lt in Hprofit.
    split; [|intros Hrefuse; unfold MultiDexArbitrageBot.getPathForTokenToEth in Hw2;
             rewrite Hrefuse in Hw2; discriminate].
    split; [exact Hprofit|]. split; [rewrite E6; reflexivity|].
    exists w1. split; [exact Hw1 | exact Hw2].
  - split; [|reflexivity].
    bind_inv H as w1 s7 H7. unfold Solidity.get_world in H7. injection H7 as <- <-.
    bind_inv H as u8 s8 H8.
    destruct (MultiDexArbitrageBot.weth_withdraw env (Solidity.world s6)
                (MultiDexArbitrageBot.WETH env (Solidity.world s)
                   (MultiDexArbitrageBot.router dex0)) (MultiDexArbitrageBot.value m))
      as [w2|] eqn:Hw2; [|discriminate].
    unfold Solidity.set_world in H8. injection H8 as _ <-.
    bind_inv H as u9 s9 H9. apply external_Done in H9 as (w3 & Hw3 & ->).
    apply emit_Done in H. subst s'. cbn [Solidity.world Solidity.events Solidity.trace] in *.
    split; [rewrite E6; reflexivity|]. exists w2. split; [reflexivity | exact Hw3].
Qed.

Lemma executeArbitrageWithNative_pays_out_or_refunds_witness :
  exists dex0 w_wrapped success s_swapped,
    nth_error (MultiDexArbitrageBot.dexRouters (Mock.storage 100)) 0 = Some dex0
    /\ MultiDexArbitrageBot.weth_deposit (strict_env 60) (Mock.mkWorld [] [])
         Mock.weth_address 1000000 = Some w_wrapped
    /\ MultiDexArbitrageBot.executeSwaps Mock.World (strict_env 60) (Mock.storage 100)
         native_call Mock.weth_address 2000 1000000 native_route
         (Solidity.mkExec w_wrapped [] [])
       = Solidity.Done success s_swapped
    /\ (if success
        then
          MultiDexArbitrageBot.balanceOf (strict_env 60) w_wrapped Mock.weth_address
          < MultiDexArbitrageBot.balanceOf (strict_env 60) (Solidity.world s_swapped)
              Mock.weth_address
          /\ Solidity.events refund_final = [] ++
               [Solidity.ArbitrageExecuted Mock.weth_address 2000 1000000
                  (MultiDexArbitrageBot.balanceOf (strict_env 60) (Solidity.world s_swapped)
                     Mock.weth_address)
                  (MultiDexArbitrageBot.balanceOf (strict_env 60) (Solidity.world s_swapped)
                     Mock.weth_address
                   - MultiDexArbitrageBot.balanceOf (strict_env 60) w_wrapped
                       Mock.weth_address)
                  1000000]
          /\ exists w1,
               MultiDexArbitrageBot.approve (strict_env 60) (Solidity.world s_swapped)
                 Mock.weth_address (MultiDexArbitrageBot.router dex0)
                 (MultiDexArbitrageBot.balanceOf (strict_env 60) (Solidity.world s_swapped)
                    Mock.weth_address) = Some w1
               /\ MultiDexArbitrageBot.swapExactTokensForETH (strict_env 60) w1
                    (MultiDexArbitrageBot.router dex0)
                    (MultiDexArbitrageBot.balanceOf (strict_env 60)
                       (Solidity.world s_swapped) Mock.weth_address) 0
                    [Mock.weth_address; Mock.weth_address] 1 1000000
                  = Some (Solidity.world refund_final)
        else
          Solidity.events refund_final = [] ++
            [Solidity.ArbitrageFailed Mock.weth_address 2000 "Swap execution failed" 1000000]
          /\ exists w1,
               MultiDexArbitrageBot.weth_withdraw (strict_env 60) (Solidity.world s_swapped)
                 Mock.weth_address 1000000 = Some w1
               /\ MultiDexArbitrageBot.send_value (strict_env 60) w1 1 1000000
                  = Some (Solidity.world refund_final))
    /\ (refuses_equal_tokens (strict_env 60) (MultiDexArbitrageBot.router dex0) ->
        success = false).
Proof.
  apply (executeArbitrageWithNative_pays_out_or_refunds Mock.World (strict_env 60)
           (Mock.storage 100) native_call 2000 native_route
           (Mock.start (Mock.mkWorld [] [])) tt refund_final).
  vm_compute. reflexivity.
Defined.

(** On the mock chain: a first hop that pays 0.6% less than quoted is
    caught, the value comes back and the contract holds nothing; the
    same call on venues that pay one unit more on the way back reverts
    at the router, which refuses the path [[weth; weth]]. *)
Example native_runs_on_a_strict_router :
  Solidity.events refund_final
  = [Solidity.ArbitrageFailed Mock.weth_address 2000 "Swap execution failed" 1000000]
  /\ Mock.lookup (Mock.bal (Solidity.world refund_final)) Mock.weth_address = 0
  /\ map Solidity.sc_realized (outcome_trace refund_run) = [None]
  /\ match MultiDexArbitrageBot.executeArbitrageWithNative Mock.World
             (refusing_equal_tokens (Mock.mock_env one_more_weth one_more_weth (fun _ => 0)))
             (Mock.storage 100) native_call 2000 native_route
             (Mock.start (Mock.mkWorld [] [])) with
     | Solidity.Done _ _ => False
     | Solidity.Reverted reason tr =>
         reason = "swapExactTokensForETH reverted"%string
         /\ map Solidity.sc_realized tr = [Some 1000000; Some 1000001]
     end.
Proof. repeat split; vm_compute; reflexivity. Qed.

(** X22. A flash-loan callback that returns was called without value,
    by the pool, for a loan the owner initiated, held at least the loan,
    and has run [executeSwaps] on the state it was called in. When the
    swaps succeeded, the final balance covers [amount + premium], the
    contract approved exactly that debt to the pool and, if the profit
    (the final balance less the debt) is positive, transferred exactly
    the profit to the owner; when they failed, it approved and
    transferred nothing, so the pool finds no allowance to collect the
    debt from. The matching event is emitted in each case. *)
Theorem executeOperation_settles_the_loan
    W (env : MultiDexArbitrageBot.Env W) c m asset amount premium initiator params s b s' :
  MultiDexArbitrageBot.executeOperation W env c m asset amount premium initiator params s
    = Solidity.Done b s' ->
  MultiDexArbitrageBot.value m = 0
  /\ MultiDexArbitrageBot.sender m = MultiDexArbitrageBot.POOL c
  /\ initiator = MultiDexArbitrageBot.owner c
  /\ amount <= MultiDexArbitrageBot.balanceOf env (Solidity.world s) asset
  /\ exists success s_swapped,
       let tokenB := MultiDexArbitrageBot.p_tokenB params in
       let debt := amount + premium in
       let finalBalance :=
         MultiDexArbitrageBot.balanceOf env (Solidity.world s_swapped) asset in
       MultiDexArbitrageBot.executeSwaps W env c m asset tokenB amount
         (MultiDexArbitrageBot.p_route params) s
       = Solidity.Done success s_swapped
       /\ if success
          then
            debt <= finalBalance
            /\ Solidity.events s' = Solidity.events s ++
                 [Solidity.ArbitrageExecuted asset tokenB amount finalBalance
                    (finalBalance - debt) (MultiDexArbitrageBot.block_timestamp m)]
            /\ exists w1,
                 MultiDexArbitrageBot.approve env (Solidity.world s_swapped) asset
                   (MultiDexArbitrageBot.POOL c) debt = Some w1
                 /\ (if 0 <? finalBalance - debt
                     then MultiDexArbitrageBot.transfer env w1 asset
                            (MultiDexArbitrageBot.owner c) (finalBalance - debt)
                          = Some (Solidity.world s')
                     else Solidity.world s' = w1)
          else
            Solidity.events s' = Solidity.events s ++
              [Solidity.ArbitrageFailed asset tokenB "Swap execution failed"
                 (MultiDexArbitrageBot.block_timestamp m)]
            /\ Solidity.world s' = Solidity.world s_swapped.
Proof.
  intros H5. unfold MultiDexArbitrageBot.executeOperation in H5.
  bind_inv H5 as v0 t0 G0. apply nonpayable_Done in G0 as [Hv ->].
  bind_inv H5 as v1 t1 G1. apply require_Done in G1 as [Hpool ->].
  bind_inv H5 as v2 t2 G2. apply require_Done in G2 as [Hinit ->].
  bind_inv H5 as totalDebt t3 G3. apply checked_add_Done in G3 as (-> & -> & _).
  bind_inv H5 as initialBalance t4 G4. apply IERC20_balanceOf_Done in G4 as [-> ->].
  bind_inv H5 as v5 t5 G5. apply require_Done in G5 as [Hheld ->].
  bind_inv H5 as profitable t6 G6.
  pose proof (view_simulateArbitrage_holds W env c m asset
                (MultiDexArbitrageBot.p_tokenB params) amount
                (MultiDexArbitrageBot.p_route params) s) as Hview.
  rewrite G6 in Hview. subst t6.
  bind_inv H5 as v7 t7 G7. apply require_Done in G7 as [_ ->].
  bind_inv H5 as success t8 G8.
  pose proof (silent_executeSwaps _ _ _ _ _ _ _ _ _ _ _ G8) as Hev.
  bind_inv H5 as v9 t9 G9. apply ret_Done in H5 as [_ ->].
  apply Z.eqb_eq in Hpool, Hinit. apply Z.leb_le in Hheld.
  split; [exact Hv|]. split; [exact Hpool|]. split; [exact Hinit|]. split; [exact Hheld|].
  exists success, t8. cbv zeta. split; [exact G8|].
  destruct success.
  - bind_inv G9 as finalBalance t10 G10. apply IERC20_balanceOf_Done in G10 as [-> ->].
    bind_inv G9 as v11 t11 G11. apply require_Done in G11 as [Hdebt ->].
    bind_inv G9 as profit t12 G12. apply checked_sub_Done in G12 as (-> & -> & _).
    bind_inv G9 as scaled t13 G13. apply checked_mul_Done in G13 as (-> & -> & _).
    bind_inv G9 as v14 t14 G14. apply require_Done in G14 as [_ ->].
    bind_inv G9 as v15 t15 G15. unfold MultiDexArbitrageBot.IERC20_approve in G15.
    apply external_Done in G15 as (w1 & Hw1 & ->).
    bind_inv G9 as v16 t16 G16.
    apply emit_Done in G9. subst t9. cbn [Solidity.world Solidity.events].
    apply Z.leb_le in Hdebt. split; [exact Hdebt|].
    destruct (0 <? MultiDexArbitrageBot.balanceOf env (Solidity.world t8) asset
                   - (amount + premium)).
    + unfold MultiDexArbitrageBot.IERC20_transfer in G16.
      apply external_Done in G16 as (w2 & Hw2 & ->). cbn [Solidity.world Solidity.events].
      rewrite Hev. split; [reflexivity|]. exists w1. auto.
    + apply ret_Done in G16 as [_ ->]. cbn [Solidity.world Solidity.events].
      rewrite Hev. split; [reflexivity|]. exists w1. auto.
  - apply emit_Done in G9. subst t9. cbn [Solidity.world Solidity.events].
    rewrite Hev. auto.
Qed.

Lemma executeOperation_settles_the_loan_witness :
  MultiDexArbitrageBot.value pool_call = 0
  /\ MultiDexArbitrageBot.sender pool_call = MultiDexArbitrageBot.POOL (Mock.storage 100)
  /\ 1 = MultiDexArbitrageBot.owner (Mock.storage 100)
  /\ 1999 <= MultiDexArbitrageBot.balanceOf generous_env (Mock.mkWorld [(1000, 1999)] []) 1000
  /\ exists success s_swapped,
       MultiDexArbitrageBot.executeSwaps Mock.World generous_env (Mock.storage 100) pool_call
         1000 2000 1999 fresh_route (Mock.start (Mock.mkWorld [(1000, 1999)] []))
       = Solidity.Done success s_swapped
       /\ if success
          then
            1999 + 1
            <= MultiDexArbitrageBot.balanceOf generous_env (Solidity.world s_swapped) 1000
            /\ Solidity.events small_loan_final = [] ++
                 [Solidity.ArbitrageExecuted 1000 2000 1999
                    (MultiDexArbitrageBot.balanceOf generous_env (Solidity.world s_swapped)
                       1000)
                    (MultiDexArbitrageBot.balanceOf generous_env (Solidity.world s_swapped)
                       1000 - (1999 + 1))
                    1000000]
            /\ exists w1,
                 MultiDexArbitrageBot.approve generous_env (Solidity.world s_swapped) 1000 900
                   (1999 + 1) = Some w1
                 /\ (if 0 <? MultiDexArbitrageBot.balanceOf generous_env
                               (Solidity.world s_swapped) 1000 - (1999 + 1)
                     then MultiDexArbitrageBot.transfer generous_env w1 1000 1
                            (MultiDexArbitrageBot.balanceOf generous_env
                               (Solidity.world s_swapped) 1000 - (1999 + 1))
                          = Some (Solidity.world small_loan_final)
                     else Solidity.world small_loan_final = w1)
          else
            Solidity.events small_loan_final = [] ++
              [Solidity.ArbitrageFailed 1000 2000 "Swap execution failed" 1000000]
            /\ Solidity.world small_loan_final = Solidity.world s_swapped.
Proof.
  apply (executeOperation_settles_the_loan Mock.World generous_env (Mock.storage 100)
           pool_call 1000 1999 1 1 small_loan_params
           (Mock.start (Mock.mkWorld [(1000, 1999)] [])) true small_loan_final).
  vm_compute. reflexivity.
Defined.

(** On the mock chain: the callback for the loan of 1999 pays a profit
    of 1 to the owner and leaves exactly the debt of 2000, approved to
    the pool; on venues whose first leg pays short the callback returns
    with nothing approved. *)
Example small_loan_run_leaves_the_debt_behind :
  Solidity.events small_loan_final
  = [Solidity.ArbitrageExecuted 1000 2000 1999 2001 1 1000000]
  /\ Mock.lookup (Mock.bal (Solidity.world small_loan_final)) 1000 = 2000
  /\ Mock.allowance (Mock.allow (Solidity.world small_loan_final)) 1000 900 = 2000
  /\ match MultiDexArbitrageBot.executeOperation Mock.World promising_env (Mock.storage 100)
             pool_call 1000 1999 1 1 small_loan_params
             (Mock.start (Mock.mkWorld [(1000, 1999)] [])) with
     | Solidity.Done _ s' => Mock.allowance (Mock.allow (Solidity.world s')) 1000 900 = 0
     | Solidity.Reverted _ _ => False
     end.
Proof. repeat split; vm_compute; reflexivity. Qed.

(** ** The callback and its simulation *)

(** X23. Only the pool, and only for a loan the owner initiated, gets
    into the flash-loan callback: any other call of [executeOperation],
    made without value as the function is not payable, reverts at its
    first two checks, before any balance is read and any swap is made. *)
Theorem executeOperation_is_for_the_pool_and_the_owner_only
    W (env : MultiDexArbitrageBot.Env W) c m asset amount premium initiator params s :
  MultiDexArbitrageBot.value m = 0 ->
  MultiDexArbitrageBot.sender m <> MultiDexArbitrageBot.POOL c
  \/ initiator <> MultiDexArbitrageBot.owner c ->
  exists reason,
    MultiDexArbitrageBot.executeOperation W env c m asset amount premium initiator params s
    = Solidity.Reverted reason (Solidity.trace s)
    /\ (reason = "Caller is not POOL"%string \/ reason = "Initiator is not owner"%string).
Proof.
  intros Hv Hwho.
  unfold MultiDexArbitrageBot.executeOperation, MultiDexArbitrageBot.nonpayable,
    Solidity.bind.
  rewrite Hv. cbn [Z.eqb Solidity.require Solidity.ret].
  destruct (MultiDexArbitrageBot.sender m =? MultiDexArbitrageBot.POOL c) eqn:Hpool.
  - destruct (initiator =? MultiDexArbitrageBot.owner c) eqn:Hinit.
    + apply Z.eqb_eq in Hpool, Hinit. destruct Hwho; contradiction.
    + cbn. eauto.
  - cbn. eauto.
Qed.

Lemma executeOperation_is_for_the_pool_and_the_owner_only_witness :
  exists reason,
    stranger_callback = Solidity.Reverted reason []
    /\ (reason = "Caller is not POOL"%string \/ reason = "Initiator is not owner"%string).
Proof.
  apply (executeOperation_is_for_the_pool_and_the_owner_only Mock.World generous_env
           (Mock.storage 100) stranger_call 1000 1999 1 1 small_loan_params
           (Mock.start (Mock.mkWorld [(1000, 1999)] []))).
  - reflexivity.
  - left. discriminate.
Defined.

Section SimulationFacts.

Import Solidity MultiDexArbitrageBot.
Local Open Scope sol_scope.
Local Open Scope Z_scope.

Variable W : Type.
Variable env : Env W.
Variable c : Storage.

Lemma simulateArbitrage_loop_priced route indices : forall i token amount s token' amount' s',
  simulateArbitrage_loop W env c route indices i token amount s
    = Done (Some (token', amount')) s' ->
  priced_hops env (world s) c (path route) indices i token amount token' amount'.
Proof.
  induction indices as [|dexIndex rest IH]; intros i token amount s token' amount' s' H;
    cbn [simulateArbitrage_loop priced_hops] in *.
  - apply ret_Done in H as [E _]. injection E as <- <-. auto.
  - destruct (dex_count c <=? dexIndex) eqn:Hidx;
      [apply ret_Done in H as [E _]; discriminate|].
    apply Z.leb_gt in Hidx.
    bind_inv H as dex s1 H1. unfold index in H1.
    destruct (nth_error (dexRouters c) (Z.to_nat dexIndex)) as [d|] eqn:Hd; [|discriminate].
    apply ret_Done in H1 as [-> ->].
    destruct (active d) eqn:Ha; cbn [negb] in H;
      [|apply ret_Done in H as [E _]; discriminate].
    bind_inv H as nextToken s2 H2. unfold index in H2.
    destruct (nth_error (path route) (i + 1)) as [t|] eqn:Hn; [|discriminate].
    apply ret_Done in H2 as [-> ->].
    bind_inv H as w s3 H3. unfold get_world in H3. injection H3 as <- <-.
    destruct (getAmountsOut env (world s) (router d) amount [token; t])
      as [amounts|] eqn:Hq; [|apply ret_Done in H as [E _]; discriminate].
    bind_inv H as out s4 H4. unfold index in H4.
    destruct (nth_error amounts 1) as [o|] eqn:Ho; [|discriminate].
    apply ret_Done in H4 as [-> ->].
    destruct (o =? 0) eqn:Hz; [apply ret_Done in H as [E _]; discriminate|].
    apply Z.eqb_neq in Hz. apply IH in H.
    exists d, t, amounts, o. auto 10.
Qed.

End SimulationFacts.

(** X24. What a simulation that answers [true] has seen, on a route
    between two different tokens: every hop is priced, with a non-zero
    quote chained from [amountIn], at a registered and active venue; the
    best quote for the way back to [tokenA] exceeds the debt counted
    against the route and covers it with the minimum profit
    [amountIn * minProfitPercent / 100000] on top. *)
Theorem simulateArbitrage_answers_true_on_priced_routes_only
    W (env : MultiDexArbitrageBot.Env W) c m tokenA tokenB amountIn route s s' :
  MultiDexArbitrageBot.simulateArbitrage W env c m tokenA tokenB amountIn route s
    = Solidity.Done true s' ->
  tokenA <> tokenB ->
  exists token amount final,
    priced_hops env (Solidity.world s) c (MultiDexArbitrageBot.path route)
      (MultiDexArbitrageBot.dexIndices route) 0 tokenA amountIn token amount
    /\ MultiDexArbitrageBot.getBestOutputForSwap W env c token tokenA amount s
       = Solidity.Done final s
    /\ simulated_debt c m amountIn < final
    /\ simulated_debt c m amountIn
       + amountIn * MultiDexArbitrageBot.minProfitPercent c / 100000 <= final.
Proof.
  intros H Hne. apply Z.eqb_neq in Hne.
  apply simulateArbitrage_true in H as (token & amount & final & Hloop & Hbest & Hd & Hf);
    [|exact Hne].
  exists token, amount, final.
  split; [|auto]. eapply simulateArbitrage_loop_priced. exact Hloop.
Qed.

Lemma simulateArbitrage_answers_true_on_priced_routes_only_witness :
  let s := Mock.start (Mock.mkWorld [(1000, 1999)] []) in
  exists token amount final,
    priced_hops generous_env (Solidity.world s) (Mock.storage 100) [1000; 2000] [0] 0
      1000 1999 token amount
    /\ MultiDexArbitrageBot.getBestOutputForSwap Mock.World generous_env (Mock.storage 100)
         token 1000 amount s = Solidity.Done final s
    /\ simulated_debt (Mock.storage 100) pool_call 1999 < final
    /\ simulated_debt (Mock.storage 100) pool_call 1999
       + 1999 * MultiDexArbitrageBot.minProfitPercent (Mock.storage 100) / 100000 <= final.
Proof.
  intros s.
  apply (simulateArbitrage_answers_true_on_priced_routes_only Mock.World generous_env
           (Mock.storage 100) pool_call 1000 2000 1999 fresh_route s s).
  - vm_compute. reflexivity.
  - lia.
Defined.

(** ** A scan cycle *)

Section CycleFacts.

Import ArbitrageManager.
Local Open Scope Z_scope.

Lemma executeArbitrage_failure cfg h now now_route op tx :
  result (executeArbitrage cfg h now now_route op tx) = false ->
  history (executeArbitrage cfg h now now_route op tx) = h.
Proof.
  unfold executeArbitrage.
  destruct ((maxExecutionsPerHour cfg <=? len h)
            && (maxExecutionsPerHour cfg <=? len (recentExecutions h now)));
    [reflexivity|].
  destruct (o_tokenA op); [|reflexivity].
  destruct (o_tokenB op); [|reflexivity].
  destruct tx as [| | hash | hash status minedAt]; try reflexivity.
  destruct (status =? 1); [discriminate | reflexivity].
Qed.

(** One pass over a pair appends at most one record and counts it. *)
Lemma checkPair_appends cfg h now pair found now_exec now_route tx :
  exists new,
    snd (checkPair cfg h now pair found now_exec now_route tx) = h ++ new
    /\ (List.length new <= 1)%nat
    /\ successCount (fst (checkPair cfg h now pair found now_exec now_route tx))
       = successCount pair + len new.
Proof.
  assert (Hsame : forall p : WatchedPair,
            successCount p = successCount pair ->
            exists new : list ExecutionRecord,
              h = h ++ new /\ (List.length new <= 1)%nat
              /\ successCount p = successCount pair + len new).
  { intros p Hp. exists []. rewrite app_nil_r. cbn. split; [reflexivity|].
    split; lia. }
  unfold checkPair.
  destruct (skipped now pair); [apply Hsame; reflexivity|].
  destruct found as [res|]; [|apply Hsame; reflexivity].
  destruct (profitable res); [|apply Hsame; reflexivity].
  destruct ((minProfitUSD cfg <=? estimatedProfitUSD res)%float
            && (minProfitPercent cfg <=? profitPercent res)%float);
    [|apply Hsame; reflexivity].
  cbv zeta.
  destruct (result (executeArbitrage cfg h now_exec now_route res tx)) eqn:Hres.
  - apply executeArbitrage_success in Hres as (_ & hash & minedAt & _ & Hhist).
    rewrite Hhist. cbn [fst snd]. eexists [_]. split; [reflexivity|]. cbn. split; lia.
  - rewrite (executeArbitrage_failure _ _ _ _ _ _ Hres). cbn [fst snd].
    apply Hsame. reflexivity.
Qed.

Lemma update_pair_length ws : forall i p,
  List.length (update_pair ws i p) = List.length ws.
Proof.
  induction ws as [|q rest IH]; intros [|i] p; cbn; try reflexivity.
  rewrite IH. reflexivity.
Qed.

Lemma update_pair_other ws : forall i j p,
  i <> j -> nth_error (update_pair ws i p) j = nth_error ws j.
Proof.
  induction ws as [|q rest IH]; intros [|i] [|j] p Hij; cbn; try reflexivity.
  - contradiction.
  - apply IH. intros ->. apply Hij. reflexivity.
Qed.

Lemma update_pair_total ws : forall i p p',
  nth_error ws i = Some p ->
  total_successes (update_pair ws i p')
  = total_successes ws - successCount p + successCount p'.
Proof.
  unfold total_successes.
  induction ws as [|q rest IH]; intros [|i] p p' Hp;
    cbn [update_pair nth_error fold_right] in *; try discriminate.
  - injection Hp as ->. lia.
  - rewrite (IH i p p' Hp). lia.
Qed.

Lemma scan_changes_refl selected limit st : scan_changes selected limit st st.
Proof.
  split; [reflexivity|]. split; [reflexivity|].
  exists []. rewrite app_nil_r. cbn. split; [reflexivity|]. split; lia.
Qed.

Lemma scanPairs_changes cfg inputs pairsToCheck : forall k st,
  scan_changes pairsToCheck (List.length pairsToCheck) st
    (scanPairs cfg pairsToCheck inputs k st).
Proof.
  induction pairsToCheck as [|i rest IH]; intros k st; cbn [scanPairs].
  - apply scan_changes_refl.
  - cbv zeta. destruct (negb (si_running (inputs k))); [apply scan_changes_refl|].
    destruct (nth_error (bs_watchedPairs st) i) as [p|] eqn:Hp;
      [|apply scan_changes_refl].
    destruct (checkPair_appends cfg (bs_executionHistory st) (si_now (inputs k)) p
                (si_found (inputs k)) (si_now_exec (inputs k)) (si_now_route (inputs k))
                (si_tx (inputs k))) as (new1 & Hh1 & Hn1 & Hc1).
    set (r := checkPair _ _ _ _ _ _ _ _) in *.
    destruct (IH (S k) (mkBot (update_pair (bs_watchedPairs st) i (fst r)) (snd r)))
      as (Hlen & Hout & new2 & Hh2 & Hn2 & Hc2).
    cbn [bs_watchedPairs bs_executionHistory] in *.
    split; [rewrite Hlen; apply update_pair_length|]. split.
    + intros j Hj. rewrite Hout by (intros Hin; apply Hj; right; exact Hin).
      apply update_pair_other. intros ->. apply Hj. left. reflexivity.
    + exists (new1 ++ new2). split; [rewrite Hh2, Hh1, app_assoc; reflexivity|].
      split; [rewrite length_app; cbn [List.length]; lia|].
      rewrite Hc2, (update_pair_total _ _ _ _ Hp), Hc1. unfold len.
      rewrite length_app. lia.
Qed.

End CycleFacts.

(** X25. One cycle of [checkArbitrageOpportunities] examines at most
    ten pairs: it adds and drops no watched pair, leaves every pair
    outside the first ten of the shuffled order as it was, appends at
    most ten records to the history without rewriting it, and the
    executions counted on the pairs grow by exactly the number of
    records appended. When the bot is stopped, when the gas price
    cannot be read, or when it exceeds the maximum, nothing changes. *)
Theorem a_cycle_examines_at_most_ten_pairs
    (cfg : ArbitrageManager.Config) (maxGasPriceWei : Z) (isRunning : bool)
    (gasPrice : option Z) (shuffled : list nat)
    (inputs : nat -> ArbitrageManager.ScanInput) (st : ArbitrageManager.BotState) :
  scan_changes (firstn 10 shuffled) 10 st
    (ArbitrageManager.checkArbitrageOpportunities cfg maxGasPriceWei isRunning gasPrice
       shuffled inputs st)
  /\ (isRunning = false
      \/ gasPrice = None
      \/ (exists g, gasPrice = Some g /\ maxGasPriceWei < g) ->
      ArbitrageManager.checkArbitrageOpportunities cfg maxGasPriceWei isRunning gasPrice
        shuffled inputs st = st).
Proof.
  unfold ArbitrageManager.checkArbitrageOpportunities. split.
  - destruct (negb isRunning); [apply scan_changes_refl|].
    destruct gasPrice as [g|]; [|apply scan_changes_refl].
    destruct (maxGasPriceWei <? g); [apply scan_changes_refl|].
    destruct (scanPairs_changes cfg inputs (firstn 10 shuffled) 0%nat st)
      as (Hlen & Hout & new & Hh & Hn & Hc).
    split; [exact Hlen|]. split; [exact Hout|].
    exists new. split; [exact Hh|]. split; [|exact Hc].
    pose proof (length_firstn 10 shuffled) as Hten. lia.
  - intros [-> | [-> | (g & -> & Hgas)]].
    + reflexivity.
    + destruct (negb isRunning); reflexivity.
    + apply Z.ltb_lt in Hgas. rewrite Hgas. destruct (negb isRunning); reflexivity.
Qed.

(** A cycle over the second pair only, at 20 gwei against a maximum of
    50: one record, counted on that pair, which goes on cooldown; at 60
    gwei nothing happens. *)
Example a_cycle_over_one_pair :
  (let st' := ArbitrageManager.checkArbitrageOpportunities sample_config 50000000000 true
                (Some 20000000000) [1%nat] lucky_inputs two_pair_state in
   map ArbitrageManager.successCount (ArbitrageManager.bs_watchedPairs st') = [0; 1]
   /\ map ArbitrageManager.lastChecked (ArbitrageManager.bs_watchedPairs st')
      = [0; 1000030000]
   /\ List.length (ArbitrageManager.bs_executionHistory st') = 1%nat)
  /\ ArbitrageManager.checkArbitrageOpportunities sample_config 50000000000 true
       (Some 60000000000) [1%nat] lucky_inputs two_pair_state = two_pair_state.
Proof. vm_compute. repeat split; reflexivity. Qed.

(** ** The profit report *)

Section ReportFacts.

Import ArbitrageManager.
Local Open Scope Z_scope.

Lemma insert_by_successCount_perm x sorted :
  Permutation (insert_by_successCount x sorted) (x :: sorted).
Proof.
  induction sorted as [|y rest IH]; cbn [insert_by_successCount]; [reflexivity|].
  destruct (pp_successCount x <? pp_successCount y); [|reflexivity].
  rewrite IH. apply perm_swap.
Qed.

Lemma sort_by_successCount_perm l : Permutation (sort_by_successCount l) l.
Proof.
  induction l as [|x rest IH]; cbn; [reflexivity|].
  rewrite insert_by_successCount_perm. constructor. exact IH.
Qed.

Lemma insert_by_successCount_sorted x sorted :
  StronglySorted not_beaten_by sorted ->
  StronglySorted not_beaten_by (insert_by_successCount x sorted).
Proof.
  induction 1 as [|y rest Hrest IH Hy]; cbn [insert_by_successCount].
  - repeat constructor.
  - destruct (pp_successCount x <? pp_successCount y) eqn:E.
    + apply Z.ltb_lt in E. constructor; [exact IH|].
      apply Forall_forall. intros z Hz.
      apply (Permutation_in _ (insert_by_successCount_perm x rest)) in Hz.
      destruct Hz as [<- | Hz]; [unfold not_beaten_by; lia|].
      rewrite Forall_forall in Hy. apply Hy. exact Hz.
    + apply Z.ltb_ge in E. constructor; [constructor; assumption|].
      constructor; [exact E|].
      apply Forall_forall. intros z Hz. rewrite Forall_forall in Hy.
      specialize (Hy z Hz). unfold not_beaten_by in *. lia.
Qed.

Lemma sort_by_successCount_sorted l :
  StronglySorted not_beaten_by (sort_by_successCount l).
Proof.
  induction l as [|x rest IH]; cbn; [constructor|].
  apply insert_by_successCount_sorted. exact IH.
Qed.

Lemma sorted_front_beats_back l1 : forall l2,
  StronglySorted not_beaten_by (l1 ++ l2) ->
  StronglySorted not_beaten_by l1
  /\ forall p q, In p l1 -> In q l2 -> not_beaten_by p q.
Proof.
  induction l1 as [|x rest IH]; intros l2 H; cbn in *.
  - split; [constructor | intros p q []].
  - apply StronglySorted_inv in H as [Hrest Hx].
    destruct (IH l2 Hrest) as [Hs Hb]. split.
    + constructor; [exact Hs|]. apply Forall_app in Hx as [Hx _]. exact Hx.
    + intros p q [<- | Hp] Hq; [|auto].
      rewrite Forall_forall in Hx. apply Hx. apply in_or_app. right. exact Hq.
Qed.

End ReportFacts.

(** X26. The top pairs of [generateProfitReport] are the most
    successful ones: there are at most five, and exactly five when more
    pairs qualify; each has executed at least once; they are listed by
    falling success count; and together with the pairs left out they are
    exactly the watched pairs with a positive success count, none of
    those left out having more successes than any listed one. *)
Theorem topPairs_are_the_most_successful
    (executionHistory : list ArbitrageManager.ExecutionRecord)
    (watched : list ArbitrageManager.WatchedPair) (now : Z) :
  exists rest,
    Permutation
      (ArbitrageManager.topPairs
         (ArbitrageManager.generateProfitReport executionHistory watched now) ++ rest)
      (map ArbitrageManager.performance
         (filter (fun p => 0 <? ArbitrageManager.successCount p) watched))
    /\ (List.length
          (ArbitrageManager.topPairs
             (ArbitrageManager.generateProfitReport executionHistory watched now)) <= 5)%nat
    /\ (rest <> [] ->
        List.length
          (ArbitrageManager.topPairs
             (ArbitrageManager.generateProfitReport executionHistory watched now)) = 5%nat)
    /\ Forall (fun p => 0 < ArbitrageManager.pp_successCount p)
         (ArbitrageManager.topPairs
            (ArbitrageManager.generateProfitReport executionHistory watched now))
    /\ StronglySorted not_beaten_by
         (ArbitrageManager.topPairs
            (ArbitrageManager.generateProfitReport executionHistory watched now))
    /\ (forall p q,
          In p (ArbitrageManager.topPairs
                  (ArbitrageManager.generateProfitReport executionHistory watched now)) ->
          In q rest -> not_beaten_by p q).
Proof.
  unfold ArbitrageManager.generateProfitReport. cbv zeta.
  cbn [ArbitrageManager.topPairs].
  set (qualified := map ArbitrageManager.performance
                      (filter (fun p => 0 <? ArbitrageManager.successCount p) watched)).
  set (ranking := ArbitrageManager.sort_by_successCount qualified).
  pose proof (sort_by_successCount_perm qualified) as Hperm. fold ranking in Hperm.
  pose proof (sort_by_successCount_sorted qualified) as Hsorted. fold ranking in Hsorted.
  rewrite <- (firstn_skipn 5 ranking) in Hsorted.
  apply sorted_front_beats_back in Hsorted as [Hfront Hbeats].
  exists (skipn 5 ranking).
  split; [rewrite firstn_skipn; exact Hperm|].
  split; [rewrite length_firstn; lia|].
  split.
  { intros Hrest. rewrite length_firstn.
    assert (5 < List.length ranking)%nat; [|lia].
    destruct (Nat.lt_ge_cases 5 (List.length ranking)) as [|Hshort]; [assumption|].
    exfalso. apply Hrest. apply skipn_all2. exact Hshort. }
  split; [|split; [exact Hfront | exact Hbeats]].
  apply Forall_forall. intros p Hp.
  assert (Hin : In p qualified).
  { apply (Permutation_in _ Hperm). rewrite <- (firstn_skipn 5 ranking).
    apply in_or_app. left. exact Hp. }
  unfold qualified in Hin. apply in_map_iff in Hin as (w & <- & Hw).
  apply filter_In in Hw as [_ Hpos]. apply Z.ltb_lt in Hpos. exact Hpos.
Qed.

(** Six pairs with 3, 1, 4, 1, 5 and 2 successes and one that never
    executed: the report lists the counts 5, 4, 3, 2, 1. *)
Example topPairs_of_seven_pairs :
  map ArbitrageManager.pp_successCount
    (ArbitrageManager.topPairs
       (ArbitrageManager.generateProfitReport []
          (map (fun n => ArbitrageManager.mkPair WETH_token USDC_token true 0 0%float n)
               [3; 1; 0; 4; 1; 5; 2]) 0))
  = [5; 4; 3; 2; 1].
Proof. vm_compute. reflexivity. Qed.

(** ** The orchestrator's clock against the block's *)

(** X27. The orchestrator stamps a route with its own clock, in whole
    seconds, and [executeArbitrage] subtracts that stamp from
    [block.timestamp] unchecked by any earlier test: when the
    orchestrator's clock is a full second or more ahead of the block,
    the owner's transaction, sent without value, reverts with
    Panic(0x11), before any swap. *)
Theorem a_clock_ahead_of_the_block_panics
    (cfg : ArbitrageManager.Config) (executionHistory : list ArbitrageManager.ExecutionRecord)
    (now now_route : Z) (opportunity : ArbitrageManager.Opportunity)
    (tx : ArbitrageManager.TxOutcome) (sub : ArbitrageManager.Submission)
    W (env : MultiDexArbitrageBot.Env W) c m tokenA tokenB amountIn route s :
  ArbitrageManager.submitted
    (ArbitrageManager.executeArbitrage cfg executionHistory now now_route opportunity tx)
    = Some sub ->
  MultiDexArbitrageBot.timestamp route = ArbitrageManager.s_timestamp sub ->
  (MultiDexArbitrageBot.block_timestamp m + 1) * 1000 <= now_route ->
  MultiDexArbitrageBot.value m = 0 ->
  MultiDexArbitrageBot.owner c = MultiDexArbitrageBot.sender m ->
  MultiDexArbitrageBot._entered c = false ->
  MultiDexArbitrageBot.executeArbitrage W env c m tokenA tokenB amountIn route s
  = Solidity.Reverted "Panic(0x11)" (Solidity.trace s).
Proof.
  intros Hsub Hstamp Hahead Hvalue Howner Hentered.
  assert (Hsec : ArbitrageManager.s_timestamp sub = now_route / 1000).
  { unfold ArbitrageManager.executeArbitrage in Hsub.
    destruct ((ArbitrageManager.maxExecutionsPerHour cfg
               <=? ArbitrageManager.len executionHistory)
              && (ArbitrageManager.maxExecutionsPerHour cfg
                  <=? ArbitrageManager.len
                        (ArbitrageManager.recentExecutions executionHistory now)));
      [discriminate|].
    destruct (ArbitrageManager.o_tokenA opportunity); [|discriminate].
    destruct (ArbitrageManager.o_tokenB opportunity); [|discriminate].
    destruct tx as [| | hash | hash status minedAt]; try discriminate.
    - injection Hsub as <-. reflexivity.
    - destruct (status =? 1); injection Hsub as <-; reflexivity. }
  assert (Hlate : MultiDexArbitrageBot.block_timestamp m < MultiDexArbitrageBot.timestamp route).
  { rewrite Hstamp, Hsec.
    pose proof (Z.div_le_lower_bound now_route 1000
                  (MultiDexArbitrageBot.block_timestamp m + 1) ltac:(lia) ltac:(lia)).
    lia. }
  unfold MultiDexArbitrageBot.executeArbitrage, MultiDexArbitrageBot.nonpayable,
    MultiDexArbitrageBot.onlyOwner_nonReentrant,
    MultiDexArbitrageBot.executeArbitrage_requires, Solidity.bind, Solidity.checked_sub.
  rewrite Hvalue, Howner, !Z.eqb_refl, Hentered.
  cbn [negb Solidity.require Solidity.ret].
  apply Z.leb_gt in Hlate. rewrite Hlate. reflexivity.
Qed.

Lemma a_clock_ahead_of_the_block_panics_witness :
  MultiDexArbitrageBot.executeArbitrage Mock.World generous_env (Mock.storage 100)
    owner_call 1000 2000 1999 route_from_the_future (Mock.start (Mock.mkWorld [] []))
  = Solidity.Reverted "Panic(0x11)" [].
Proof.
  eapply (a_clock_ahead_of_the_block_panics sample_config [] 1000002000 1000002000
            sample_opportunity (ArbitrageManager.Receipt "0xfeed" 0 1000003000) _
            Mock.World generous_env (Mock.storage 100) owner_call 1000 2000 1999
            route_from_the_future (Mock.start (Mock.mkWorld [] []))).
  - reflexivity.
  - reflexivity.
  - vm_compute. discriminate.
  - reflexivity.
  - reflexivity.
  - reflexivity.
Defined.

(** ** Disabled venues *)

Section DisabledVenueFacts.

Import Solidity MultiDexArbitrageBot.
Local Open Scope Z_scope.



End DisabledVenueFacts.



(** With venue 0 disabled the swap back goes to venue 1, which quotes
    the same. *)
Example swap_back_skips_the_disabled_venue :
  MultiDexArbitrageBot.findBestDexForSwap Mock.World generous_env storage_without_venue_0
    2000 1000 5 (Mock.start (Mock.mkWorld [] []))
  = Solidity.Done 1 (Mock.start (Mock.mkWorld [] [])).
Proof. vm_compute. reflexivity. Qed.
